(** * Kani dialogue engine: conversation memory and decision engine

    A shallow embedding of [AgentMemory] and [KaniService]
    (services/KaniService.ts) and of [calculateTokenCost]
    (config/apiConfig.ts), with the properties of the engine's
    specification stated and settled against it.

    Modelling conventions.
    - A JavaScript string is a [string]: a sequence of code units below 256
      (the Latin-1 range).  Case mapping and white space follow ECMAScript on
      that range.
    - A JavaScript number is an IEEE-754 binary64 value: [float].
    - A plain object used as a dictionary is an association list of its own
      properties in insertion order.  [Dict.entries] gives them in the order
      of [Object.keys] (array indices first, ascending), and [Dict.get] reads
      a property through the prototype chain, where the members of
      [Object.prototype] are found under names that are not own properties.
    - The regular-expression engine behind [new RegExp(p, 'i').test(s)] is an
      interface ([RegExpEngine]); the two fixed patterns of the source
      (character duplication, placeholders) are embedded as scanners.  The
      duplication pattern is embedded a second time on sequences of UTF-16
      code units ([Utf16]), where its behaviour outside Latin-1 is stated.
    - The chat-completion call is an oracle handed to [processUserInput]. *)

From Stdlib Require Import Bool Arith NArith List String Ascii Lia PrimFloat.
Import ListNotations.

Local Open Scope string_scope.
Local Open Scope nat_scope.
Local Open Scope bool_scope.
#[local] Set Warnings "-inexact-float".

(* ================================================================== *)
(** ** String primitives of the host language *)

Module JS.

Definition inRange (lo hi n : nat) : bool := (lo <=? n) && (n <=? hi).

(** [String.prototype.toLowerCase] on one code unit: A-Z, and the Latin-1
    capitals U+00C0..U+00DE except the multiplication sign U+00D7. *)
Definition lowerChar (c : ascii) : ascii :=
  let n := nat_of_ascii c in
  if inRange 65 90 n || (inRange 192 222 n && negb (n =? 215))
  then ascii_of_nat (n + 32) else c.

(** [String.prototype.toUpperCase] on a one-unit string: a-z and the Latin-1
    small letters U+00E0..U+00FE except the division sign U+00F7 move down by
    32, and the sharp s U+00DF becomes the two letters SS.  The capitals of
    the micro sign U+00B5 and of y with diaeresis U+00FF (U+039C, U+0178) lie
    outside the range: [capitalInRange] is false of them, and the unit is
    then kept as it is. *)
Definition capitalInRange (c : ascii) : bool :=
  let n := nat_of_ascii c in negb ((n =? 181) || (n =? 255)).

Definition toUpperCaseUnit (c : ascii) : string :=
  let n := nat_of_ascii c in
  if n =? 223 then "SS"
  else if inRange 97 122 n || (inRange 224 254 n && negb (n =? 247))
  then String (ascii_of_nat (n - 32)) EmptyString
  else String c EmptyString.

Fixpoint toLowerCase (s : string) : string :=
  match s with
  | EmptyString => EmptyString
  | String c t => String (lowerChar c) (toLowerCase t)
  end.

(** White space as [trim] and the class [\s] see it: TAB, LF, VT, FF, CR,
    SPACE and NO-BREAK SPACE. *)
Definition isWhiteSpace (c : ascii) : bool :=
  let n := nat_of_ascii c in inRange 9 13 n || (n =? 32) || (n =? 160).

(** Line terminators, which the pattern [.] does not match.  Below 256 they
    are LF and CR; the other two, U+2028 and U+2029, are in
    [Utf16.isLineTerminator]. *)
Definition isLineTerminator (c : ascii) : bool :=
  let n := nat_of_ascii c in (n =? 10) || (n =? 13).

(** The class [[a-zA-Z0-9_]]. *)
Definition isWordChar (c : ascii) : bool :=
  let n := nat_of_ascii c in
  inRange 97 122 n || inRange 65 90 n || inRange 48 57 n || (n =? 95).

Fixpoint trimStart (s : string) : string :=
  match s with
  | EmptyString => EmptyString
  | String c t => if isWhiteSpace c then trimStart t else s
  end.

Fixpoint trimEnd (s : string) : string :=
  match s with
  | EmptyString => EmptyString
  | String c t =>
      match trimEnd t with
      | EmptyString => if isWhiteSpace c then EmptyString else String c EmptyString
      | t' => String c t'
      end
  end.

Definition trim (s : string) : string := trimEnd (trimStart s).

(** [s.startsWith(p)] *)
Definition startsWith (s p : string) : bool := String.prefix p s.

(** [s.includes(p)] *)
Fixpoint includes (s p : string) : bool :=
  String.prefix p s ||
  match s with
  | EmptyString => false
  | String _ t => includes t p
  end.

(** [s.endsWith(p)] *)
Fixpoint endsWith (s p : string) : bool :=
  (s =? p)%string ||
  match s with
  | EmptyString => false
  | String _ t => endsWith t p
  end.

(** [s.substring(n)] / [s.slice(n)] for [n >= 0]. *)
Fixpoint substringFrom (n : nat) (s : string) : string :=
  match n, s with
  | O, _ => s
  | S _, EmptyString => EmptyString
  | S k, String _ t => substringFrom k t
  end.

Definition consHead (c : ascii) (l : list string) : list string :=
  match l with
  | [] => [String c EmptyString]
  | h :: tl => String c h :: tl
  end.

(** [s.split(sep)] for a one-character separator. *)
Fixpoint split (sep : ascii) (s : string) : list string :=
  match s with
  | EmptyString => [EmptyString]
  | String c t =>
      if Ascii.eqb c sep then EmptyString :: split sep t
      else consHead c (split sep t)
  end.

(** [s.split(/\s+/)]: [inWs] says that the previous code unit belonged to a
    separator run. *)
Fixpoint splitWsFrom (inWs : bool) (s : string) : list string :=
  match s with
  | EmptyString => [EmptyString]
  | String c t =>
      if isWhiteSpace c
      then (if inWs then splitWsFrom true t else EmptyString :: splitWsFrom true t)
      else consHead c (splitWsFrom false t)
  end.

Definition splitWs (s : string) : list string := splitWsFrom false s.

(** [s.replace(/c/g, r)] for a one-character pattern. *)
Fixpoint replaceAllChar (c : ascii) (r : string) (s : string) : string :=
  match s with
  | EmptyString => EmptyString
  | String d t =>
      if Ascii.eqb d c then r ++ replaceAllChar c r t
      else String d (replaceAllChar c r t)
  end.

(** [s.replace(p, '')] for a string pattern: the first occurrence only. *)
Fixpoint removeFirst (p : string) (s : string) : string :=
  if String.prefix p s then substringFrom (String.length p) s
  else match s with
       | EmptyString => EmptyString
       | String c t => String c (removeFirst p t)
       end.

(** Truthiness of a string value. *)
Definition truthy (s : string) : bool := negb (s =? "")%string.

(** [a || b] on strings. *)
Definition orElse (a b : string) : string := if truthy a then a else b.

(** [arr.join(sep)] *)
Definition join (sep : string) (l : list string) : string := String.concat sep l.

(** [arr.slice(-n)] *)
Definition lastN {A : Type} (n : nat) (l : list A) : list A :=
  skipn (List.length l - n) l.

End JS.

(** The engine behind [new RegExp(pattern, 'i').test(subject)]: [None] when
    the constructor throws a [SyntaxError] on a malformed pattern. *)
Class RegExpEngine := regexTestI : string -> string -> option bool.

(** An engine that rejects every pattern; it closes the examples whose
    conditions never reach a regular expression. *)
Definition rejectingEngine : RegExpEngine := fun _ _ => None.

(* ================================================================== *)
(** ** Dictionaries: plain objects keyed by strings *)

(** What every plain object inherits from [Object.prototype]: eleven
    methods, and the accessor [__proto__] whose value is the prototype
    itself. *)
Module ObjectPrototype.

Inductive Member :=
| Method (functionName : string)
| Proto.

Definition methods : list string :=
  [ "hasOwnProperty"; "isPrototypeOf"; "propertyIsEnumerable";
    "toLocaleString"; "toString"; "valueOf";
    "__defineGetter__"; "__defineSetter__";
    "__lookupGetter__"; "__lookupSetter__" ].

(** [Object.prototype[k]]; the member [constructor] is the function
    [Object], every other method carries its own name. *)
Definition member (k : string) : option Member :=
  if (k =? "__proto__")%string then Some Proto
  else if (k =? "constructor")%string then Some (Method "Object")
  else if existsb (String.eqb k) methods then Some (Method k)
  else None.

(** [member.name]: the name of a function; the prototype object has none
    ([""] stands for [undefined], both are falsy). *)
Definition memberName (mb : Member) : string :=
  match mb with
  | Method functionName => functionName
  | Proto => ""
  end.

(** [String(member)]: the source text of a built-in function as V8 prints
    it, and the default text of an object. *)
Definition memberText (mb : Member) : string :=
  match mb with
  | Method functionName => "function " ++ functionName ++ "() { [native code] }"
  | Proto => "[object Object]"
  end.

End ObjectPrototype.

Module Dict.

(** A property as a read finds it. *)
Inductive Property (V : Type) : Type :=
| Own (v : V)
| Inherited (mb : ObjectPrototype.Member)
| Absent.

Arguments Own {V} v.
Arguments Inherited {V} mb.
Arguments Absent {V}.

Definition isDigit (c : ascii) : bool := JS.inRange 48 57 (nat_of_ascii c).

Fixpoint allDigits (s : string) : bool :=
  match s with
  | EmptyString => true
  | String c t => isDigit c && allDigits t
  end.

Fixpoint decimalFrom (acc : N) (s : string) : N :=
  match s with
  | EmptyString => acc
  | String c t => decimalFrom (acc * 10 + (N_of_ascii c - 48))%N t
  end.

(** Is the key an array index, that is the canonical decimal numeral of an
    integer from 0 to 2^32 - 2?  Such keys are enumerated first. *)
Definition arrayIndex (k : string) : option N :=
  match k with
  | EmptyString => None
  | String c t =>
      if allDigits k && (negb (Ascii.eqb c "0") || (t =? "")%string) then
        let n := decimalFrom 0 k in
        if (n <? 4294967295)%N then Some n else None
      else None
  end.

Section WithValue.
Context {V : Type}.

(** The own property [k]; [None] when there is none.  It is what [obj[k]]
    amounts to for a reader that only goes on to read the transitions, the
    hints or the question of the value, since a member of [Object.prototype]
    has none of these. *)
Fixpoint lookup (k : string) (d : list (string * V)) : option V :=
  match d with
  | [] => None
  | (k', v) :: rest => if (k' =? k)%string then Some v else lookup k rest
  end.

(** [obj[k]] for a reader that tests or prints the value itself. *)
Definition get (k : string) (d : list (string * V)) : Property V :=
  match lookup k d with
  | Some v => Own v
  | None =>
      match ObjectPrototype.member k with
      | Some mb => Inherited mb
      | None => Absent
      end
  end.

(** [obj[k] = v]: an existing key keeps its place, a new key goes last.
    (The key [__proto__], which an assignment takes for the prototype, is not
    treated apart.) *)
Fixpoint assign (k : string) (v : V) (d : list (string * V)) : list (string * V) :=
  match d with
  | [] => [(k, v)]
  | (k', v') :: rest =>
      if (k' =? k)%string then (k', v) :: rest else (k', v') :: assign k v rest
  end.

(** The array-index properties in ascending order of their index. *)
Fixpoint insertByIndex (n : N) (e : string * V) (l : list (N * (string * V)))
    : list (N * (string * V)) :=
  match l with
  | [] => [(n, e)]
  | (n', e') :: rest =>
      if (n <? n')%N then (n, e) :: l else (n', e') :: insertByIndex n e rest
  end.

Fixpoint indexed (d : list (string * V)) : list (N * (string * V)) :=
  match d with
  | [] => []
  | e :: rest =>
      match arrayIndex (fst e) with
      | Some n => insertByIndex n e (indexed rest)
      | None => indexed rest
      end
  end.

Definition named (d : list (string * V)) : list (string * V) :=
  filter (fun e => match arrayIndex (fst e) with Some _ => false | None => true end) d.

(** [Object.entries(obj)], and the order of [Object.keys(obj)] and of
    [for (k in obj)]: the array indices in ascending order, then the other
    keys in the order of their creation. *)
Definition entries (d : list (string * V)) : list (string * V) :=
  (map snd (indexed d) ++ named d)%list.

End WithValue.

End Dict.

(* ================================================================== *)
(** ** Data model (models/types.ts as the service uses it) *)

Record Transition := {
  condition : string;
  targetState : string
}.

(** A state definition.  An absent optional string field and an empty one
    are both falsy and are treated alike by every reader, so they share the
    value [""]; [transitions] keeps [undefined] apart from the empty array. *)
Record StateDefinition := {
  name : string;
  question : string;
  expectedInputs : string;
  expectedKeywords : string;
  transitions : option (list Transition)
}.

Record DisqualificationRule := {
  ruleCondition : string;
  message : string
}.

Record KnowledgeBaseItem := {
  pattern : string;
  response : string
}.

(** The configuration of a business.  [tonePreference] is optional in the
    source type: [None] is an absent tone. *)
Record Business := {
  businessName : string;
  businessType : string;
  useCase : string;
  agentRole : string;
  tonePreference : option string;
  initialState : string;
  businessStateDefinitions : list (string * StateDefinition);
  businessDisqualificationRules : list DisqualificationRule;
  businessKnowledgeBase : list KnowledgeBaseItem
}.

Record UserResponse := {
  value : string;
  valid : bool;
  timestamp : string
}.

Record HistoryEntry := {
  from : string;
  to : string;
  reason : string
}.

Record TokenUsage := {
  totalTokens : float;
  inputTokens : float;
  outputTokens : float;
  estimatedCost : float
}.

(* ================================================================== *)
(** ** config/apiConfig.ts *)

Module ApiConfig.

Local Open Scope float_scope.

Definition defaultModel : string := "gpt-3.5-turbo".

Definition gpt35Input : float := 0.002.
Definition gpt35Output : float := 0.002.
Definition gpt4Input : float := 0.03.
Definition gpt4Output : float := 0.06.

Definition calculateTokenCost (inTok outTok : float) (model : string) : float :=
  let isGpt4 := JS.startsWith model "gpt-4" in
  if isGpt4
  then (inTok / 1000 * gpt4Input) + (outTok / 1000 * gpt4Output)
  else (inTok / 1000 * gpt35Input) + (outTok / 1000 * gpt35Output).

End ApiConfig.

(** A non-negative integer as a number (exact below 2^53). *)
Fixpoint numberOfNat (n : nat) : float :=
  match n with
  | O => 0%float
  | S k => (numberOfNat k + 1)%float
  end.

(** [Math.ceil(n / 4)] for a length [n]. *)
Definition ceilDiv4 (n : nat) : nat := (n + 3) / 4.

(* ================================================================== *)
(** ** AgentMemory *)

Record AgentMemory := {
  stateDefinitions : list (string * StateDefinition);
  userResponses : list (string * UserResponse);
  currentState : string;
  transitionHistory : list HistoryEntry;
  disqualificationRules : list DisqualificationRule;
  knowledgeBase : list KnowledgeBaseItem;
  tokenUsage : TokenUsage;
  contextualData : list (string * string);
  currentPrompt : string;
  usedLLM : bool
}.

Definition setCurrentState (m : AgentMemory) (s : string) : AgentMemory :=
  {| stateDefinitions := stateDefinitions m; userResponses := userResponses m;
     currentState := s; transitionHistory := transitionHistory m;
     disqualificationRules := disqualificationRules m;
     knowledgeBase := knowledgeBase m; tokenUsage := tokenUsage m;
     contextualData := contextualData m; currentPrompt := currentPrompt m;
     usedLLM := usedLLM m |}.

Definition pushHistory (m : AgentMemory) (e : HistoryEntry) : AgentMemory :=
  {| stateDefinitions := stateDefinitions m; userResponses := userResponses m;
     currentState := currentState m;
     transitionHistory := (transitionHistory m ++ [e])%list;
     disqualificationRules := disqualificationRules m;
     knowledgeBase := knowledgeBase m; tokenUsage := tokenUsage m;
     contextualData := contextualData m; currentPrompt := currentPrompt m;
     usedLLM := usedLLM m |}.

Definition setUserResponse (m : AgentMemory) (k : string) (r : UserResponse) : AgentMemory :=
  {| stateDefinitions := stateDefinitions m;
     userResponses := Dict.assign k r (userResponses m);
     currentState := currentState m; transitionHistory := transitionHistory m;
     disqualificationRules := disqualificationRules m;
     knowledgeBase := knowledgeBase m; tokenUsage := tokenUsage m;
     contextualData := contextualData m; currentPrompt := currentPrompt m;
     usedLLM := usedLLM m |}.

Definition setContext (m : AgentMemory) (k v : string) : AgentMemory :=
  {| stateDefinitions := stateDefinitions m; userResponses := userResponses m;
     currentState := currentState m; transitionHistory := transitionHistory m;
     disqualificationRules := disqualificationRules m;
     knowledgeBase := knowledgeBase m; tokenUsage := tokenUsage m;
     contextualData := Dict.assign k v (contextualData m);
     currentPrompt := currentPrompt m; usedLLM := usedLLM m |}.

Definition setTokenUsage (m : AgentMemory) (t : TokenUsage) : AgentMemory :=
  {| stateDefinitions := stateDefinitions m; userResponses := userResponses m;
     currentState := currentState m; transitionHistory := transitionHistory m;
     disqualificationRules := disqualificationRules m;
     knowledgeBase := knowledgeBase m; tokenUsage := t;
     contextualData := contextualData m; currentPrompt := currentPrompt m;
     usedLLM := usedLLM m |}.

(** [constructor(business)].  With an absent tone the source keeps the entry
    [tonePreference: undefined]; it is left out here, since
    [replaceContextVariables] takes an undefined value for a missing one and
    every enumeration of the keys skips the five business keys. *)
Definition newAgentMemory (b : Business) : AgentMemory :=
  {| stateDefinitions := businessStateDefinitions b;
     userResponses := [];
     currentState := JS.orElse (initialState b) "greeting";
     transitionHistory := [];
     disqualificationRules := businessDisqualificationRules b;
     knowledgeBase := businessKnowledgeBase b;
     tokenUsage := {| totalTokens := 0; inputTokens := 0;
                      outputTokens := 0; estimatedCost := 0 |};
     contextualData := ([ ("businessName", businessName b);
                          ("businessType", businessType b);
                          ("useCase", useCase b);
                          ("agentRole", agentRole b) ] ++
                        match tonePreference b with
                        | Some tone => [ ("tonePreference", tone) ]
                        | None => []
                        end)%list;
     currentPrompt := "";
     usedLLM := false |}.

Definition setCurrentPrompt (m : AgentMemory) (p : string) : AgentMemory :=
  {| stateDefinitions := stateDefinitions m; userResponses := userResponses m;
     currentState := currentState m; transitionHistory := transitionHistory m;
     disqualificationRules := disqualificationRules m;
     knowledgeBase := knowledgeBase m; tokenUsage := tokenUsage m;
     contextualData := contextualData m; currentPrompt := p;
     usedLLM := usedLLM m |}.

Definition setLLMUsed (m : AgentMemory) (used : bool) : AgentMemory :=
  {| stateDefinitions := stateDefinitions m; userResponses := userResponses m;
     currentState := currentState m; transitionHistory := transitionHistory m;
     disqualificationRules := disqualificationRules m;
     knowledgeBase := knowledgeBase m; tokenUsage := tokenUsage m;
     contextualData := contextualData m; currentPrompt := currentPrompt m;
     usedLLM := used |}.

(** [updateTokenUsage(inputTokens, outputTokens)].  The call to
    [calculateTokenCost] passes no model, so its default applies. *)
Definition updateTokenUsage (m : AgentMemory) (inTok outTok : float) : AgentMemory :=
  let t := tokenUsage m in
  let inTotal := (inputTokens t + inTok)%float in
  let outTotal := (outputTokens t + outTok)%float in
  let total := (totalTokens t + (inTok + outTok))%float in
  setTokenUsage m
    {| totalTokens := total; inputTokens := inTotal; outputTokens := outTotal;
       estimatedCost :=
         ApiConfig.calculateTokenCost inTotal outTotal ApiConfig.defaultModel |}.

(** The result of a regular-expression test inside [try { ... } catch]
    that answers [false] on a malformed pattern. *)
Definition regexOrFalse `{RegExpEngine} (pat subject : string) : bool :=
  match regexTestI pat subject with
  | Some b => b
  | None => false
  end.

(** [words.filter((word, index, arr) => index > 0 && word === arr[index - 1])] *)
Fixpoint repeatedAfter (prev : string) (ws : list string) : list string :=
  match ws with
  | [] => []
  | w :: rest =>
      if (w =? prev)%string then w :: repeatedAfter w rest
      else repeatedAfter w rest
  end.

Definition repeatedWords (ws : list string) : list string :=
  match ws with
  | [] => []
  | w :: rest => repeatedAfter w rest
  end.

(** [matchesSingleCondition(response, condition)] *)
Definition matchesSingleCondition `{RegExpEngine} (response cond : string) : bool :=
  if JS.startsWith cond "contains:" then
    JS.includes response (JS.trim (JS.substringFrom (String.length "contains:") cond))
  else if JS.startsWith cond "exact:" then
    (response =? JS.trim (JS.substringFrom (String.length "exact:") cond))%string
  else if JS.startsWith cond "starts:" then
    JS.startsWith response (JS.trim (JS.substringFrom (String.length "starts:") cond))
  else if JS.startsWith cond "ends:" then
    JS.endsWith response (JS.trim (JS.substringFrom (String.length "ends:") cond))
  else if JS.includes cond "*" || JS.includes cond "+" ||
          JS.includes cond "?" || JS.includes cond "|" then
    let regexString :=
      JS.replaceAllChar "+" ".+" (JS.replaceAllChar "*" ".*" cond) in
    regexOrFalse regexString response
  else
    let words := JS.splitWs response in
    let repeated := repeatedWords words in
    if (0 <? List.length repeated) && existsb (fun word => JS.includes cond word) repeated
    then true
    else JS.includes response cond.

(** [matchesCondition(response, condition)] *)
Definition matchesCondition `{RegExpEngine} (response cond : string) : bool :=
  if (JS.toLowerCase cond =? "any")%string then true
  else
    let normalizedResponse := JS.trim (JS.toLowerCase response) in
    if JS.includes cond "," then
      let options :=
        map (fun opt => JS.toLowerCase (JS.trim opt)) (JS.split "," cond) in
      existsb (fun opt => matchesSingleCondition normalizedResponse opt) options
    else matchesSingleCondition normalizedResponse (JS.toLowerCase cond).

(** The key under which [storeResponse] files a response, from the
    lower-cased expected-input hint. *)
Definition contextKeyFor (expectedType : string) : string :=
  if JS.includes expectedType "name" then "userName"
  else if JS.includes expectedType "company" || JS.includes expectedType "business"
  then "userCompany"
  else if JS.includes expectedType "email" then "userEmail"
  else if JS.includes expectedType "phone" then "userPhone"
  else if JS.includes expectedType "preference" || JS.includes expectedType "interest"
  then "userPreference"
  else if JS.includes expectedType "order" || JS.includes expectedType "product"
  then "userOrder"
  else if JS.includes expectedType "address" then "userAddress"
  else if JS.includes expectedType "feedback" then "userFeedback"
  else
    "user" ++
    match expectedType with
    | EmptyString => EmptyString
    | String c rest => JS.toUpperCaseUnit c ++ rest
    end.

(** [storeResponse(questionId, response, valid)]; [now] is the value of
    [new Date().toISOString()] at the call. *)
Definition storeResponse (m : AgentMemory) (questionId resp : string)
    (isValid : bool) (now : string) : AgentMemory :=
  let m1 := setUserResponse m questionId
              {| value := resp; valid := isValid; timestamp := now |} in
  match Dict.lookup (currentState m1) (stateDefinitions m1) with
  | Some sd =>
      if JS.truthy (expectedInputs sd) then
        let expectedType := JS.toLowerCase (expectedInputs sd) in
        let m2 := setContext m1 (contextKeyFor expectedType) resp in
        pushHistory m2
          {| from := currentState m2; to := currentState m2;
             reason := "Form data update: " ++ expectedType |}
      else m1
  | None => m1
  end.

(** The loop of [getNextState]: the first transition whose condition
    matches. *)
Fixpoint firstTransition `{RegExpEngine} (resp : string) (ts : list Transition)
    : option Transition :=
  match ts with
  | [] => None
  | t :: rest =>
      if matchesCondition resp (condition t) then Some t
      else firstTransition resp rest
  end.

(** [getNextState(response)]: the returned target and the memory after the
    call. *)
Definition getNextState `{RegExpEngine} (m : AgentMemory) (resp : string)
    : option string * AgentMemory :=
  match Dict.lookup (currentState m) (stateDefinitions m) with
  | None => (None, m)
  | Some sd =>
      match transitions sd with
      | None => (None, m)
      | Some ts =>
          match firstTransition resp ts with
          | Some t =>
              let m1 := pushHistory m
                          {| from := currentState m; to := targetState t;
                             reason := condition t |} in
              (Some (targetState t), setCurrentState m1 (targetState t))
          | None => (None, m)
          end
      end
  end.

(** [replaceContextVariables(text)]: the global replacement of
    [/{([a-zA-Z0-9_]+)}/g].  [pending = Some acc] records an opening brace
    followed by the word characters [acc]; a match completes on a closing
    brace after at least one word character, and a failed attempt leaves the
    scanned text as it is (no match can start inside a run of word
    characters).  The test [contextualData[name] !== undefined] reads
    through the prototype chain, so a name that is no stored fact but a member
    of [Object.prototype] is replaced by the text of that member. *)
Definition contextValue (ctx : list (string * string)) (variableName : string)
    : option string :=
  match Dict.get variableName ctx with
  | Dict.Own v => Some v
  | Dict.Inherited mb => Some (ObjectPrototype.memberText mb)
  | Dict.Absent => None
  end.

Fixpoint replaceVarsFrom (ctx : list (string * string)) (pending : option string)
    (text : string) : string :=
  match text with
  | EmptyString =>
      match pending with
      | Some acc => "{" ++ acc
      | None => EmptyString
      end
  | String c rest =>
      match pending with
      | Some acc =>
          if JS.isWordChar c then
            replaceVarsFrom ctx (Some (acc ++ String c EmptyString)) rest
          else if Ascii.eqb c "}" && JS.truthy acc then
            match contextValue ctx acc with
            | Some v => v
            | None => "{" ++ acc ++ "}"
            end ++ replaceVarsFrom ctx None rest
          else if Ascii.eqb c "{" then
            "{" ++ acc ++ replaceVarsFrom ctx (Some EmptyString) rest
          else "{" ++ acc ++ String c (replaceVarsFrom ctx None rest)
      | None =>
          if Ascii.eqb c "{" then replaceVarsFrom ctx (Some EmptyString) rest
          else String c (replaceVarsFrom ctx None rest)
      end
  end.

Definition replaceContextVariables (m : AgentMemory) (text : string) : string :=
  replaceVarsFrom (contextualData m) None text.

(** [/[\|\+\*\?\(\)\[\]]/.test(pattern)] *)
Definition isRegexMeta (c : ascii) : bool :=
  existsb (Ascii.eqb c) ["|"; "+"; "*"; "?"; "("; ")"; "["; "]"]%char.

Fixpoint hasRegexMeta (s : string) : bool :=
  match s with
  | EmptyString => false
  | String c rest => isRegexMeta c || hasRegexMeta rest
  end.

(** One iteration of the loop of [findKnowledgeBaseResponse]: does the item
    answer the normalised query? *)
Definition itemMatches `{RegExpEngine} (normalizedQuery : string)
    (item : KnowledgeBaseItem) : bool :=
  if hasRegexMeta (pattern item) then
    match regexTestI (pattern item) normalizedQuery with
    | Some b => b
    | None => JS.includes normalizedQuery (JS.toLowerCase (pattern item))
    end
  else
    let patternTerms := JS.splitWs (JS.toLowerCase (pattern item)) in
    existsb (fun term => JS.includes normalizedQuery term && (3 <? String.length term))
            patternTerms.

Fixpoint findItem `{RegExpEngine} (normalizedQuery : string)
    (items : list KnowledgeBaseItem) : option KnowledgeBaseItem :=
  match items with
  | [] => None
  | item :: rest =>
      if itemMatches normalizedQuery item then Some item
      else findItem normalizedQuery rest
  end.

(** [findKnowledgeBaseResponse(query)] *)
Definition findKnowledgeBaseResponse `{RegExpEngine} (m : AgentMemory)
    (query : string) : option string :=
  let normalizedQuery := JS.trim (JS.toLowerCase query) in
  match findItem normalizedQuery (knowledgeBase m) with
  | Some item => Some (replaceContextVariables m (response item))
  | None => None
  end.

(** [isDisqualified(response)]: [Some message] stands for
    [{disqualified: true, message}], [None] for [{disqualified: false}]. *)
Fixpoint firstRule `{RegExpEngine} (resp : string) (rules : list DisqualificationRule)
    : option string :=
  match rules with
  | [] => None
  | rule :: rest =>
      if matchesCondition resp (ruleCondition rule) then Some (message rule)
      else firstRule resp rest
  end.

Definition isDisqualified `{RegExpEngine} (m : AgentMemory) (resp : string)
    : option string :=
  firstRule resp (disqualificationRules m).

(** [getCurrentStateDefinition()]: the value itself, which its caller tests
    for truthiness; [Dict.Absent] is [null]. *)
Definition getCurrentStateDefinition (m : AgentMemory)
    : Dict.Property StateDefinition :=
  Dict.get (currentState m) (stateDefinitions m).

(** The five business-identity keys that [shouldUseLLM] and the prompt
    leave out of the form data. *)
Definition isBusinessKey (k : string) : bool :=
  existsb (String.eqb k)
    ["businessName"; "businessType"; "useCase"; "agentRole"; "tonePreference"].

(** The body of the [for (key in contextualData)] loop of [shouldUseLLM]:
    is the question about this stored entry? *)
Definition asksAbout (resp : string) (entry : string * string) : bool :=
  let (key, val) := entry in
  negb (isBusinessKey key) &&
  (JS.truthy val &&
   JS.includes (JS.toLowerCase resp) (JS.removeFirst "user" (JS.toLowerCase key))).

Definition openEndedHint (expected : string) : bool :=
  JS.includes expected "reason" ||
  JS.includes expected "objection" ||
  JS.includes expected "explanation" ||
  JS.includes expected "description" ||
  JS.includes expected "feedback".

(** [shouldUseLLM(response)] *)
Definition shouldUseLLM `{RegExpEngine} (m : AgentMemory) (resp : string) : bool :=
  if JS.endsWith resp "?" && (10 <? String.length resp) then
    if existsb (asksAbout resp) (Dict.entries (contextualData m)) then false else true
  else
    match Dict.lookup (currentState m) (stateDefinitions m) with
    | None => true
    | Some sd =>
        match transitions sd with
        | None => true
        | Some ts =>
            let expected := JS.toLowerCase (expectedInputs sd) in
            let keywords := JS.toLowerCase (expectedKeywords sd) in
            if openEndedHint expected then true
            else if (expected =? "any")%string || JS.includes expected "any response" ||
                    (keywords =? "any")%string || JS.includes keywords "any" then
              if existsb (fun t =>
                   (JS.trim (JS.toLowerCase (condition t)) =? "any")%string) ts
              then false
              else if existsb (fun t => matchesCondition resp (condition t)) ts
              then false
              else true
            else if existsb (fun t => matchesCondition resp (condition t)) ts
            then false
            else true
        end
    end.

(** [buildMinimalContext()] *)
Record MinimalContext := {
  ctxCurrentState : string;
  relevantResponses : list (string * UserResponse);
  stateDefinition : option StateDefinition;
  recentTransitions : list HistoryEntry;
  ctxContextualData : list (string * string)
}.

(** [getRelevantResponses()]: the entries of the last seven keys in the
    order of [Object.keys].  The object it builds is given as the list of its
    entries in that same order. *)
Definition getRelevantResponses (m : AgentMemory) : list (string * UserResponse) :=
  JS.lastN 7 (Dict.entries (userResponses m)).

Definition buildMinimalContext (m : AgentMemory) : MinimalContext :=
  {| ctxCurrentState := currentState m;
     relevantResponses := getRelevantResponses m;
     stateDefinition := Dict.lookup (currentState m) (stateDefinitions m);
     recentTransitions := JS.lastN 5 (transitionHistory m);
     ctxContextualData := contextualData m |}.

(* ================================================================== *)
(** ** KaniService *)

Definition nl : string := String (ascii_of_nat 10) EmptyString.
Definition dq : string := String (ascii_of_nat 34) EmptyString.

Record KaniService := {
  openai : bool;  (* is the client initialised (non-empty API key)? *)
  memory : AgentMemory;
  business : Business;
  apiKey : string;
  modelName : string;
  responseDelay : nat
}.

Definition setMemory (svc : KaniService) (m : AgentMemory) : KaniService :=
  {| openai := openai svc; memory := m; business := business svc;
     apiKey := apiKey svc; modelName := modelName svc;
     responseDelay := responseDelay svc |}.

(** [constructor(apiKey, business, modelName, responseDelay)] *)
Definition newKaniService (key : string) (b : Business) (model : string)
    (delay : nat) : KaniService :=
  {| openai := JS.truthy key; memory := newAgentMemory b; business := b;
     apiKey := key; modelName := model; responseDelay := delay |}.

(** [generateSystemPrompt(context)] *)
Definition generateSystemPrompt (svc : KaniService) (context : MinimalContext) : string :=
  let b := business svc in
  let questionText :=
    match stateDefinition context with Some sd => question sd | None => "" end in
  let expected :=
    match stateDefinition context with Some sd => expectedInputs sd | None => "" end in
  let keywords :=
    match stateDefinition context with Some sd => expectedKeywords sd | None => "" end in
  let responsesText :=
    JS.join nl
      (map (fun e : string * UserResponse =>
              "- " ++ fst e ++ ": " ++ dq ++ value (snd e) ++ dq)
           (Dict.entries (relevantResponses context))) in
  let contextEntries :=
    filter (fun e : string * string => negb (isBusinessKey (fst e)))
           (Dict.entries (ctxContextualData context)) in
  let contextDataText :=
    if 0 <? List.length contextEntries
    then JS.join nl
           (map (fun e : string * string => "- " ++ fst e ++ ": " ++ snd e)
                contextEntries)
    else "No additional user data collected yet." in
  JS.join nl
    [ "You are a virtual assistant for " ++ businessName b ++ ", a " ++
        businessType b ++ " business.";
      "";
      "ROLE: " ++ agentRole b ++ " helping with " ++ useCase b;
      "";
      "CURRENT STATE: " ++ ctxCurrentState context;
      "CURRENT QUESTION: " ++ dq ++ questionText ++ dq;
      "EXPECTED INPUTS: " ++ expected;
      "EXPECTED KEYWORDS: " ++ keywords;
      "";
      "USER CONTEXT (FORM DATA - MOST IMPORTANT):";
      contextDataText;
      "";
      "RECENT RESPONSES:";
      responsesText;
      "";
      "RESPONSE GUIDELINES:";
      "1. Use " ++
        JS.orElse (match tonePreference b with Some tone => tone | None => "" end)
                  "professional" ++ " tone";
      "2. Be very concise (under 50 words)";
      "3. Stay focused on answering the current question ";
      "4. Reference the form data whenever relevant";
      "5. Do not ask new questions unless absolutely necessary";
      "6. If user is off-topic, briefly acknowledge then guide back to the current question";
      "7. If user asks about form data they've provided, answer directly using that data";
      "8. Avoid unnecessary explanations or elaborations";
      "9. Always relate your response to the user context data whenever possible to maintain continuity";
      "10. When using LLM, try to tie responses back to previous form data for token optimization";
      "11. Preserve correct spelling of words - do not truncate words with double letters";
      "12. IMPORTANT: For words like " ++ dq ++ "well" ++ dq ++ ", " ++ dq ++
        "address" ++ dq ++ ", " ++ dq ++ "follow" ++ dq ++
        ", etc., preserve all letters";
      "";
      "After responding, guide the user back to the conversation flow established in the current question." ].

(** The character-duplication repair, [/(.)\1{2,}/g].  [test] asks for three
    equal code units in a row, the first of which [.] accepts. *)
Definition startsRun (c : ascii) (rest : string) : bool :=
  negb (JS.isLineTerminator c) &&
  match rest with
  | String c1 (String c2 _) => Ascii.eqb c1 c && Ascii.eqb c2 c
  | _ => false
  end.

Fixpoint testDuplication (s : string) : bool :=
  match s with
  | EmptyString => false
  | String c rest => startsRun c rest || testDuplication rest
  end.

(** [response.replace(problematicDuplication, '$1$1')].  [consuming = Some c]
    is the state inside a match on [c]: the greedy [\1{2,}] takes every
    further [c], and the whole match is replaced by two of them. *)
Fixpoint replaceDuplicationFrom (consuming : option ascii) (s : string) : string :=
  match s with
  | EmptyString => EmptyString
  | String c rest =>
      let fresh :=
        if startsRun c rest
        then String c (String c (replaceDuplicationFrom (Some c) rest))
        else String c (replaceDuplicationFrom None rest) in
      match consuming with
      | Some d => if Ascii.eqb c d then replaceDuplicationFrom (Some d) rest else fresh
      | None => fresh
      end
  end.

Definition replaceDuplication (s : string) : string := replaceDuplicationFrom None s.

(** The post-processing step of [processUserInput]. *)
Definition fixDuplication (resp : string) : string :=
  if testDuplication resp then replaceDuplication resp else resp.

(** The same repair on a text given as its UTF-16 code units, which is how
    the pattern sees it: without the flag [u], [.] and [\1] each stand for
    one code unit, [.] accepts every code unit except the four line
    terminators LF, CR, U+2028 and U+2029, and a character outside the Basic
    Multilingual Plane is a pair of different code units. *)
Module Utf16.

Definition isLineTerminator (u : N) : bool :=
  ((u =? 10) || (u =? 13) || (u =? 8232) || (u =? 8233))%N.

Definition startsRun (u : N) (rest : list N) : bool :=
  negb (isLineTerminator u) &&
  match rest with
  | u1 :: u2 :: _ => (u1 =? u)%N && (u2 =? u)%N
  | _ => false
  end.

Fixpoint testDuplication (s : list N) : bool :=
  match s with
  | [] => false
  | u :: rest => startsRun u rest || testDuplication rest
  end.

Fixpoint replaceDuplicationFrom (consuming : option N) (s : list N) : list N :=
  match s with
  | [] => []
  | u :: rest =>
      let fresh :=
        if startsRun u rest
        then u :: u :: replaceDuplicationFrom (Some u) rest
        else u :: replaceDuplicationFrom None rest in
      match consuming with
      | Some d => if (u =? d)%N then replaceDuplicationFrom (Some d) rest else fresh
      | None => fresh
      end
  end.

Definition replaceDuplication (s : list N) : list N := replaceDuplicationFrom None s.

Definition fixDuplication (resp : list N) : list N :=
  if testDuplication resp then replaceDuplication resp else resp.

(** The code units of a text of the Latin-1 range. *)
Fixpoint ofString (s : string) : list N :=
  match s with
  | EmptyString => []
  | String c t => N_of_ascii c :: ofString t
  end.

(** A text as its maximal runs of equal code units. *)
Fixpoint runs (s : list N) : list (N * nat) :=
  match s with
  | [] => []
  | u :: t =>
      match runs t with
      | (d, n) :: rest =>
          if (u =? d)%N then (d, S n) :: rest else (u, 1) :: (d, n) :: rest
      | [] => [(u, 1)]
      end
  end.

Fixpoint expand (l : list (N * nat)) : list N :=
  match l with
  | [] => []
  | (u, n) :: rest => (repeat u n ++ expand rest)%list
  end.

Fixpoint maximalRuns (l : list (N * nat)) : Prop :=
  match l with
  | [] => True
  | (u, n) :: rest =>
      0 < n /\
      match rest with
      | [] => True
      | (d, _) :: _ => u <> d
      end /\
      maximalRuns rest
  end.

(** What the repair does to one run: three or more of a code unit that [.]
    accepts become two; anything else stays. *)
Definition capRun (r : N * nat) : N * nat :=
  let (u, n) := r in
  (u, if negb (isLineTerminator u) && (3 <=? n) then 2 else n).

Definition headIs (u : N) (s : list N) : bool :=
  match s with
  | [] => false
  | d :: _ => (d =? u)%N
  end.

End Utf16.

(** What [createChatCompletion] does: it throws, or it resolves to a value
    that fails the shape check (which then throws), or it resolves to a first
    choice whose content is given ([""] also stands for an absent content). *)
Inductive Completion :=
| ApiThrows
| InvalidResponse
| Content (text : string).

(** The model capability: model name, system prompt, user message. *)
Definition ChatModel := string -> string -> string -> Completion.

(** The result of a turn; in [turnResponse] the empty text also stands for
    an undefined response. *)
Record TurnResult := {
  turnResponse : string;
  nextState : option string;
  disqualified : bool
}.

Definition apology : string :=
  "I'm having trouble understanding. Could you please rephrase that?".

Definition notConfigured : string :=
  "I'm not fully configured to respond intelligently yet. Please check your OpenAI API key configuration.".

Definition emptyContentFallback : string :=
  "I apologize, but I couldn't process that response.".

Definition defaultDisqualification : string := "Sorry, we cannot proceed further.".

(** [targetState.name] for [targetState = stateDefinitions[id]]: the name
    of a state, or the name of the member of [Object.prototype] that the read
    finds when no state is keyed by [id]. *)
Definition targetName (defs : list (string * StateDefinition)) (id : string)
    : string :=
  match Dict.get id defs with
  | Dict.Own target => name target
  | Dict.Inherited mb => ObjectPrototype.memberName mb
  | Dict.Absent => ""
  end.

(** The second half of [determineStateFromLLMResponse]: the first transition
    whose target state has a name mentioned in the reply. *)
Fixpoint scanTargetNames (defs : list (string * StateDefinition))
    (llmResponse : string) (ts : list Transition) : option string :=
  match ts with
  | [] => None
  | t :: rest =>
      let targetStateName := targetName defs (targetState t) in
      if JS.truthy targetStateName &&
         JS.includes (JS.toLowerCase llmResponse) (JS.toLowerCase targetStateName)
      then Some (targetState t)
      else scanTargetNames defs llmResponse rest
  end.

Definition scanReply (svc : KaniService) (llmResponse : string) : option string :=
  match stateDefinition (buildMinimalContext (memory svc)) with
  | Some sd =>
      match transitions sd with
      | Some ts =>
          scanTargetNames (businessStateDefinitions (business svc)) llmResponse ts
      | None => None
      end
  | None => None
  end.

(** [determineStateFromLLMResponse(llmResponse, userInput)] *)
Definition determineStateFromLLMResponse `{RegExpEngine} (svc : KaniService)
    (llmResponse userInput : string) : option string * KaniService :=
  let (nextStateFromRules, m1) := getNextState (memory svc) userInput in
  let svc1 := setMemory svc m1 in
  match nextStateFromRules with
  | Some s => if JS.truthy s then (Some s, svc1) else (scanReply svc1 llmResponse, svc1)
  | None => (scanReply svc1 llmResponse, svc1)
  end.

(** The text handed back for a model reply: the content, or the stock
    sentence when it is empty, after the duplication repair. *)
Definition polishReply (text : string) : string :=
  fixDuplication (JS.orElse text emptyContentFallback).

(** Token estimates from lengths and their recording. *)
Definition recordUsage (svc : KaniService) (prompt input resp : string) : KaniService :=
  let inputTokenEstimate := ceilDiv4 (String.length prompt + String.length input) in
  let outputTokenEstimate := ceilDiv4 (String.length resp) in
  setMemory svc
    (updateTokenUsage (memory svc)
       (numberOfNat inputTokenEstimate) (numberOfNat outputTokenEstimate)).

(** The service as the model call finds it: the flag is set and the prompt
    is stored for display. *)
Definition beforeCall (svc : KaniService) : KaniService :=
  let svc1 := setMemory svc (setLLMUsed (memory svc) true) in
  let prompt := generateSystemPrompt svc1 (buildMinimalContext (memory svc1)) in
  setMemory svc1 (setCurrentPrompt (memory svc1) prompt).

(** The [try { ... } catch] block of [processUserInput]. *)
Definition llmFallback `{RegExpEngine} (svc : KaniService) (llm : ChatModel)
    (input : string) : TurnResult * KaniService :=
  let svc1 := setMemory svc (setLLMUsed (memory svc) true) in
  if negb (openai svc1) then
    ({| turnResponse := notConfigured; nextState := None; disqualified := false |},
     svc1)
  else
    let svc2 := beforeCall svc in
    let prompt := currentPrompt (memory svc2) in
    match llm (modelName svc2) prompt input with
    | ApiThrows | InvalidResponse =>
        ({| turnResponse := apology; nextState := None; disqualified := false |},
         svc2)
    | Content text =>
        let resp := polishReply text in
        let svc3 := recordUsage svc2 prompt input resp in
        let (next, svc4) := determineStateFromLLMResponse svc3 resp input in
        ({| turnResponse := resp; nextState := next; disqualified := false |}, svc4)
    end.

(** The deterministic part of [processUserInput], up to the point where the
    model is needed: [inl] is a turn answered from memory, [inr] the service
    as it enters the fallback.  When the matched transition names no state but
    a member of [Object.prototype], the definition found is truthy and has no
    question: the turn is answered with an undefined response, for which [""]
    stands as it does for a state without a question. *)
Definition ruleStage `{RegExpEngine} (svc : KaniService) (now input : string)
    : (TurnResult * KaniService) + KaniService :=
  let m := memory svc in
  let knowledgeResponse :=
    match findKnowledgeBaseResponse m input with
    | Some k => k
    | None => ""
    end in
  if JS.truthy knowledgeResponse then
    inl ({| turnResponse := knowledgeResponse;
            nextState := Some (currentState m);
            disqualified := false |},
         setMemory svc (setLLMUsed m false))
  else
    match isDisqualified m input with
    | Some msg =>
        inl ({| turnResponse := JS.orElse msg defaultDisqualification;
                nextState := None;
                disqualified := true |},
             svc)
    | None =>
        let m1 := storeResponse m (currentState m) input true now in
        let (next, m2) := getNextState m1 input in
        let target := match next with Some s => s | None => "" end in
        match (if JS.truthy target then getCurrentStateDefinition m2
               else Dict.Absent) with
        | Dict.Own nextStateDefinition =>
            inl ({| turnResponse := question nextStateDefinition;
                    nextState := next;
                    disqualified := false |},
                 setMemory svc (setLLMUsed m2 false))
        | Dict.Inherited _ =>
            inl ({| turnResponse := "";
                    nextState := next;
                    disqualified := false |},
                 setMemory svc (setLLMUsed m2 false))
        | Dict.Absent => inr (setMemory svc m2)
        end
    end.

(** [processUserInput(input)]: the result of the turn and the service after
    it.  [llm] is the behaviour of the chat-completion call, [now] the clock
    reading used for the stored response. *)
Definition processUserInput `{RegExpEngine} (svc : KaniService) (llm : ChatModel)
    (now input : string) : TurnResult * KaniService :=
  match ruleStage svc now input with
  | inl answered => answered
  | inr svc1 => llmFallback svc1 llm input
  end.

(* ================================================================== *)
(** ** Vocabulary of the statements *)

(** A text as its maximal runs of equal code units. *)
Fixpoint runs (s : string) : list (ascii * nat) :=
  match s with
  | EmptyString => []
  | String c t =>
      match runs t with
      | (d, n) :: rest =>
          if Ascii.eqb c d then (d, S n) :: rest else (c, 1) :: (d, n) :: rest
      | [] => [(c, 1)]
      end
  end.

Fixpoint repeatChar (c : ascii) (n : nat) : string :=
  match n with
  | O => EmptyString
  | S k => String c (repeatChar c k)
  end.

Fixpoint expand (l : list (ascii * nat)) : string :=
  match l with
  | [] => EmptyString
  | (c, n) :: rest => repeatChar c n ++ expand rest
  end.

(** Every run is non-empty and neighbouring runs differ in their code unit. *)
Fixpoint maximalRuns (l : list (ascii * nat)) : Prop :=
  match l with
  | [] => True
  | (c, n) :: rest =>
      0 < n /\
      match rest with
      | [] => True
      | (d, _) :: _ => c <> d
      end /\
      maximalRuns rest
  end.

(** What the repair does to one run: three or more of a code unit that [.]
    accepts become two; anything else stays. *)
Definition capRun (r : ascii * nat) : ascii * nat :=
  let (c, n) := r in
  (c, if negb (JS.isLineTerminator c) && (3 <=? n) then 2 else n).

(** The repair as the specification words it: every run of three or more
    becomes two, whatever the code unit. *)
Definition capAnyRun (r : ascii * nat) : ascii * nat :=
  let (c, n) := r in (c, if 3 <=? n then 2 else n).

Definition collapseEveryRun (s : string) : string :=
  expand (map capAnyRun (runs s)).

(** Does the text begin with the code unit [c]? *)
Definition headIs (c : ascii) (s : string) : bool :=
  match s with
  | EmptyString => false
  | String d _ => Ascii.eqb d c
  end.

(** Do all code units of the text satisfy [p]? *)
Fixpoint allChars (p : ascii -> bool) (s : string) : bool :=
  match s with
  | EmptyString => true
  | String c t => p c && allChars p t
  end.

Definition noOpeningBrace (s : string) : bool :=
  allChars (fun c => negb (Ascii.eqb c "{")) s.

Definition isWord (s : string) : bool :=
  JS.truthy s && allChars JS.isWordChar s.

(** The utterances that rule 1 of [shouldUseLLM] takes for questions. *)
Definition isLongQuestion (resp : string) : bool :=
  JS.endsWith resp "?" && (10 <? String.length resp).

(* ================================================================== *)
(** ** Sample configurations *)

Module Samples.

Definition mkState (nm q expected : string) (ts : option (list Transition))
    : StateDefinition :=
  {| name := nm; question := q; expectedInputs := expected;
     expectedKeywords := ""; transitions := ts |}.

Definition mkBusiness (initial : string) (defs : list (string * StateDefinition))
    (rules : list DisqualificationRule) (kb : list KnowledgeBaseItem) : Business :=
  {| businessName := "Acme Shoes"; businessType := "E-commerce";
     useCase := "Order confirmation";
     agentRole := "Customer service representative";
     tonePreference := Some "friendly"; initialState := initial;
     businessStateDefinitions := defs;
     businessDisqualificationRules := rules;
     businessKnowledgeBase := kb |}.

Definition located : KnowledgeBaseItem :=
  {| pattern := "where are you located"; response := "We are in {userCompany}." |}.

(** greeting -(contains:yes)-> done, with one disqualification rule. *)
Definition shopStates : list (string * StateDefinition) :=
  [ ("greeting",
     mkState "Greeting" "Is this a good time to talk?" "Yes/No response"
       (Some [ {| condition := "contains:yes"; targetState := "done" |} ]));
    ("done", mkState "Goodbye" "Thank you, goodbye." "" None) ].

Definition shop : Business :=
  mkBusiness "greeting" shopStates
    [ {| ruleCondition := "contains:cancel"; message := "sorry" |} ] [].

(** The same flow, the rule carrying an empty message. *)
Definition silentShop : Business :=
  mkBusiness "greeting" shopStates
    [ {| ruleCondition := "contains:cancel"; message := "" |} ] [].

(** A front desk that first asks for the caller's company. *)
Definition frontDesk : Business :=
  mkBusiness "company"
    [ ("company", mkState "Company" "Which company are you with?" "Company" None) ]
    [] [ located ].

(** A help desk whose answer carries a placeholder that names no fact. *)
Definition helpDesk : Business :=
  mkBusiness "company"
    [ ("company", mkState "Company" "Which company are you with?" "Company" None) ]
    []
    [ {| pattern := "who made this"; response := "Ask the {constructor}." |} ].

(** A survey: a name, then an open-ended reason. *)
Definition survey : Business :=
  mkBusiness "ask_name"
    [ ("ask_name",
       mkState "Name" "What is your name?" "Name"
         (Some [ {| condition := "any"; targetState := "why" |} ]));
      ("why",
       mkState "Reason" "Why are you returning the shoes?" "reason or objection"
         (Some [ {| condition := "contains:because"; targetState := "done" |} ]));
      ("done", mkState "Goodbye" "Thank you, goodbye." "" None) ]
    [] [].

(** A flow with a state keyed by the empty string. *)
Definition unnamedLoop : Business :=
  mkBusiness "greeting"
    [ ("greeting",
       mkState "Greeting" "Hello?" ""
         (Some [ {| condition := "any"; targetState := "" |} ]));
      ("",
       mkState "Limbo" "Still there?" ""
         (Some [ {| condition := "any"; targetState := "greeting" |} ])) ]
    [] [].

(** The shop flow with a transition whose target has no definition. *)
Definition danglingShop : Business :=
  mkBusiness "greeting"
    [ ("greeting",
       mkState "Greeting" "Is this a good time to talk?" "Yes/No response"
         (Some [ {| condition := "contains:yes"; targetState := "confirm" |} ])) ]
    [] [].

Definition failingModel : ChatModel := fun _ _ _ => ApiThrows.
Definition malformedModel : ChatModel := fun _ _ _ => InvalidResponse.
Definition chattyModel : ChatModel := fun _ _ _ => Content "I seee, thanks.".

Definition threeNewlines : string := nl ++ nl ++ nl.

Definition clock : string := "2024-01-01T00:00:00.000Z".

Definition shopService : KaniService := newKaniService "key" shop "gpt-3.5-turbo" 750.
Definition silentService : KaniService :=
  newKaniService "key" silentShop "gpt-3.5-turbo" 750.
Definition danglingService : KaniService :=
  newKaniService "key" danglingShop "gpt-3.5-turbo" 750.
Definition loopService : KaniService :=
  newKaniService "key" unnamedLoop "gpt-3.5-turbo" 750.

(** The shop as it enters the fallback after the utterance "maybe later". *)
Definition shopEscalated : KaniService :=
  setMemory shopService
    (storeResponse (memory shopService) "greeting" "maybe later" true clock).

(** The survey after the caller has given the name Bob: the current state is
    the open-ended one and the name is a stored fact. *)
Definition surveyAfterName : KaniService :=
  snd (@processUserInput rejectingEngine
         (newKaniService "key" survey "gpt-3.5-turbo" 750)
         failingModel clock "Bob").

End Samples.

(* ================================================================== *)
(** ** Further vocabulary *)

(** A condition that [matchesSingleCondition] decides by its last two
    rules: no recognised prefix and none of the characters that make it a
    pattern. *)
Definition plainCondition (cond : string) : bool :=
  negb (JS.startsWith cond "contains:") &&
  negb (JS.startsWith cond "exact:") &&
  negb (JS.startsWith cond "starts:") &&
  negb (JS.startsWith cond "ends:") &&
  negb (JS.includes cond "*" || JS.includes cond "+" ||
        JS.includes cond "?" || JS.includes cond "|").

(** A hint whose first code unit has its capital inside the Latin-1 range,
    so that the key [storeResponse] derives from it can be written down. *)
Definition capitalisable (hint : string) : bool :=
  match hint with
  | EmptyString => true
  | String c _ => JS.capitalInRange c
  end.

(** Every transition of every defined state points at a defined state. *)
Definition targetsDefined (defs : list (string * StateDefinition)) : Prop :=
  forall id sd ts t,
    Dict.lookup id defs = Some sd ->
    transitions sd = Some ts ->
    In t ts ->
    Dict.lookup (targetState t) defs <> None.

(** The parts of a memory that a turn never rewrites. *)
Definition sameConfiguration (m m' : AgentMemory) : Prop :=
  stateDefinitions m' = stateDefinitions m /\
  disqualificationRules m' = disqualificationRules m /\
  knowledgeBase m' = knowledgeBase m.

Definition sameService (svc svc' : KaniService) : Prop :=
  openai svc' = openai svc /\ business svc' = business svc /\
  apiKey svc' = apiKey svc /\ modelName svc' = modelName svc /\
  responseDelay svc' = responseDelay svc.

(** [m'] has the stored facts and responses of [base], and its transition
    history extended by at most [n] entries. *)
Definition logsFrom (base m' : AgentMemory) (n : nat) : Prop :=
  contextualData m' = contextualData base /\
  userResponses m' = userResponses base /\
  exists suffix,
    transitionHistory m' = (transitionHistory base ++ suffix)%list /\
    List.length suffix <= n.

(** The current state of a memory has a definition. *)
Definition stateDefined (m : AgentMemory) : Prop :=
  Dict.lookup (currentState m) (stateDefinitions m) <> None.

(** Does the utterance get past the knowledge base and the
    disqualification rules, so that the turn records it? *)
Definition passesFilters `{RegExpEngine} (svc : KaniService) (input : string) : bool :=
  negb (JS.truthy (match findKnowledgeBaseResponse (memory svc) input with
                   | Some k => k
                   | None => ""
                   end)) &&
  match isDisqualified (memory svc) input with
  | Some _ => false
  | None => true
  end.

(* ================================================================== *)
(** ** utils/stateFlowUtils.ts *)

Module FlowUtils.

(** What a call does: it returns, or it throws a [TypeError] (reading a
    property of [undefined]); [OutOfFuel] is the embedding's own answer when
    the recursion bound is used up. *)
Inductive Outcome (A : Type) : Type :=
| Returned (a : A)
| TypeError
| OutOfFuel.

Arguments Returned {A} a.
Arguments TypeError {A}.
Arguments OutOfFuel {A}.

Definition bind {A B : Type} (o : Outcome A) (k : A -> Outcome B) : Outcome B :=
  match o with
  | Returned a => k a
  | TypeError => TypeError
  | OutOfFuel => OutOfFuel
  end.

(** [arr.forEach(x => ...)] over a callback that updates a state and may
    throw. *)
Fixpoint forEach {A S : Type} (f : S -> A -> Outcome S) (l : list A) (s : S)
    : Outcome S :=
  match l with
  | [] => Returned s
  | x :: rest => bind (f s x) (forEach f rest)
  end.

(** [state.transitions], read as an array. *)
Definition transitionsOf (state : StateDefinition) : Outcome (list Transition) :=
  match transitions state with
  | Some ts => Returned ts
  | None => TypeError
  end.

(** [set.has(k)] on a [Set<string>] kept as the list of its members in
    insertion order. *)
Definition has (set : list string) (k : string) : bool :=
  existsb (String.eqb k) set.

(** The closure [traverse] of [findReachableStates]; [fuel] bounds the
    depth of the recursion.  The test [!stateDefinitions[stateId]] reads
    through the prototype chain: under a name that is no state but a member of
    [Object.prototype] it finds a truthy value without a transition list, and
    the call of [forEach] on it throws. *)
Fixpoint traverse (fuel : nat) (defs : list (string * StateDefinition))
    (reachable : list string) (stateId : string) : Outcome (list string) :=
  match fuel with
  | O => OutOfFuel
  | S fuel' =>
      if has reachable stateId then Returned reachable
      else
        match Dict.get stateId defs with
        | Dict.Absent => Returned reachable
        | Dict.Own state =>
            bind (transitionsOf state) (fun ts =>
              forEach (fun set t => traverse fuel' defs set (targetState t))
                      ts (reachable ++ [stateId])%list)
        | Dict.Inherited _ => TypeError
        end
  end.

(** [findReachableStates(stateDefinitions, initialState)].  The depth of the
    recursion cannot exceed the number of states by more than one. *)
Definition findReachableStates (defs : list (string * StateDefinition))
    (initial : string) : Outcome (list string) :=
  traverse (S (List.length defs)) defs [] initial.

Inductive Severity := SeverityError | SeverityWarning.

Record Issue := {
  severity : Severity;
  issueMessage : string
}.

Definition isError (i : Issue) : bool :=
  match severity i with SeverityError => true | SeverityWarning => false end.

(** [validateStateFlow(business)].  The state record of the engine does not
    carry the optional [isTerminal] flag; [isTerminal id] stands for the flag
    of the state keyed by [id].  The two tests [!stateDefinitions[...]] read
    through the prototype chain, so they raise no issue for a name that is no
    state but a member of [Object.prototype]. *)
Definition validateStateFlow (isTerminal : string -> bool) (b : Business)
    : Outcome (list Issue) :=
  let defs := businessStateDefinitions b in
  let initial := initialState b in
  let issues0 :=
    if negb (JS.truthy initial) then
      [ {| severity := SeverityError; issueMessage := "No initial state defined" |} ]
    else
      match Dict.get initial defs with
      | Dict.Absent =>
          [ {| severity := SeverityError;
               issueMessage := "Initial state " ++ dq ++ initial ++ dq ++
                               " is not defined in state definitions" |} ]
      | _ => []
      end in
  bind
    (forEach (fun issues (e : string * StateDefinition) =>
                let (id, state) := e in
                bind (transitionsOf state) (fun ts =>
                  Returned
                    (if (List.length ts =? 0) && negb (isTerminal id) then
                       (issues ++
                        [ {| severity := SeverityWarning;
                             issueMessage :=
                               "State " ++ dq ++ name state ++ dq ++ " (" ++ id ++
                               ") has no transitions and is not marked as terminal" |} ])%list
                     else issues)))
             (Dict.entries defs) issues0)
    (fun issues1 =>
  bind
    (forEach (fun issues (e : string * StateDefinition) =>
                let (id, state) := e in
                bind (transitionsOf state) (fun ts =>
                  forEach (fun issues' t =>
                             Returned
                               (match Dict.get (targetState t) defs with
                                | Dict.Absent =>
                                    (issues' ++
                                     [ {| severity := SeverityError;
                                          issueMessage :=
                                            "State " ++ dq ++ name state ++ dq ++ " (" ++
                                            id ++ ") has a transition to non-existent state "
                                            ++ dq ++ targetState t ++ dq |} ])%list
                                | _ => issues'
                                end))
                          ts issues))
             (Dict.entries defs) issues1)
    (fun issues2 =>
  bind (findReachableStates defs initial) (fun reachableStates =>
  forEach (fun issues (e : string * StateDefinition) =>
             let (id, state) := e in
             Returned
               (if has reachableStates id then issues
                else
                  (issues ++
                   [ {| severity := SeverityWarning;
                        issueMessage :=
                          "State " ++ dq ++ name state ++ dq ++ " (" ++ id ++
                          ") is not reachable from the initial state" |} ])%list))
          (Dict.entries defs) issues2))).

End FlowUtils.

(** A path through defined states: [Reachable defs a c] when [c] is [a],
    defined, or is reached from [a] by following transitions between defined
    states. *)
Inductive Reachable (defs : list (string * StateDefinition)) : string -> string -> Prop :=
| reach_here (a : string) :
    Dict.lookup a defs <> None -> Reachable defs a a
| reach_next (a b c : string) (sd : StateDefinition) (ts : list Transition)
    (t : Transition) :
    Dict.lookup a defs = Some sd -> transitions sd = Some ts -> In t ts ->
    targetState t = b -> Reachable defs b c -> Reachable defs a c.

(** A conversation: the service after a list of turns, each given by the
    clock reading and the utterance. *)
Fixpoint converse `{RegExpEngine} (svc : KaniService) (llm : ChatModel)
    (turns : list (string * string)) : KaniService :=
  match turns with
  | [] => svc
  | (now, input) :: rest =>
      converse (snd (processUserInput svc llm now input)) llm rest
  end.

(** The state ids not yet in the set: the measure that bounds the depth of
    [traverse]. *)
Definition unvisited (defs : list (string * StateDefinition)) (set : list string)
    : list string :=
  filter (fun k => negb (FlowUtils.has set k)) (nodup string_dec (map fst defs)).

(** [x] is a state with a transition list, and every target of its
    transitions is in the set or is found nowhere. *)
Definition closedAt (defs : list (string * StateDefinition)) (set : list string)
    (x : string) : Prop :=
  exists sd ts,
    Dict.lookup x defs = Some sd /\ transitions sd = Some ts /\
    forall t, In t ts ->
      In (targetState t) set \/ Dict.get (targetState t) defs = Dict.Absent.

(** A state at which the traversal throws: it has no transition list, or
    one of its transitions names a member of [Object.prototype] that is not a
    state. *)
Definition throwsAt (defs : list (string * StateDefinition)) (x : string) : Prop :=
  exists sd,
    Dict.lookup x defs = Some sd /\
    (transitions sd = None \/
     exists ts t mb,
       transitions sd = Some ts /\ In t ts /\
       Dict.get (targetState t) defs = Dict.Inherited mb).

(** The traversal from [initial] throws somewhere. *)
Definition throwsFrom (defs : list (string * StateDefinition)) (initial : string)
    : Prop :=
  (exists mb, Dict.get initial defs = Dict.Inherited mb) \/
  exists x, Reachable defs initial x /\ throwsAt defs x.

(** Every transition of every state that can be reached from [initial]
    points at a defined state. *)
Definition targetsDefinedFrom (defs : list (string * StateDefinition))
    (initial : string) : Prop :=
  forall id sd ts t,
    Reachable defs initial id ->
    Dict.lookup id defs = Some sd ->
    transitions sd = Some ts ->
    In t ts ->
    Dict.lookup (targetState t) defs <> None.

(** An issue list without an issue of severity error, and an issue list
    that continues another. *)
Definition noErrors (issues : list FlowUtils.Issue) : Prop :=
  forallb (fun i => negb (FlowUtils.isError i)) issues = true.

Definition extends (s s' : list FlowUtils.Issue) : Prop :=
  exists e, s' = (s ++ e)%list.

(* ================================================================== *)
(** ** services/PromptGeneratorService.ts: keyword alternatives *)

Module PromptGenerator.

(** [arr.includes(x)] on an array of strings. *)
Definition arrayIncludes (arr : list string) (x : string) : bool :=
  existsb (String.eqb x) arr.

(** [generateSingleKeywordAlternatives(keyword)] *)
Definition generateSingleKeywordAlternatives (keyword : string) : list string :=
  let normalizedKeyword := JS.trim (JS.toLowerCase keyword) in
  if arrayIncludes ["yes"; "yeah"; "yep"; "yup"; "sure"] normalizedKeyword then
    ["of course"; "definitely"; "absolutely"; "certainly"]
  else if arrayIncludes ["no"; "nope"; "nah"] normalizedKeyword then
    ["not really"; "not interested"; "negative"]
  else if arrayIncludes ["later"; "maybe"; "perhaps"] normalizedKeyword then
    ["not now"; "another time"; "not sure yet"]
  else [].

(** The two nested loops of [generateKeywordAlternatives]. *)
Definition addAlternative (keywords : list string) (alternativePhrases : list string)
    (alt : string) : list string :=
  if negb (arrayIncludes keywords alt) && negb (arrayIncludes alternativePhrases alt)
  then (alternativePhrases ++ [alt])%list
  else alternativePhrases.

Definition addAlternativesOf (keywords : list string)
    (alternativePhrases : list string) (keyword : string) : list string :=
  fold_left (addAlternative keywords) (generateSingleKeywordAlternatives keyword)
            alternativePhrases.

(** [generateKeywordAlternatives(keywords)] *)
Definition generateKeywordAlternatives (keywords : list string) : list string :=
  firstn 5 (fold_left (addAlternativesOf keywords) keywords []).

End PromptGenerator.

(** What the loops of [generateKeywordAlternatives] keep true of the
    phrases collected so far. *)
Definition collected (keywords : list string) (acc : list string) : Prop :=
  NoDup acc /\
  forall a, In a acc ->
    ~ In a keywords /\
    exists k, In k keywords /\
      In a (PromptGenerator.generateSingleKeywordAlternatives k).

(* ================================================================== *)
(** ** Further sample configurations *)

Module Scenarios.

(** The shop flow with a knowledge item and a rule that both match a
    question about the location. *)
Definition faqShop : Business :=
  Samples.mkBusiness "greeting" Samples.shopStates
    [ {| ruleCondition := "contains:where"; message := "Goodbye." |} ]
    [ {| pattern := "where located"; response := "We are in Springfield." |} ].

Definition faqService : KaniService :=
  newKaniService "key" faqShop "gpt-3.5-turbo" 750.

(** The shop flow with every transition list spelled out. *)
Definition checkedStates : list (string * StateDefinition) :=
  [ ("greeting",
     Samples.mkState "Greeting" "Is this a good time to talk?" "Yes/No response"
       (Some [ {| condition := "contains:yes"; targetState := "done" |} ]));
    ("done", Samples.mkState "Goodbye" "Thank you, goodbye." "" (Some [])) ].

Definition checkedShop : Business :=
  Samples.mkBusiness "greeting" checkedStates [] [].

Definition doneIsTerminal (id : string) : bool := (id =? "done")%string.

(** The checked flow with one more state that nothing leads to, whose
    transition names no state but a member of [Object.prototype]. *)
Definition orphanStates : list (string * StateDefinition) :=
  (checkedStates ++
   [ ("orphan",
      Samples.mkState "Orphan" "Anyone there?" ""
        (Some [ {| condition := "any"; targetState := "constructor" |} ])) ])%list.

Definition orphanShop : Business :=
  Samples.mkBusiness "greeting" orphanStates [] [].

(** A service built without an API key. *)
Definition keylessService : KaniService :=
  newKaniService "" Samples.shop "gpt-3.5-turbo" 750.

(** The front desk after the caller has named a company. *)
Definition deskMemory : AgentMemory :=
  storeResponse (newAgentMemory Samples.frontDesk) "company" "Acme" true Samples.clock.

Definition smallTalk : KnowledgeBaseItem :=
  {| pattern := "how are you"; response := "Fine, thank you." |}.

(** A desk whose hint begins with a sharp s (U+00DF). *)
Definition sharpS : string := String (ascii_of_nat 223) EmptyString.

Definition codeDesk : AgentMemory :=
  newAgentMemory
    (Samples.mkBusiness "code"
       [ ("code", Samples.mkState "Code" "What is your code?" (sharpS ++ "eta Code") None) ]
       [] []).

(** A memory that holds an answer under each of the given state ids, stored
    in that order. *)
Definition answered (ids : list string) : AgentMemory :=
  fold_left (fun m id => storeResponse m id "ok" true Samples.clock) ids
            (newAgentMemory Samples.shop).

Definition numberedLog : AgentMemory :=
  answered ["2"; "3"; "4"; "5"; "6"; "7"; "8"].

End Scenarios.


(* ================================================================== *)
(** * Properties *)

(** ** Facts about the string primitives *)

Module JSFacts.
Import JS.

Ltac each_code_unit c := destruct c as [[] [] [] [] [] [] [] []]; reflexivity.

Lemma lowerChar_idem (c : ascii) : lowerChar (lowerChar c) = lowerChar c.
Proof. each_code_unit c. Qed.

Lemma isWhiteSpace_lowerChar (c : ascii) : isWhiteSpace (lowerChar c) = isWhiteSpace c.
Proof. each_code_unit c. Qed.

Lemma comma_eqb_lowerChar (c : ascii) :
  Ascii.eqb (lowerChar c) "," = Ascii.eqb c ",".
Proof. each_code_unit c. Qed.

Lemma prefix_empty (s : string) : String.prefix EmptyString s = true.
Proof. destruct s; reflexivity. Qed.

Lemma prefix_char (p c : ascii) (t : string) :
  String.prefix (String p EmptyString) (String c t) = Ascii.eqb c p.
Proof.
  simpl. destruct (ascii_dec p c) as [->|n].
  - now rewrite prefix_empty, Ascii.eqb_refl.
  - symmetry. apply Ascii.eqb_neq. congruence.
Qed.

Lemma toLowerCase_idem (s : string) : toLowerCase (toLowerCase s) = toLowerCase s.
Proof.
  induction s as [|c t IH]; simpl; [reflexivity|].
  now rewrite lowerChar_idem, IH.
Qed.

Lemma trimStart_lower (s : string) :
  trimStart (toLowerCase s) = toLowerCase (trimStart s).
Proof.
  induction s as [|c t IH]; simpl; [reflexivity|].
  rewrite isWhiteSpace_lowerChar.
  destruct (isWhiteSpace c); [exact IH | reflexivity].
Qed.

Lemma trimEnd_lower (s : string) :
  trimEnd (toLowerCase s) = toLowerCase (trimEnd s).
Proof.
  induction s as [|c t IH]; simpl; [reflexivity|].
  rewrite IH, isWhiteSpace_lowerChar.
  destruct (trimEnd t) as [|d t']; simpl.
  - destruct (isWhiteSpace c); reflexivity.
  - reflexivity.
Qed.

Lemma trim_lower (s : string) : trim (toLowerCase s) = toLowerCase (trim s).
Proof. unfold trim. now rewrite trimStart_lower, trimEnd_lower. Qed.

Lemma consHead_lower (c : ascii) (l : list string) :
  map toLowerCase (consHead c l) = consHead (lowerChar c) (map toLowerCase l).
Proof. destruct l; reflexivity. Qed.

Lemma split_comma_lower (s : string) :
  split "," (toLowerCase s) = map toLowerCase (split "," s).
Proof.
  induction s as [|c t IH]; simpl; [reflexivity|].
  rewrite comma_eqb_lowerChar, IH.
  destruct (Ascii.eqb c ","); simpl; [reflexivity|].
  now rewrite consHead_lower.
Qed.

Lemma includes_cons (c : ascii) (t p : string) :
  includes (String c t) p = String.prefix p (String c t) || includes t p.
Proof. reflexivity. Qed.

Lemma includes_comma_lower (s : string) :
  includes (toLowerCase s) "," = includes s ",".
Proof.
  induction s as [|c t IH]; [reflexivity|].
  cbn [toLowerCase]. rewrite !includes_cons, !prefix_char, IH.
  now rewrite comma_eqb_lowerChar.
Qed.

Lemma truthy_false_iff (s : string) : truthy s = false <-> s = EmptyString.
Proof.
  unfold truthy. destruct (String.eqb_spec s ""); simpl; split; congruence.
Qed.

End JSFacts.

(** ** The condition matcher *)

Section Matcher.
Context `{E : RegExpEngine}.
Import JS JSFacts.

(** The matcher sees an utterance and a condition only through their
    lower-cased forms. *)
Lemma matchesCondition_lower (u c : string) :
  matchesCondition (toLowerCase u) (toLowerCase c) = matchesCondition u c.
Proof.
  unfold matchesCondition.
  rewrite !toLowerCase_idem, includes_comma_lower, split_comma_lower, map_map.
  destruct (toLowerCase c =? "any")%string; [reflexivity|].
  destruct (includes c ","); [|reflexivity].
  f_equal. apply map_ext. intros opt.
  now rewrite trim_lower, toLowerCase_idem.
Qed.

(** In the comma form the sub-conditions are alternatives. *)
Lemma matchesCondition_alternatives (u c : string) :
  includes c "," = true ->
  (matchesCondition u c = true <->
   exists opt, In opt (split "," c) /\
     matchesSingleCondition (trim (toLowerCase u)) (toLowerCase (trim opt)) = true).
Proof.
  intros Hcomma. unfold matchesCondition.
  destruct (String.eqb_spec (toLowerCase c) "any") as [e|_].
  - rewrite <- includes_comma_lower, e in Hcomma. discriminate Hcomma.
  - rewrite Hcomma, existsb_exists. split.
    + intros [x [Hin Hx]]. apply in_map_iff in Hin as [opt [<- Hopt]]. eauto.
    + intros [opt [Hin Hx]]. exists (toLowerCase (trim opt)). split; [|exact Hx].
      apply in_map_iff. eauto.
Qed.

Lemma exact_form (u s : string) :
  includes s "," = false ->
  matchesCondition u ("exact:" ++ s) =
  (trim (toLowerCase u) =? trim (toLowerCase s))%string.
Proof.
  intros Hs. unfold matchesCondition.
  change (toLowerCase ("exact:" ++ s)) with ("exact:" ++ toLowerCase s).
  change (("exact:" ++ toLowerCase s =? "any")%string) with false.
  cbn iota.
  assert (Hc : includes ("exact:" ++ s) "," = false).
  { cbn [append]. rewrite !includes_cons, !prefix_char. exact Hs. }
  rewrite Hc. unfold matchesSingleCondition, startsWith.
  change (String.prefix "contains:" ("exact:" ++ toLowerCase s)) with false.
  cbn iota.
  change (String.prefix "exact:" ("exact:" ++ toLowerCase s))
    with (String.prefix "" (toLowerCase s)).
  rewrite prefix_empty. reflexivity.
Qed.

(** C2 (amended): matches("ABC", "exact:abc") is true.  The utterance is
    lower-cased and trimmed, and the condition lower-cased, before any form is
    examined; so under [exact:] the comparison is an equality of lower-cased
    texts, and under every form -- [exact:], [contains:] and the regular
    expressions alike -- two utterances and two conditions that differ only in
    letter case give the same answer. *)
Theorem C2_exact_form_ignores_case :
  matchesCondition "ABC" "exact:abc" = true /\
  (forall u s, includes s "," = false ->
     matchesCondition u ("exact:" ++ s) =
     (trim (toLowerCase u) =? trim (toLowerCase s))%string) /\
  (forall u u' c c',
     toLowerCase u = toLowerCase u' -> toLowerCase c = toLowerCase c' ->
     matchesCondition u c = matchesCondition u' c').
Proof.
  split; [reflexivity|]. split; [exact exact_form|].
  intros u u' c c' Hu Hc.
  rewrite <- (matchesCondition_lower u c), <- (matchesCondition_lower u' c').
  now rewrite Hu, Hc.
Qed.

(** C3 (amended): a condition containing a comma is split on commas and the
    trimmed, lower-cased sub-conditions are alternatives, each tried against
    the lower-cased, trimmed utterance.  matches("yes please", "yes,no") is
    true; matches("nope", "yes,no") is true as well, because the alternative
    "no" is a substring of "nope"; matches("maybe", "yes,no") is false. *)
Theorem C3_comma_alternatives :
  (forall u c,
     includes c "," = true ->
     (matchesCondition u c = true <->
      exists opt, In opt (split "," c) /\
        matchesSingleCondition (trim (toLowerCase u)) (toLowerCase (trim opt)) = true)) /\
  matchesCondition "yes please" "yes,no" = true /\
  matchesCondition "nope" "yes,no" = true /\
  matchesSingleCondition "nope" "no" = true /\
  matchesCondition "maybe" "yes,no" = false.
Proof.
  split; [exact matchesCondition_alternatives|].
  repeat split; reflexivity.
Qed.

End Matcher.

(** C2, the claim as written fails: the utterance ABC satisfies the condition
    [exact:abc]. *)
Lemma C2_exact_abc_matches :
  ~ (forall E : RegExpEngine, @matchesCondition E "ABC" "exact:abc" = false).
Proof. intros H. specialize (H rejectingEngine). discriminate H. Qed.

Lemma C2_exact_form_ignores_case_witness :
  JS.toLowerCase "ABC" = JS.toLowerCase "abc" /\
  JS.toLowerCase "Exact:abc" = JS.toLowerCase "exact:ABC" /\
  JS.includes "abc" "," = false /\
  @matchesCondition rejectingEngine "ABC" "Exact:abc" =
  @matchesCondition rejectingEngine "abc" "exact:ABC" /\
  @matchesCondition rejectingEngine "ABC" ("exact:" ++ "abc") = true.
Proof.
  destruct (@C2_exact_form_ignores_case rejectingEngine) as [_ [Hexact Hcase]].
  split; [reflexivity|]. split; [reflexivity|]. split; [reflexivity|]. split.
  - apply Hcase; reflexivity.
  - rewrite Hexact; reflexivity.
Defined.

(** C3, the claim as written fails: the utterance "nope" satisfies the
    condition "yes,no". *)
Lemma C3_nope_matches_yes_no :
  ~ (forall E : RegExpEngine, @matchesCondition E "nope" "yes,no" = false).
Proof. intros H. specialize (H rejectingEngine). discriminate H. Qed.

Lemma C3_comma_alternatives_witness :
  JS.includes "Yes, No" "," = true /\
  (@matchesCondition rejectingEngine "NO thanks" "Yes, No" = true <->
   exists opt, In opt (JS.split "," "Yes, No") /\
     @matchesSingleCondition rejectingEngine
       (JS.trim (JS.toLowerCase "NO thanks")) (JS.toLowerCase (JS.trim opt)) = true).
Proof.
  split; [reflexivity|].
  apply (proj1 (@C3_comma_alternatives rejectingEngine)). reflexivity.
Defined.

(** ** The duplication repair *)

Section Duplication.
Import JS JSFacts.

Lemma expand_runs (s : string) : expand (runs s) = s.
Proof.
  induction s as [|c t IH]; simpl; [reflexivity|].
  destruct (runs t) as [|[d n] rest]; simpl in *.
  - now rewrite <- IH.
  - destruct (Ascii.eqb_spec c d) as [->|Hne]; simpl; now rewrite <- IH.
Qed.

Lemma runs_maximal (s : string) : maximalRuns (runs s).
Proof.
  induction s as [|c t IH]; simpl; [exact I|].
  destruct (runs t) as [|[d n] rest]; simpl in *.
  - repeat split. lia.
  - destruct (Ascii.eqb_spec c d) as [->|Hne]; simpl.
    + destruct IH as [Hn [Hd Hr]]. repeat split; [lia | exact Hd | exact Hr].
    + destruct IH as [Hn [Hd Hr]]. repeat split; try assumption; lia.
Qed.

Lemma consuming_skips (c : ascii) (n : nat) (rest : string) :
  replaceDuplicationFrom (Some c) (repeatChar c n ++ rest) =
  replaceDuplicationFrom (Some c) rest.
Proof.
  induction n as [|k IH]; simpl; [reflexivity|].
  now rewrite Ascii.eqb_refl.
Qed.

Lemma consuming_ends (c : ascii) (rest : string) :
  headIs c rest = false ->
  replaceDuplicationFrom (Some c) rest = replaceDuplicationFrom None rest.
Proof.
  destruct rest as [|d t]; simpl; [reflexivity|].
  intros ->. reflexivity.
Qed.

Lemma startsRun_long (c : ascii) (n : nat) (rest : string) :
  startsRun c (repeatChar c (S (S n)) ++ rest) = negb (isLineTerminator c).
Proof. unfold startsRun. simpl. now rewrite Ascii.eqb_refl, andb_true_r. Qed.

Lemma startsRun_short1 (c : ascii) (rest : string) :
  headIs c rest = false -> startsRun c rest = false.
Proof.
  unfold startsRun. destruct rest as [|d [|d' t]]; simpl; intros H;
    rewrite ?H; now rewrite ?andb_false_r.
Qed.

Lemma startsRun_short2 (c : ascii) (rest : string) :
  headIs c rest = false -> startsRun c (String c rest) = false.
Proof.
  unfold startsRun. destruct rest as [|d t]; simpl; intros H;
    rewrite ?H; now rewrite ?andb_false_r.
Qed.

Lemma startsRun_lineTerminator (c : ascii) (rest : string) :
  isLineTerminator c = true -> startsRun c rest = false.
Proof. unfold startsRun. now intros ->. Qed.

Lemma lineTerminators_kept (c : ascii) (n : nat) (rest : string) :
  isLineTerminator c = true ->
  replaceDuplicationFrom None (repeatChar c n ++ rest) =
  repeatChar c n ++ replaceDuplicationFrom None rest.
Proof.
  intros Hlt. induction n as [|k IH]; simpl; [reflexivity|].
  now rewrite (startsRun_lineTerminator _ _ Hlt), IH.
Qed.

(** One run at the head of the text, followed by a text that starts with
    another code unit. *)
Lemma replace_run (c : ascii) (n : nat) (rest : string) :
  0 < n -> headIs c rest = false ->
  replaceDuplicationFrom None (repeatChar c n ++ rest) =
  repeatChar c (snd (capRun (c, n))) ++ replaceDuplicationFrom None rest.
Proof.
  intros Hn Hrest. unfold capRun, snd.
  destruct (isLineTerminator c) eqn:Hlt; simpl negb; cbn iota.
  - simpl andb. now apply lineTerminators_kept.
  - rewrite andb_true_l.
    destruct n as [|[|[|k]]]; [lia | | |].
    + simpl. now rewrite (startsRun_short1 _ _ Hrest).
    + simpl. rewrite (startsRun_short2 _ _ Hrest), (startsRun_short1 _ _ Hrest).
      reflexivity.
    + change (3 <=? S (S (S k))) with true. cbn iota.
      change (repeatChar c (S (S (S k))) ++ rest)
        with (String c (repeatChar c (S (S k)) ++ rest)).
      cbn [replaceDuplicationFrom].
      rewrite startsRun_long, Hlt. simpl negb. cbn iota.
      rewrite consuming_skips, (consuming_ends _ _ Hrest). reflexivity.
Qed.

Lemma headIs_expand (c d : ascii) (n : nat) (rest : list (ascii * nat)) :
  0 < n -> c <> d -> headIs c (expand ((d, n) :: rest)) = false.
Proof.
  intros Hn Hne. destruct n as [|k]; [lia|]. simpl.
  apply Ascii.eqb_neq. congruence.
Qed.

Lemma replace_expand (l : list (ascii * nat)) :
  maximalRuns l ->
  replaceDuplicationFrom None (expand l) = expand (map capRun l).
Proof.
  induction l as [|[c n] rest IH]; [reflexivity|].
  intros [Hn [Hd Hr]].
  change (expand ((c, n) :: rest)) with (repeatChar c n ++ expand rest).
  rewrite replace_run; [| exact Hn |].
  - rewrite (IH Hr). reflexivity.
  - destruct rest as [|[d k] rest']; [reflexivity|].
    destruct Hr as [Hk _]. now apply headIs_expand.
Qed.

Lemma replaceDuplication_runs (s : string) :
  replaceDuplication s = expand (map capRun (runs s)).
Proof.
  unfold replaceDuplication.
  rewrite <- (expand_runs s) at 1. apply replace_expand, runs_maximal.
Qed.

(** Without three equal code units in a row the replacement changes
    nothing, so the guard [test] is immaterial. *)
Lemma replace_without_duplication (s : string) :
  testDuplication s = false -> replaceDuplicationFrom None s = s.
Proof.
  induction s as [|c t IH]; simpl; [reflexivity|].
  intros H. apply orb_false_iff in H as [H1 H2].
  now rewrite H1, (IH H2).
Qed.

Lemma fixDuplication_replace (s : string) : fixDuplication s = replaceDuplication s.
Proof.
  unfold fixDuplication, replaceDuplication.
  destruct (testDuplication s) eqn:Ht; [reflexivity|].
  symmetry. now apply replace_without_duplication.
Qed.

Lemma fixDuplication_runs (s : string) :
  fixDuplication s = expand (map capRun (runs s)).
Proof. rewrite fixDuplication_replace. apply replaceDuplication_runs. Qed.

End Duplication.

(** ** The duplication repair on UTF-16 code units *)

Module Utf16Facts.
Import Utf16.

Lemma units_expand_runs (s : list N) : expand (runs s) = s.
Proof.
  induction s as [|u t IH]; simpl; [reflexivity|].
  destruct (runs t) as [|[d n] rest]; simpl in *.
  - now rewrite <- IH.
  - destruct (N.eqb_spec u d) as [->|Hne]; simpl; now rewrite <- IH.
Qed.

Lemma units_runs_maximal (s : list N) : maximalRuns (runs s).
Proof.
  induction s as [|u t IH]; simpl; [exact I|].
  destruct (runs t) as [|[d n] rest]; simpl in *.
  - repeat split. lia.
  - destruct (N.eqb_spec u d) as [->|Hne]; simpl.
    + destruct IH as [Hn [Hd Hr]]. repeat split; [lia | exact Hd | exact Hr].
    + destruct IH as [Hn [Hd Hr]]. repeat split; try assumption; lia.
Qed.

Lemma units_consuming_skips (u : N) (n : nat) (rest : list N) :
  replaceDuplicationFrom (Some u) (repeat u n ++ rest) =
  replaceDuplicationFrom (Some u) rest.
Proof.
  induction n as [|k IH]; simpl; [reflexivity|].
  now rewrite N.eqb_refl.
Qed.

Lemma units_consuming_ends (u : N) (rest : list N) :
  headIs u rest = false ->
  replaceDuplicationFrom (Some u) rest = replaceDuplicationFrom None rest.
Proof.
  destruct rest as [|d t]; simpl; [reflexivity|].
  intros ->. reflexivity.
Qed.

Lemma units_startsRun_long (u : N) (n : nat) (rest : list N) :
  startsRun u (repeat u (S (S n)) ++ rest) = negb (isLineTerminator u).
Proof. unfold startsRun. simpl. now rewrite N.eqb_refl, andb_true_r. Qed.

Lemma units_startsRun_short1 (u : N) (rest : list N) :
  headIs u rest = false -> startsRun u rest = false.
Proof.
  unfold startsRun. destruct rest as [|d [|d' t]]; simpl; intros H;
    rewrite ?H; now rewrite ?andb_false_r.
Qed.

Lemma units_startsRun_short2 (u : N) (rest : list N) :
  headIs u rest = false -> startsRun u (u :: rest) = false.
Proof.
  unfold startsRun. destruct rest as [|d t]; simpl; intros H;
    rewrite ?H; now rewrite ?andb_false_r.
Qed.

Lemma units_startsRun_lineTerminator (u : N) (rest : list N) :
  isLineTerminator u = true -> startsRun u rest = false.
Proof. unfold startsRun. now intros ->. Qed.

Lemma units_lineTerminators_kept (u : N) (n : nat) (rest : list N) :
  isLineTerminator u = true ->
  replaceDuplicationFrom None (repeat u n ++ rest) =
  (repeat u n ++ replaceDuplicationFrom None rest)%list.
Proof.
  intros Hlt. induction n as [|k IH]; simpl; [reflexivity|].
  now rewrite (units_startsRun_lineTerminator _ _ Hlt), IH.
Qed.

(** One run at the head of the text, followed by a text that starts with
    another code unit. *)
Lemma units_replace_run (u : N) (n : nat) (rest : list N) :
  0 < n -> headIs u rest = false ->
  replaceDuplicationFrom None (repeat u n ++ rest) =
  (repeat u (snd (capRun (u, n))) ++ replaceDuplicationFrom None rest)%list.
Proof.
  intros Hn Hrest. unfold capRun, snd.
  destruct (isLineTerminator u) eqn:Hlt; simpl negb; cbn iota.
  - simpl andb. now apply units_lineTerminators_kept.
  - rewrite andb_true_l.
    destruct n as [|[|[|k]]]; [lia | | |].
    + simpl. now rewrite (units_startsRun_short1 _ _ Hrest).
    + simpl.
      rewrite (units_startsRun_short2 _ _ Hrest), (units_startsRun_short1 _ _ Hrest).
      reflexivity.
    + change (3 <=? S (S (S k))) with true. cbn iota.
      change (repeat u (S (S (S k))) ++ rest)%list
        with (u :: (repeat u (S (S k)) ++ rest))%list.
      cbn [replaceDuplicationFrom].
      rewrite units_startsRun_long, Hlt. simpl negb. cbn iota.
      rewrite units_consuming_skips, (units_consuming_ends _ _ Hrest). reflexivity.
Qed.

Lemma units_headIs_expand (u d : N) (n : nat) (rest : list (N * nat)) :
  0 < n -> u <> d -> headIs u (expand ((d, n) :: rest)) = false.
Proof.
  intros Hn Hne. destruct n as [|k]; [lia|]. simpl.
  apply N.eqb_neq. congruence.
Qed.

Lemma units_replace_expand (l : list (N * nat)) :
  maximalRuns l ->
  replaceDuplicationFrom None (expand l) = expand (map capRun l).
Proof.
  induction l as [|[u n] rest IH]; [reflexivity|].
  intros [Hn [Hd Hr]].
  change (expand ((u, n) :: rest)) with (repeat u n ++ expand rest)%list.
  rewrite units_replace_run; [| exact Hn |].
  - rewrite (IH Hr). reflexivity.
  - destruct rest as [|[d k] rest']; [reflexivity|].
    destruct Hr as [Hk _]. now apply units_headIs_expand.
Qed.

(** Without three equal code units in a row the replacement changes
    nothing, so the guard [test] is immaterial. *)
Lemma units_replace_without_duplication (s : list N) :
  testDuplication s = false -> replaceDuplicationFrom None s = s.
Proof.
  induction s as [|u t IH]; simpl; [reflexivity|].
  intros H. apply orb_false_iff in H as [H1 H2].
  now rewrite H1, (IH H2).
Qed.

Lemma units_fixDuplication_runs (s : list N) :
  fixDuplication s = expand (map capRun (runs s)).
Proof.
  unfold fixDuplication.
  destruct (testDuplication s) eqn:Ht.
  - unfold replaceDuplication.
    rewrite <- (units_expand_runs s) at 1.
    apply units_replace_expand, units_runs_maximal.
  - rewrite <- (units_replace_without_duplication s Ht) at 1.
    rewrite <- (units_expand_runs s) at 1.
    apply units_replace_expand, units_runs_maximal.
Qed.

End Utf16Facts.

(** On a text of the Latin-1 range the two embeddings of the repair
    agree. *)
Section Agreement.

Lemma unit_eqb (c d : ascii) : (N_of_ascii c =? N_of_ascii d)%N = Ascii.eqb c d.
Proof.
  destruct (Ascii.eqb_spec c d) as [->|Hne]; [apply N.eqb_refl|].
  apply N.eqb_neq. intros Heq. apply Hne.
  now rewrite <- (ascii_N_embedding c), <- (ascii_N_embedding d), Heq.
Qed.

Lemma isLineTerminator_unit (c : ascii) :
  Utf16.isLineTerminator (N_of_ascii c) = JS.isLineTerminator c.
Proof. destruct c as [[] [] [] [] [] [] [] []]; reflexivity. Qed.

Lemma startsRun_ofString (c : ascii) (s : string) :
  Utf16.startsRun (N_of_ascii c) (Utf16.ofString s) = startsRun c s.
Proof.
  unfold Utf16.startsRun, startsRun. rewrite isLineTerminator_unit.
  destruct s as [|c1 [|c2 t]]; cbn [Utf16.ofString]; try reflexivity.
  now rewrite !unit_eqb.
Qed.

Lemma testDuplication_ofString (s : string) :
  Utf16.testDuplication (Utf16.ofString s) = testDuplication s.
Proof.
  induction s as [|c t IH]; [reflexivity|].
  cbn [Utf16.ofString Utf16.testDuplication testDuplication].
  now rewrite startsRun_ofString, IH.
Qed.

Lemma replaceDuplicationFrom_ofString (s : string) :
  forall consuming,
    Utf16.replaceDuplicationFrom (option_map N_of_ascii consuming) (Utf16.ofString s) =
    Utf16.ofString (replaceDuplicationFrom consuming s).
Proof.
  induction s as [|c t IH]; intros consuming; [reflexivity|].
  cbn [Utf16.ofString Utf16.replaceDuplicationFrom replaceDuplicationFrom].
  rewrite startsRun_ofString.
  pose proof (IH None) as IHnone. pose proof (IH (Some c)) as IHsome.
  cbn [option_map] in IHnone, IHsome. rewrite IHnone, IHsome.
  destruct consuming as [d|]; cbn [option_map].
  - rewrite unit_eqb. destruct (Ascii.eqb c d); [apply (IH (Some d))|].
    destruct (startsRun c t); reflexivity.
  - destruct (startsRun c t); reflexivity.
Qed.

Lemma fixDuplication_ofString (s : string) :
  Utf16.fixDuplication (Utf16.ofString s) = Utf16.ofString (fixDuplication s).
Proof.
  unfold Utf16.fixDuplication, fixDuplication, Utf16.replaceDuplication,
    replaceDuplication.
  rewrite testDuplication_ofString.
  destruct (testDuplication s); [|reflexivity].
  exact (replaceDuplicationFrom_ofString s None).
Qed.

End Agreement.

(** C7, the claim as written fails: a run of three line feeds is returned as
    it is, where collapsing every run would leave two. *)
Lemma C7_newline_run_survives :
  fixDuplication Samples.threeNewlines = Samples.threeNewlines /\
  fixDuplication Samples.threeNewlines <> collapseEveryRun Samples.threeNewlines.
Proof. split; [reflexivity | discriminate]. Qed.

(** ** Token accounting *)

Section Accounting.
Local Open Scope float_scope.





(** C5, the code at the failing input: a session configured with the model
    gpt-4 that records 1000 input and 1000 output tokens is costed at the
    rates of the default model (0.004), not at the GPT-4 rates (0.09), because
    [updateTokenUsage] calls [calculateTokenCost] without the model. *)
Theorem C5_gpt4_session_costed_at_default_rates :
  let svc := newKaniService "key" Samples.shop "gpt-4" 750 in
  let t := tokenUsage (updateTokenUsage (memory svc) 1000 1000) in
  JS.startsWith (modelName svc) "gpt-4" = true /\
  estimatedCost t = ApiConfig.calculateTokenCost 1000 1000 "gpt-3.5-turbo" /\
  estimatedCost t = 0.004 /\
  ApiConfig.calculateTokenCost 1000 1000 (modelName svc) = 0.09 /\
  PrimFloat.eqb (estimatedCost t)
    (ApiConfig.calculateTokenCost 1000 1000 (modelName svc)) = false.
Proof. repeat split; reflexivity. Qed.

End Accounting.

(** ** The knowledge base *)

Section Knowledge.
Context `{E : RegExpEngine}.
Import JS JSFacts.

Lemma append_assoc (a b c : string) : (a ++ b) ++ c = a ++ (b ++ c).
Proof. induction a as [|x a IH]; simpl; [reflexivity | now rewrite IH]. Qed.

Lemma replaceVars_plain (ctx : list (string * string)) (pre rest : string) :
  noOpeningBrace pre = true ->
  replaceVarsFrom ctx None (pre ++ rest) = pre ++ replaceVarsFrom ctx None rest.
Proof.
  unfold noOpeningBrace.
  induction pre as [|c t IH]; simpl; [reflexivity|].
  intros H. apply andb_true_iff in H as [Hc Ht].
  apply negb_true_iff in Hc. now rewrite Hc, (IH Ht).
Qed.

Lemma replaceVars_word (ctx : list (string * string)) (w acc rest : string) :
  allChars isWordChar w = true ->
  replaceVarsFrom ctx (Some acc) (w ++ rest) =
  replaceVarsFrom ctx (Some (acc ++ w)) rest.
Proof.
  revert acc. induction w as [|c t IH]; intros acc; simpl.
  - intros _. f_equal. f_equal. clear. induction acc; simpl; congruence.
  - intros H. apply andb_true_iff in H as [Hc Ht].
    rewrite Hc, (IH _ Ht), append_assoc. reflexivity.
Qed.

Lemma replaceVars_placeholder (ctx : list (string * string)) (nm post : string) :
  isWord nm = true ->
  replaceVarsFrom ctx None ("{" ++ nm ++ "}" ++ post) =
  match contextValue ctx nm with
  | Some v => v
  | None => "{" ++ nm ++ "}"
  end ++ replaceVarsFrom ctx None post.
Proof.
  unfold isWord. intros H. apply andb_true_iff in H as [Hne Hw].
  change (replaceVarsFrom ctx None ("{" ++ nm ++ "}" ++ post))
    with (replaceVarsFrom ctx (Some EmptyString) (nm ++ "}" ++ post)).
  rewrite (replaceVars_word _ _ _ _ Hw).
  change (EmptyString ++ nm) with nm.
  change ("}" ++ post) with (String "}" post).
  cbn [replaceVarsFrom].
  change (isWordChar "}") with false. cbn iota.
  change (Ascii.eqb "}" "}") with true. rewrite Hne. reflexivity.
Qed.

(** C9, the code at the failing input.  The example of the claim holds: with
    the item (where are you located, We are in {userCompany}.) and the stored
    fact userCompany = Acme, the question "Where are you located?" is answered
    "We are in Acme.".  In general a placeholder {name} is replaced by what
    the read [contextualData[name]] finds: the stored fact of that name, or,
    when there is none, the member of [Object.prototype] of that name; only
    a name found nowhere is left verbatim (so is {tonePreference} when the
    business has no tone).  On a fresh session whose knowledge item answers
    "Ask the {constructor}.", no fact is called constructor, and yet the
    answer comes back with the placeholder replaced by the text of the
    function [Object]. *)
Theorem C9_inherited_name_is_interpolated :
  (forall m,
     knowledgeBase m = [Samples.located] ->
     Dict.lookup "userCompany" (contextualData m) = Some "Acme" ->
     findKnowledgeBaseResponse m "Where are you located?" = Some "We are in Acme.") /\
  (forall m pre nm post,
     noOpeningBrace pre = true -> isWord nm = true ->
     replaceContextVariables m (pre ++ "{" ++ nm ++ "}" ++ post) =
     pre ++
     match Dict.get nm (contextualData m) with
     | Dict.Own v => v
     | Dict.Inherited mb => ObjectPrototype.memberText mb
     | Dict.Absent => "{" ++ nm ++ "}"
     end ++ replaceContextVariables m post) /\
  (forall b,
     tonePreference b = None ->
     replaceContextVariables (newAgentMemory b) "{tonePreference}" = "{tonePreference}") /\
  (let m := newAgentMemory Samples.helpDesk in
   Dict.lookup "constructor" (contextualData m) = None /\
   findKnowledgeBaseResponse m "Who made this?" =
     Some "Ask the function Object() { [native code] }." /\
   findKnowledgeBaseResponse m "Who made this?" <> Some "Ask the {constructor}.").
Proof.
  split; [|split; [|split]].
  - intros m Hkb Hfact. unfold findKnowledgeBaseResponse. rewrite Hkb.
    change (findItem (trim (toLowerCase "Where are you located?")) [Samples.located])
      with (Some Samples.located).
    unfold replaceContextVariables.
    change (response Samples.located)
      with ("We are in " ++ "{" ++ "userCompany" ++ "}" ++ ".").
    rewrite replaceVars_plain, replaceVars_placeholder by reflexivity.
    unfold contextValue, Dict.get. rewrite Hfact. reflexivity.
  - intros m pre nm post Hpre Hnm. unfold replaceContextVariables.
    rewrite replaceVars_plain, replaceVars_placeholder by assumption.
    unfold contextValue.
    destruct (Dict.get nm (contextualData m)); reflexivity.
  - intros b Htone. unfold replaceContextVariables, newAgentMemory.
    cbn [contextualData]. rewrite Htone. reflexivity.
  - cbn zeta. split; [reflexivity|]. split; [reflexivity | discriminate].
Qed.

End Knowledge.

(** ** The order of enumeration *)

Module EntriesFacts.

Section WithValue.
Context {V : Type}.

Lemma In_insertByIndex (n : N) (e : string * V) (l : list (N * (string * V)))
    (x : N * (string * V)) :
  In x (Dict.insertByIndex n e l) <-> x = (n, e) \/ In x l.
Proof.
  induction l as [|[n' e'] rest IH]; simpl.
  - split; intros [H | H]; auto.
  - destruct (n <? n')%N; simpl; [split; intros [H | H]; auto|].
    rewrite IH. split; intros H; decompose [or] H; auto.
Qed.

Lemma length_insertByIndex (n : N) (e : string * V) (l : list (N * (string * V))) :
  List.length (Dict.insertByIndex n e l) = S (List.length l).
Proof.
  induction l as [|[n' e'] rest IH]; simpl; [reflexivity|].
  destruct (n <? n')%N; simpl; [reflexivity | now rewrite IH].
Qed.

Lemma In_indexed (d : list (string * V)) (n : N) (e : string * V) :
  In (n, e) (Dict.indexed d) <-> In e d /\ Dict.arrayIndex (fst e) = Some n.
Proof.
  induction d as [|e0 rest IH]; simpl; [tauto|].
  destruct (Dict.arrayIndex (fst e0)) as [n0|] eqn:H0.
  - rewrite In_insertByIndex, IH. split.
    + intros [[= -> ->] | [Hin Hn]]; auto.
    + intros [[-> | Hin] Hn]; [left; congruence | auto].
  - rewrite IH. split.
    + intros [Hin Hn]. auto.
    + intros [[-> | Hin] Hn]; [congruence | auto].
Qed.

(** Enumeration visits exactly the own properties. *)
Lemma In_entries (d : list (string * V)) (e : string * V) :
  In e (Dict.entries d) <-> In e d.
Proof.
  unfold Dict.entries, Dict.named. rewrite in_app_iff, in_map_iff, filter_In. split.
  - intros [[[n e'] [Heq Hin]] | [Hin _]]; [|exact Hin].
    cbn [snd] in Heq. subst e'. now apply In_indexed in Hin.
  - intros Hin. destruct (Dict.arrayIndex (fst e)) as [n|] eqn:Hn.
    + left. exists (n, e). split; [reflexivity|]. now apply In_indexed.
    + right. auto.
Qed.

Lemma length_indexed_named (d : list (string * V)) :
  List.length (Dict.indexed d) + List.length (Dict.named d) = List.length d.
Proof.
  unfold Dict.named. induction d as [|e rest IH]; simpl; [reflexivity|].
  destruct (Dict.arrayIndex (fst e)); simpl.
  - rewrite length_insertByIndex. simpl. now rewrite IH.
  - rewrite Nat.add_succ_r. now rewrite IH.
Qed.

Lemma length_entries (d : list (string * V)) :
  List.length (Dict.entries d) = List.length d.
Proof.
  unfold Dict.entries. rewrite length_app, length_map. apply length_indexed_named.
Qed.

Lemma existsb_entries (f : string * V -> bool) (d : list (string * V)) :
  existsb f (Dict.entries d) = existsb f d.
Proof.
  apply eq_true_iff_eq. rewrite !existsb_exists.
  split; intros [x [Hin Hx]]; exists x; split; try assumption;
    now apply In_entries.
Qed.

(** Without array indices among the keys, enumeration follows insertion. *)
Lemma entries_named (d : list (string * V)) :
  (forall e, In e d -> Dict.arrayIndex (fst e) = None) -> Dict.entries d = d.
Proof.
  intros Hall. unfold Dict.entries, Dict.named.
  induction d as [|e rest IH]; [reflexivity|].
  cbn [Dict.indexed filter]. rewrite (Hall e (or_introl eq_refl)).
  assert (Hrest : forall e', In e' rest -> Dict.arrayIndex (fst e') = None)
    by (intros e' He'; apply Hall; now right).
  specialize (IH Hrest).
  destruct (Dict.indexed rest) as [|x xs] eqn:Hix.
  - cbn [map app] in *. now rewrite IH.
  - exfalso. destruct x as [n e'].
    assert (Hin : In (n, e') (Dict.indexed rest)) by (rewrite Hix; now left).
    apply In_indexed in Hin as [Hin Hn]. rewrite (Hrest e' Hin) in Hn. discriminate.
Qed.

Lemma indexed_app_named (d : list (string * V)) (k : string) (v : V) :
  Dict.arrayIndex k = None -> Dict.indexed (d ++ [(k, v)]) = Dict.indexed d.
Proof.
  intros Hk. induction d as [|e rest IH]; simpl.
  - now rewrite Hk.
  - now rewrite IH.
Qed.

(** A new key that is no array index is enumerated last. *)
Lemma entries_app_named (d : list (string * V)) (k : string) (v : V) :
  Dict.arrayIndex k = None ->
  Dict.entries (d ++ [(k, v)]) = (Dict.entries d ++ [(k, v)])%list.
Proof.
  intros Hk. unfold Dict.entries, Dict.named.
  rewrite (indexed_app_named d k v Hk), filter_app. cbn [filter fst].
  rewrite Hk. now rewrite app_assoc.
Qed.

End WithValue.

End EntriesFacts.

(** ** The escalation decision *)

Section Escalation.
Context `{E : RegExpEngine}.
Import JS JSFacts.

(** C6 (amended): for every utterance that is not a question (one ending in
    "?" and longer than 10 characters), the escalation decision is true
    whenever the lower-cased expected-input hint of the current state
    contains reason, objection, explanation, description or feedback,
    whether or not a transition condition matches.  For such a question
    rule 1 decides alone: no escalation when the question mentions a stored
    non-business fact that is non-empty, escalation otherwise. *)
Theorem C6_open_ended_hint_escalates :
  (forall m resp sd,
     Dict.lookup (currentState m) (stateDefinitions m) = Some sd ->
     openEndedHint (toLowerCase (expectedInputs sd)) = true ->
     isLongQuestion resp = false ->
     shouldUseLLM m resp = true) /\
  (forall m resp,
     isLongQuestion resp = true ->
     shouldUseLLM m resp = negb (existsb (asksAbout resp) (contextualData m))).
Proof.
  split.
  - intros m resp sd Hsd Hhint Hq. unfold shouldUseLLM.
    unfold isLongQuestion in Hq. rewrite Hq, Hsd.
    destruct (transitions sd); [|reflexivity]. now rewrite Hhint.
  - intros m resp Hq. unfold shouldUseLLM.
    unfold isLongQuestion in Hq. rewrite Hq, EntriesFacts.existsb_entries.
    destruct (existsb (asksAbout resp) (contextualData m)); reflexivity.
Qed.

End Escalation.

(** C6, the claim as written fails: in a state whose hint is "reason or
    objection", a question about the stored name is answered from memory. *)
Lemma C6_question_about_known_fact :
  getCurrentStateDefinition (memory Samples.surveyAfterName) =
    Dict.Own (Samples.mkState "Reason" "Why are you returning the shoes?"
                "reason or objection"
                (Some [ {| condition := "contains:because"; targetState := "done" |} ])) /\
  openEndedHint (JS.toLowerCase "reason or objection") = true /\
  Dict.lookup "userName" (contextualData (memory Samples.surveyAfterName)) = Some "Bob" /\
  @shouldUseLLM rejectingEngine (memory Samples.surveyAfterName) "What is my name?" = false.
Proof. repeat split; reflexivity. Qed.

Lemma C6_open_ended_hint_escalates_witness :
  @matchesCondition rejectingEngine "because they are too small" "contains:because" = true /\
  isLongQuestion "because they are too small" = false /\
  @shouldUseLLM rejectingEngine (memory Samples.surveyAfterName)
    "because they are too small" = true /\
  isLongQuestion "What is my name?" = true /\
  @shouldUseLLM rejectingEngine (memory Samples.surveyAfterName) "What is my name?" =
    negb (existsb (asksAbout "What is my name?")
            (contextualData (memory Samples.surveyAfterName))).
Proof.
  destruct (@C6_open_ended_hint_escalates rejectingEngine) as [Hhint Hquestion].
  split; [reflexivity|]. split; [reflexivity|]. split.
  - eapply Hhint; reflexivity.
  - split; [reflexivity|]. apply Hquestion. reflexivity.
Defined.

(** ** The turn *)

Section Turn.
Context `{E : RegExpEngine}.
Import JS JSFacts.

Lemma storeResponse_frame (m : AgentMemory) (q r : string) (v : bool) (now : string) :
  let m1 := storeResponse m q r v now in
  currentState m1 = currentState m /\
  stateDefinitions m1 = stateDefinitions m /\
  tokenUsage m1 = tokenUsage m /\
  disqualificationRules m1 = disqualificationRules m /\
  knowledgeBase m1 = knowledgeBase m.
Proof.
  unfold storeResponse. cbn [setUserResponse currentState stateDefinitions].
  destruct (Dict.lookup (currentState m) (stateDefinitions m)) as [sd|];
    [destruct (truthy (expectedInputs sd))|]; repeat split.
Qed.

(** The rule-based step reads the memory only through the current state
    and the state definitions. *)
Lemma getNextState_reads (m m' : AgentMemory) (input : string) :
  currentState m = currentState m' ->
  stateDefinitions m = stateDefinitions m' ->
  fst (getNextState m input) = fst (getNextState m' input).
Proof.
  intros Hc Hd. unfold getNextState. rewrite Hc, Hd.
  destruct (Dict.lookup (currentState m') (stateDefinitions m')) as [sd|];
    [|reflexivity].
  destruct (transitions sd) as [ts|]; [|reflexivity].
  destruct (firstTransition input ts); reflexivity.
Qed.

Lemma getNextState_none (m : AgentMemory) (input : string) :
  fst (getNextState m input) = None -> getNextState m input = (None, m).
Proof.
  unfold getNextState.
  destruct (Dict.lookup (currentState m) (stateDefinitions m)) as [sd|];
    [|reflexivity].
  destruct (transitions sd) as [ts|]; [|reflexivity].
  destruct (firstTransition input ts); [discriminate | reflexivity].
Qed.

Lemma getNextState_some (m : AgentMemory) (input t : string) :
  fst (getNextState m input) = Some t ->
  currentState (snd (getNextState m input)) = t /\
  stateDefinitions (snd (getNextState m input)) = stateDefinitions m /\
  tokenUsage (snd (getNextState m input)) = tokenUsage m.
Proof.
  unfold getNextState.
  destruct (Dict.lookup (currentState m) (stateDefinitions m)) as [sd|];
    [|discriminate].
  destruct (transitions sd) as [ts|]; [|discriminate].
  destruct (firstTransition input ts) as [tr|]; [|discriminate].
  cbn. intros [= <-]. repeat split.
Qed.

Lemma getNextState_undefined_state (m : AgentMemory) (input : string) :
  Dict.lookup (currentState m) (stateDefinitions m) = None ->
  getNextState m input = (None, m).
Proof. intros H. unfold getNextState. now rewrite H. Qed.

Lemma firstRule_first (input : string) (pre : list DisqualificationRule)
    (r : DisqualificationRule) (post : list DisqualificationRule) :
  (forall r', In r' pre -> matchesCondition input (ruleCondition r') = false) ->
  matchesCondition input (ruleCondition r) = true ->
  firstRule input (pre ++ r :: post)%list = Some (message r).
Proof.
  intros Hpre Hr. induction pre as [|p pre IH]; simpl.
  - now rewrite Hr.
  - rewrite (Hpre p (or_introl eq_refl)). apply IH.
    intros r' Hin. apply Hpre. now right.
Qed.

(** C1 (amended): when the utterance matches no knowledge-base item and
    some disqualification rule, the turn returns the message of the first
    matching rule -- or the stock sentence "Sorry, we cannot proceed
    further." when that message is empty -- with nextState = null and
    disqualified = true, and the session (currentStateId included) is left
    exactly as it was. *)
Theorem C1_disqualification_ends_turn (svc : KaniService) (llm : ChatModel)
    (now input : string) (pre : list DisqualificationRule)
    (r : DisqualificationRule) (post : list DisqualificationRule) :
  findKnowledgeBaseResponse (memory svc) input = None ->
  disqualificationRules (memory svc) = (pre ++ r :: post)%list ->
  (forall r', In r' pre -> matchesCondition input (ruleCondition r') = false) ->
  matchesCondition input (ruleCondition r) = true ->
  processUserInput svc llm now input =
  ({| turnResponse :=
        if (message r =? "")%string then defaultDisqualification else message r;
      nextState := None;
      disqualified := true |},
   svc).
Proof.
  intros Hkb Hrules Hpre Hr.
  unfold processUserInput, ruleStage, isDisqualified.
  rewrite Hkb, Hrules, (firstRule_first _ _ _ _ Hpre Hr).
  change (truthy "") with false. cbn iota.
  unfold orElse, truthy.
  destruct (message r =? "")%string; reflexivity.
Qed.

(** How a turn reaches the model: the response has been stored, and the
    rule-based step found no transition, or took one whose target is the
    empty id or has no definition. *)
Lemma ruleStage_escalates (svc : KaniService) (now input : string) (svc1 : KaniService) :
  ruleStage svc now input = inr svc1 ->
  let m1 := storeResponse (memory svc) (currentState (memory svc)) input true now in
  svc1 = setMemory svc (snd (getNextState m1 input)) /\
  (fst (getNextState m1 input) = None \/
   fst (getNextState m1 input) = Some "" \/
   exists t, fst (getNextState m1 input) = Some t /\
             Dict.lookup t (stateDefinitions (memory svc)) = None).
Proof.
  intros H m1. unfold ruleStage in H.
  destruct (truthy _); [discriminate|].
  destruct (isDisqualified (memory svc) input); [discriminate|].
  fold m1 in H.
  destruct (getNextState m1 input) as [next m2] eqn:Hnext.
  cbn [fst snd].
  destruct next as [t|].
  - destruct (truthy t) eqn:Ht.
    + destruct (getCurrentStateDefinition m2) eqn:Hdef; [discriminate | discriminate |].
      injection H as <-. split; [reflexivity|]. right. right.
      exists t. split; [reflexivity|].
      pose proof (getNextState_some m1 input t) as Hsome.
      rewrite Hnext in Hsome. destruct (Hsome eq_refl) as [Hc [Hd _]].
      cbn [snd] in Hc, Hd. unfold getCurrentStateDefinition, Dict.get in Hdef.
      rewrite Hc, Hd in Hdef.
      destruct (storeResponse_frame (memory svc) (currentState (memory svc))
                  input true now) as [_ [Hdefs _]].
      fold m1 in Hdefs. rewrite <- Hdefs.
      destruct (Dict.lookup t (stateDefinitions m1)); [discriminate | reflexivity].
    + injection H as <-. split; [reflexivity|]. right. left.
      apply truthy_false_iff in Ht. now subst.
  - change (truthy "") with false in H. injection H as <-.
    split; [reflexivity|]. now left.
Qed.

Lemma llmFallback_failure (svc : KaniService) (llm : ChatModel) (input : string) :
  openai svc = true ->
  llm (modelName svc) (currentPrompt (memory (beforeCall svc))) input = ApiThrows \/
  llm (modelName svc) (currentPrompt (memory (beforeCall svc))) input = InvalidResponse ->
  llmFallback svc llm input =
  ({| turnResponse := apology; nextState := None; disqualified := false |},
   beforeCall svc).
Proof.
  intros Hopen Hfail. unfold llmFallback.
  cbn [openai setMemory]. rewrite Hopen. cbn [negb].
  change (modelName (beforeCall svc)) with (modelName svc).
  destruct Hfail as [-> | ->]; reflexivity.
Qed.

Lemma llmFallback_reply (svc : KaniService) (llm : ChatModel) (input text : string) :
  openai svc = true ->
  llm (modelName svc) (currentPrompt (memory (beforeCall svc))) input = Content text ->
  let prompt := currentPrompt (memory (beforeCall svc)) in
  let svc3 := recordUsage (beforeCall svc) prompt input (polishReply text) in
  llmFallback svc llm input =
  ({| turnResponse := polishReply text;
      nextState := fst (determineStateFromLLMResponse svc3 (polishReply text) input);
      disqualified := false |},
   snd (determineStateFromLLMResponse svc3 (polishReply text) input)).
Proof.
  intros Hopen Hreply prompt svc3. unfold llmFallback.
  cbn [openai setMemory]. rewrite Hopen. cbn [negb].
  change (modelName (beforeCall svc)) with (modelName svc).
  rewrite Hreply. fold prompt. fold svc3.
  destruct (determineStateFromLLMResponse svc3 (polishReply text) input).
  reflexivity.
Qed.

End Turn.

Section Fallback.
Context `{E : RegExpEngine}.
Import JS JSFacts.

(** C7 (amended): the text handed back for a model reply is the reply (the
    stock sentence standing in for an empty reply) in which every maximal run
    of three or more identical consecutive UTF-16 code units other than a line
    terminator (LF, CR, U+2028, U+2029) is cut down to exactly two of that
    code unit; runs of one or two code units, and runs of line terminators of
    any length, are left as they are.  The pattern works on code units: a
    character outside the Basic Multilingual Plane is two different code
    units, so repetitions of it are no run.  ([Utf16.runs] splits a sequence
    of code units into its maximal runs and [Utf16.expand] puts them together
    again; the repair of the engine, on texts of the Latin-1 range, is the
    repair on their code units.) *)
Theorem C7_long_runs_collapse_to_two :
  (forall text,
     Utf16.expand (Utf16.runs text) = text /\ Utf16.maximalRuns (Utf16.runs text)) /\
  (forall text,
     Utf16.fixDuplication text = Utf16.expand (map Utf16.capRun (Utf16.runs text))) /\
  (forall text,
     Utf16.ofString (fixDuplication text) = Utf16.fixDuplication (Utf16.ofString text)) /\
  (forall svc llm now input svc1 text,
     ruleStage svc now input = inr svc1 ->
     openai svc1 = true ->
     llm (modelName svc1) (currentPrompt (memory (beforeCall svc1))) input
       = Content text ->
     Utf16.ofString (turnResponse (fst (processUserInput svc llm now input))) =
     Utf16.expand
       (map Utf16.capRun
            (Utf16.runs (Utf16.ofString (orElse text emptyContentFallback))))).
Proof.
  split; [|split; [|split]].
  - intros text.
    split; [apply Utf16Facts.units_expand_runs | apply Utf16Facts.units_runs_maximal].
  - exact Utf16Facts.units_fixDuplication_runs.
  - intros text. symmetry. apply fixDuplication_ofString.
  - intros svc llm now input svc1 text Hstage Hopen Hreply.
    unfold processUserInput. rewrite Hstage.
    rewrite (llmFallback_reply svc1 llm input text Hopen Hreply).
    cbn [fst turnResponse]. unfold polishReply.
    rewrite <- fixDuplication_ofString.
    apply Utf16Facts.units_fixDuplication_runs.
Qed.

(** C8 (amended): if the model invocation fails (the call throws, or its
    result fails the shape check), the turn returns the fixed sentence "I'm
    having trouble understanding. Could you please rephrase that?" with
    nextState = null and disqualified = false, and nothing propagates.  The
    session is then as the model call found it; when no transition of the
    current state matches the utterance, currentStateId, the state
    definitions, the rules, the knowledge base and the token usage are those
    from before the turn, so the same state can be retried, while the
    used-model flag is set. *)
Theorem C8_model_failure_apologises (svc : KaniService) (llm : ChatModel)
    (now input : string) (svc1 : KaniService) :
  ruleStage svc now input = inr svc1 ->
  openai svc1 = true ->
  llm (modelName svc1) (currentPrompt (memory (beforeCall svc1))) input = ApiThrows \/
  llm (modelName svc1) (currentPrompt (memory (beforeCall svc1))) input
    = InvalidResponse ->
  fst (processUserInput svc llm now input) =
    {| turnResponse := apology; nextState := None; disqualified := false |} /\
  snd (processUserInput svc llm now input) = beforeCall svc1 /\
  (fst (getNextState (memory svc) input) = None ->
   let after := memory (snd (processUserInput svc llm now input)) in
   currentState after = currentState (memory svc) /\
   stateDefinitions after = stateDefinitions (memory svc) /\
   disqualificationRules after = disqualificationRules (memory svc) /\
   knowledgeBase after = knowledgeBase (memory svc) /\
   tokenUsage after = tokenUsage (memory svc) /\
   usedLLM after = true).
Proof.
  intros Hstage Hopen Hfail.
  unfold processUserInput. rewrite Hstage.
  rewrite (llmFallback_failure svc1 llm input Hopen Hfail). cbn [fst snd].
  split; [reflexivity|]. split; [reflexivity|].
  intros Hnone.
  destruct (ruleStage_escalates svc now input svc1 Hstage) as [Hsvc1 _].
  destruct (storeResponse_frame (memory svc) (currentState (memory svc))
              input true now) as [Hc [Hd [Ht [Hr Hk]]]].
  set (m1 := storeResponse (memory svc) (currentState (memory svc)) input true now) in *.
  assert (Hm1 : getNextState m1 input = (None, m1)).
  { apply getNextState_none.
    rewrite (getNextState_reads m1 (memory svc) input Hc Hd). exact Hnone. }
  rewrite Hm1 in Hsvc1. cbn [snd] in Hsvc1.
  rewrite Hsvc1. cbn.
  repeat split; assumption.
Qed.

(** The service as the re-run of the rule-based step finds it. *)
Lemma rerun_finds_nothing (svc : KaniService) (now input : string)
    (svc1 : KaniService) (prompt resp : string) :
  ruleStage svc now input = inr svc1 ->
  Dict.lookup "" (stateDefinitions (memory svc)) = None ->
  let svc3 := recordUsage (beforeCall svc1) prompt input resp in
  getNextState (memory svc3) input = (None, memory svc3).
Proof.
  intros Hstage Hempty svc3.
  destruct (ruleStage_escalates svc now input svc1 Hstage) as [Hsvc1 Hcases].
  destruct (storeResponse_frame (memory svc) (currentState (memory svc))
              input true now) as [Hc [Hd _]].
  set (m1 := storeResponse (memory svc) (currentState (memory svc)) input true now) in *.
  assert (Hcur : currentState (memory svc3) = currentState (memory svc1)) by reflexivity.
  assert (Hdefs : stateDefinitions (memory svc3) = stateDefinitions (memory svc1))
    by reflexivity.
  destruct Hcases as [Hnone | [Hblank | [t [Hsome Hmissing]]]].
  - apply getNextState_none.
    rewrite (getNextState_reads (memory svc3) m1 input).
    + exact Hnone.
    + rewrite Hcur, Hsvc1, (getNextState_none _ _ Hnone). reflexivity.
    + rewrite Hdefs, Hsvc1, (getNextState_none _ _ Hnone). reflexivity.
  - destruct (getNextState_some m1 input "" Hblank) as [Hc2 [Hd2 _]].
    apply getNextState_undefined_state.
    rewrite Hcur, Hdefs, Hsvc1. cbn [memory setMemory].
    now rewrite Hc2, Hd2, Hd.
  - destruct (getNextState_some m1 input t Hsome) as [Hc2 [Hd2 _]].
    apply getNextState_undefined_state.
    rewrite Hcur, Hdefs, Hsvc1. cbn [memory setMemory].
    now rewrite Hc2, Hd2, Hd.
Qed.

(** C10 (amended): in a call that reaches the model and gets a reply, and
    provided no state is keyed by the empty id, the re-run of the rule-based
    step inside determineStateFromLLMResponse returns null and changes
    nothing: either no transition matched before the model call and none
    matches now, or a transition was taken to a target without a definition,
    from which no transition can be found.  The nextState of such a turn is
    therefore exactly the result of scanning the reply for the display name
    of a transition target. *)
Theorem C10_rerun_returns_null (svc : KaniService) (llm : ChatModel)
    (now input : string) (svc1 : KaniService) (text : string) :
  ruleStage svc now input = inr svc1 ->
  openai svc1 = true ->
  llm (modelName svc1) (currentPrompt (memory (beforeCall svc1))) input
    = Content text ->
  Dict.lookup "" (stateDefinitions (memory svc)) = None ->
  let prompt := currentPrompt (memory (beforeCall svc1)) in
  let svc3 := recordUsage (beforeCall svc1) prompt input (polishReply text) in
  getNextState (memory svc3) input = (None, memory svc3) /\
  processUserInput svc llm now input =
  ({| turnResponse := polishReply text;
      nextState := scanReply svc3 (polishReply text);
      disqualified := false |},
   svc3).
Proof.
  intros Hstage Hopen Hreply Hempty prompt svc3.
  pose proof (rerun_finds_nothing svc now input svc1 prompt (polishReply text)
                Hstage Hempty) as Hrerun.
  fold svc3 in Hrerun. split; [exact Hrerun|].
  unfold processUserInput. rewrite Hstage.
  rewrite (llmFallback_reply svc1 llm input text Hopen Hreply).
  fold prompt. fold svc3.
  unfold determineStateFromLLMResponse. rewrite Hrerun.
  cbn [fst snd]. destruct svc3; reflexivity.
Qed.

End Fallback.

(** ** The statements at concrete sessions *)

(** C1, the claim as written fails: the first matching rule carries the
    empty message, and the turn answers with the stock sentence instead. *)
Lemma C1_empty_message_replaced :
  @findKnowledgeBaseResponse rejectingEngine (memory Samples.silentService)
    "please cancel" = None /\
  disqualificationRules (memory Samples.silentService) =
    [ {| ruleCondition := "contains:cancel"; message := "" |} ] /\
  @matchesCondition rejectingEngine "please cancel" "contains:cancel" = true /\
  turnResponse (fst (@processUserInput rejectingEngine Samples.silentService
                       Samples.failingModel Samples.clock "please cancel"))
    = "Sorry, we cannot proceed further." /\
  turnResponse (fst (@processUserInput rejectingEngine Samples.silentService
                       Samples.failingModel Samples.clock "please cancel"))
    <> "".
Proof. repeat split; try reflexivity. discriminate. Qed.

Lemma C1_disqualification_ends_turn_witness :
  @findKnowledgeBaseResponse rejectingEngine (memory Samples.shopService)
    "I want to cancel" = None /\
  disqualificationRules (memory Samples.shopService) =
    ([] ++ [ {| ruleCondition := "contains:cancel"; message := "sorry" |} ])%list /\
  @matchesCondition rejectingEngine "I want to cancel" "contains:cancel" = true /\
  @processUserInput rejectingEngine Samples.shopService Samples.failingModel
    Samples.clock "I want to cancel" =
  ({| turnResponse := "sorry"; nextState := None; disqualified := true |},
   Samples.shopService).
Proof.
  split; [reflexivity|]. split; [reflexivity|]. split; [reflexivity|].
  apply (@C1_disqualification_ends_turn rejectingEngine Samples.shopService
           Samples.failingModel Samples.clock "I want to cancel" []
           {| ruleCondition := "contains:cancel"; message := "sorry" |} []).
  - reflexivity.
  - reflexivity.
  - intros r' [].
  - reflexivity.
Defined.

Lemma C7_long_runs_collapse_to_two_witness :
  @ruleStage rejectingEngine Samples.shopService Samples.clock "maybe later"
    = inr Samples.shopEscalated /\
  openai Samples.shopEscalated = true /\
  Utf16.ofString
    (turnResponse (fst (@processUserInput rejectingEngine Samples.shopService
                          Samples.chattyModel Samples.clock "maybe later")))
    = Utf16.ofString "I see, thanks." /\
  Utf16.fixDuplication [97; 97; 97; 97; 98; 98]%N = [97; 97; 98; 98]%N /\
  Utf16.fixDuplication [8232; 8232; 8232]%N = [8232; 8232; 8232]%N /\
  Utf16.fixDuplication [55357; 56832; 55357; 56832; 55357; 56832]%N
    = [55357; 56832; 55357; 56832; 55357; 56832]%N.
Proof.
  destruct (@C7_long_runs_collapse_to_two rejectingEngine) as [_ [Hruns [_ Hturn]]].
  split; [reflexivity|]. split; [reflexivity|]. split.
  - rewrite (Hturn Samples.shopService Samples.chattyModel Samples.clock "maybe later"
               Samples.shopEscalated "I seee, thanks." eq_refl eq_refl eq_refl).
    reflexivity.
  - rewrite !Hruns. repeat split; reflexivity.
Defined.

(** C8, the claim as written fails: after a failed model call the session
    differs from the one before the turn -- the response is logged and the
    used-model flag is set -- and where the matched transition points at a
    state without a definition even currentStateId has moved. *)
Lemma C8_failed_turn_leaves_traces :
  fst (@processUserInput rejectingEngine Samples.shopService Samples.failingModel
         Samples.clock "maybe later")
    = {| turnResponse := apology; nextState := None; disqualified := false |} /\
  userResponses (memory Samples.shopService) = [] /\
  userResponses
    (memory (snd (@processUserInput rejectingEngine Samples.shopService
                    Samples.failingModel Samples.clock "maybe later")))
    = [ ("greeting",
         {| value := "maybe later"; valid := true; timestamp := Samples.clock |}) ] /\
  usedLLM (memory Samples.shopService) = false /\
  usedLLM
    (memory (snd (@processUserInput rejectingEngine Samples.shopService
                    Samples.failingModel Samples.clock "maybe later")))
    = true /\
  fst (@processUserInput rejectingEngine Samples.danglingService Samples.failingModel
         Samples.clock "yes")
    = {| turnResponse := apology; nextState := None; disqualified := false |} /\
  currentState (memory Samples.danglingService) = "greeting" /\
  currentState
    (memory (snd (@processUserInput rejectingEngine Samples.danglingService
                    Samples.failingModel Samples.clock "yes")))
    = "confirm".
Proof. repeat split; reflexivity. Qed.

Lemma C8_model_failure_apologises_witness :
  @ruleStage rejectingEngine Samples.shopService Samples.clock "maybe later"
    = inr Samples.shopEscalated /\
  openai Samples.shopEscalated = true /\
  fst (@getNextState rejectingEngine (memory Samples.shopService) "maybe later") = None /\
  fst (@processUserInput rejectingEngine Samples.shopService Samples.malformedModel
         Samples.clock "maybe later")
    = {| turnResponse := apology; nextState := None; disqualified := false |} /\
  currentState
    (memory (snd (@processUserInput rejectingEngine Samples.shopService
                    Samples.malformedModel Samples.clock "maybe later")))
    = "greeting".
Proof.
  split; [reflexivity|]. split; [reflexivity|]. split; [reflexivity|].
  destruct (@C8_model_failure_apologises rejectingEngine Samples.shopService
              Samples.malformedModel Samples.clock "maybe later"
              Samples.shopEscalated eq_refl eq_refl (or_intror eq_refl))
    as [Hresult [_ Hframe]].
  split; [exact Hresult|].
  exact (proj1 (Hframe eq_refl)).
Defined.

(** C10, the claim as written fails: with a state keyed by the empty id, the
    first rule-based step moves there and the turn still reaches the model;
    the re-run then finds a transition and its target becomes the nextState,
    although the reply names no state. *)
Lemma C10_rerun_finds_a_transition :
  exists svc1,
    @ruleStage rejectingEngine Samples.loopService Samples.clock "hi" = inr svc1 /\
    openai svc1 = true /\
    let prompt := currentPrompt (memory (beforeCall svc1)) in
    let svc3 := recordUsage (beforeCall svc1) prompt "hi" (polishReply "I seee, thanks.") in
    fst (@getNextState rejectingEngine (memory svc3) "hi") = Some "greeting" /\
    scanReply svc3 (polishReply "I seee, thanks.") = None /\
    nextState (fst (@processUserInput rejectingEngine Samples.loopService
                      Samples.chattyModel Samples.clock "hi"))
      = Some "greeting".
Proof. eexists. repeat split; reflexivity. Qed.

Lemma C10_rerun_returns_null_witness :
  @ruleStage rejectingEngine Samples.shopService Samples.clock "maybe later"
    = inr Samples.shopEscalated /\
  openai Samples.shopEscalated = true /\
  Dict.lookup "" (stateDefinitions (memory Samples.shopService)) = None /\
  nextState (fst (@processUserInput rejectingEngine Samples.shopService
                    Samples.chattyModel Samples.clock "maybe later"))
    = None.
Proof.
  split; [reflexivity|]. split; [reflexivity|]. split; [reflexivity|].
  destruct (@C10_rerun_returns_null rejectingEngine Samples.shopService
              Samples.chattyModel Samples.clock "maybe later"
              Samples.shopEscalated "I seee, thanks."
              eq_refl eq_refl eq_refl eq_refl)
    as [_ Hturn].
  rewrite Hturn. reflexivity.
Defined.

(* ================================================================== *)
(** * Further properties of the engine *)

(** ** More on the string primitives *)

Module JSMore.
Import JS JSFacts.

Lemma trimEnd_idem (s : string) : trimEnd (trimEnd s) = trimEnd s.
Proof.
  induction s as [|c t IH]; simpl; [reflexivity|].
  destruct (trimEnd t) as [|d t'] eqn:Ht.
  - destruct (isWhiteSpace c) eqn:Hc; simpl; [reflexivity|]. now rewrite Hc.
  - simpl in *. rewrite IH. reflexivity.
Qed.

Lemma trimStart_keeps_head (c : ascii) (t : string) :
  isWhiteSpace c = false -> trimStart (String c t) = String c t.
Proof. simpl. now intros ->. Qed.

Lemma trimEnd_head (c : ascii) (t : string) :
  isWhiteSpace c = false -> exists t', trimEnd (String c t) = String c t'.
Proof.
  intros Hc. simpl. destruct (trimEnd t); [rewrite Hc|]; eauto.
Qed.

Lemma trimStart_shape (s : string) :
  trimStart s = EmptyString \/
  exists c t, trimStart s = String c t /\ isWhiteSpace c = false.
Proof.
  induction s as [|c t IH]; simpl; [now left|].
  destruct (isWhiteSpace c) eqn:Hc; [exact IH|]. right. eauto.
Qed.

Lemma trimStart_trim (s : string) : trimStart (trim s) = trim s.
Proof.
  unfold trim. destruct (trimStart_shape s) as [-> | [c [t [-> Hc]]]]; [reflexivity|].
  destruct (trimEnd_head c t Hc) as [t' ->]. now apply trimStart_keeps_head.
Qed.

Lemma trim_idem (s : string) : trim (trim s) = trim s.
Proof.
  unfold trim at 1. rewrite trimStart_trim. unfold trim. apply trimEnd_idem.
Qed.

Lemma truthy_of_nonempty (s : string) : s <> EmptyString -> truthy s = true.
Proof.
  intros H. unfold truthy. destruct (String.eqb_spec s ""); [contradiction | reflexivity].
Qed.

End JSMore.

(** ** More on the condition matcher *)

Section MatcherMore.
Context `{E : RegExpEngine}.
Import JS JSFacts JSMore.

Lemma contains_form (u s : string) :
  includes s "," = false ->
  matchesCondition u ("contains:" ++ s) =
  includes (trim (toLowerCase u)) (trim (toLowerCase s)).
Proof.
  intros Hs. unfold matchesCondition.
  change (toLowerCase ("contains:" ++ s)) with ("contains:" ++ toLowerCase s).
  change (("contains:" ++ toLowerCase s =? "any")%string) with false.
  cbn iota.
  assert (Hc : includes ("contains:" ++ s) "," = false).
  { cbn [append]. rewrite !includes_cons, !prefix_char. exact Hs. }
  rewrite Hc. unfold matchesSingleCondition, startsWith.
  change (String.prefix "contains:" ("contains:" ++ toLowerCase s))
    with (String.prefix "" (toLowerCase s)).
  rewrite prefix_empty. reflexivity.
Qed.

Lemma starts_form (u s : string) :
  includes s "," = false ->
  matchesCondition u ("starts:" ++ s) =
  startsWith (trim (toLowerCase u)) (trim (toLowerCase s)).
Proof.
  intros Hs. unfold matchesCondition.
  change (toLowerCase ("starts:" ++ s)) with ("starts:" ++ toLowerCase s).
  change (("starts:" ++ toLowerCase s =? "any")%string) with false.
  cbn iota.
  assert (Hc : includes ("starts:" ++ s) "," = false).
  { cbn [append]. rewrite !includes_cons, !prefix_char. exact Hs. }
  rewrite Hc. unfold matchesSingleCondition, startsWith.
  change (String.prefix "contains:" ("starts:" ++ toLowerCase s)) with false.
  change (String.prefix "exact:" ("starts:" ++ toLowerCase s)) with false.
  cbn iota.
  change (String.prefix "starts:" ("starts:" ++ toLowerCase s))
    with (String.prefix "" (toLowerCase s)).
  rewrite prefix_empty. reflexivity.
Qed.

Lemma ends_form (u s : string) :
  includes s "," = false ->
  matchesCondition u ("ends:" ++ s) =
  endsWith (trim (toLowerCase u)) (trim (toLowerCase s)).
Proof.
  intros Hs. unfold matchesCondition.
  change (toLowerCase ("ends:" ++ s)) with ("ends:" ++ toLowerCase s).
  change (("ends:" ++ toLowerCase s =? "any")%string) with false.
  cbn iota.
  assert (Hc : includes ("ends:" ++ s) "," = false).
  { cbn [append]. rewrite !includes_cons, !prefix_char. exact Hs. }
  rewrite Hc. unfold matchesSingleCondition, startsWith.
  change (String.prefix "contains:" ("ends:" ++ toLowerCase s)) with false.
  change (String.prefix "exact:" ("ends:" ++ toLowerCase s)) with false.
  change (String.prefix "starts:" ("ends:" ++ toLowerCase s)) with false.
  cbn iota.
  change (String.prefix "ends:" ("ends:" ++ toLowerCase s))
    with (String.prefix "" (toLowerCase s)).
  rewrite prefix_empty. reflexivity.
Qed.

(** X1: a condition [contains:s], [starts:s] or [ends:s] whose text [s] has
    no comma is a substring, prefix or suffix test of the trimmed,
    lower-cased [s] on the trimmed, lower-cased utterance.  The prefix is
    recognised before anything else, so pattern characters in [s] are taken
    literally and the regular-expression engine is never consulted. *)
Theorem X1_prefixed_forms_are_literal (u s : string) :
  includes s "," = false ->
  matchesCondition u ("contains:" ++ s) =
    includes (trim (toLowerCase u)) (trim (toLowerCase s)) /\
  matchesCondition u ("starts:" ++ s) =
    startsWith (trim (toLowerCase u)) (trim (toLowerCase s)) /\
  matchesCondition u ("ends:" ++ s) =
    endsWith (trim (toLowerCase u)) (trim (toLowerCase s)).
Proof.
  intros Hs. repeat split;
    [now apply contains_form | now apply starts_form | now apply ends_form].
Qed.

(** X2: white space around the utterance does not matter to the matcher. *)
Theorem X2_utterance_is_trimmed (u c : string) :
  matchesCondition (trim u) c = matchesCondition u c.
Proof.
  unfold matchesCondition.
  now rewrite <- (trim_lower u), trim_idem, (trim_lower u).
Qed.

Lemma matches_empty_option (r : string) : matchesSingleCondition r "" = true.
Proof.
  unfold matchesSingleCondition. cbn [startsWith String.prefix].
  change (includes "" "*" || includes "" "+" || includes "" "?" || includes "" "|")
    with false.
  cbn iota. destruct (_ && _); [reflexivity|].
  destruct r; reflexivity.
Qed.

(** X3: the empty condition, and a comma list with an alternative that is
    empty once trimmed (a trailing comma, say), match every utterance. *)
Theorem X3_empty_alternative_matches_all :
  (forall u, matchesCondition u "" = true) /\
  (forall u c opt,
     includes c "," = true -> In opt (split "," c) -> trim opt = "" ->
     matchesCondition u c = true).
Proof.
  split.
  - intros u. unfold matchesCondition. cbn [toLowerCase String.eqb includes String.prefix].
    cbn iota. apply matches_empty_option.
  - intros u c opt Hcomma Hin Hopt.
    apply (matchesCondition_alternatives u c Hcomma).
    exists opt. split; [exact Hin|]. rewrite Hopt. apply matches_empty_option.
Qed.

Lemma existsb_nonempty {A : Type} (f : A -> bool) (l : list A) :
  (0 <? List.length l) && existsb f l = existsb f l.
Proof. destruct l; reflexivity. Qed.

Lemma plain_single (r cond : string) :
  plainCondition cond = true ->
  matchesSingleCondition r cond =
  existsb (fun w => includes cond w) (repeatedWords (splitWs r)) || includes r cond.
Proof.
  unfold plainCondition. intros H.
  repeat (apply andb_true_iff in H as [H ?]).
  repeat match goal with
         | h : negb _ = true |- _ => apply negb_true_iff in h
         end.
  unfold matchesSingleCondition.
  repeat match goal with
         | h : _ = false |- _ => rewrite h
         end.
  cbn iota. rewrite existsb_nonempty.
  destruct (existsb _ _); reflexivity.
Qed.

(** X4: for a condition without comma, prefix or pattern character, the
    matcher answers true exactly when the lower-cased condition is a substring
    of the normalised utterance, or some word of the utterance that
    immediately repeats the word before it is a substring of the condition. *)
Theorem X4_plain_condition_rules (u c : string) :
  toLowerCase c <> "any" ->
  includes c "," = false ->
  plainCondition (toLowerCase c) = true ->
  matchesCondition u c =
  existsb (fun w => includes (toLowerCase c) w)
          (repeatedWords (splitWs (trim (toLowerCase u))))
  || includes (trim (toLowerCase u)) (toLowerCase c).
Proof.
  intros Hany Hcomma Hplain. unfold matchesCondition.
  destruct (String.eqb_spec (toLowerCase c) "any") as [e|_]; [contradiction|].
  rewrite Hcomma. now apply plain_single.
Qed.

End MatcherMore.

Lemma X1_prefixed_forms_are_literal_witness :
  JS.includes "a*b" "," = false /\
  @matchesCondition rejectingEngine "  Say A*B now " ("contains:" ++ "a*b") = true /\
  @matchesCondition rejectingEngine "a-b" ("contains:" ++ "a*b") = false /\
  @matchesCondition rejectingEngine "A*B now" ("starts:" ++ "a*b") = true /\
  @matchesCondition rejectingEngine "now a*b" ("ends:" ++ "a*b") = true.
Proof.
  split; [reflexivity|].
  destruct (@X1_prefixed_forms_are_literal rejectingEngine "  Say A*B now " "a*b" eq_refl)
    as [Hc _].
  destruct (@X1_prefixed_forms_are_literal rejectingEngine "a-b" "a*b" eq_refl)
    as [Hc' _].
  destruct (@X1_prefixed_forms_are_literal rejectingEngine "A*B now" "a*b" eq_refl)
    as [_ [Hs _]].
  destruct (@X1_prefixed_forms_are_literal rejectingEngine "now a*b" "a*b" eq_refl)
    as [_ [_ He]].
  rewrite Hc, Hc', Hs, He. repeat split; reflexivity.
Defined.

Lemma X3_empty_alternative_matches_all_witness :
  JS.includes "yes, " "," = true /\
  In " " (JS.split "," "yes, ") /\
  JS.trim " " = "" /\
  @matchesCondition rejectingEngine "certainly not" "yes, " = true.
Proof.
  split; [reflexivity|]. split; [right; left; reflexivity|]. split; [reflexivity|].
  apply (proj2 (@X3_empty_alternative_matches_all rejectingEngine)
           "certainly not" "yes, " " "); [reflexivity | right; left; reflexivity | reflexivity].
Defined.

Lemma X4_plain_condition_rules_witness :
  JS.toLowerCase "Not now" <> "any" /\
  JS.includes "Not now" "," = false /\
  plainCondition (JS.toLowerCase "Not now") = true /\
  JS.includes (JS.trim (JS.toLowerCase "No no")) (JS.toLowerCase "Not now") = false /\
  @matchesCondition rejectingEngine "No no" "Not now" = true.
Proof.
  split; [discriminate|]. split; [reflexivity|]. split; [reflexivity|].
  split; [reflexivity|].
  rewrite (@X4_plain_condition_rules rejectingEngine "No no" "Not now");
    [reflexivity | discriminate | reflexivity | reflexivity].
Defined.

(** ** Dictionaries *)

Module DictFacts.

Section WithValue.
Context {V : Type}.

Lemma lookup_assign_same (k : string) (v : V) (d : list (string * V)) :
  Dict.lookup k (Dict.assign k v d) = Some v.
Proof.
  induction d as [|[k' v'] rest IH]; simpl.
  - now rewrite String.eqb_refl.
  - destruct (String.eqb_spec k' k) as [->|Hne]; simpl.
    + now rewrite String.eqb_refl.
    + destruct (String.eqb_spec k' k); [contradiction | exact IH].
Qed.

Lemma lookup_assign_other (k k' : string) (v : V) (d : list (string * V)) :
  k' <> k -> Dict.lookup k' (Dict.assign k v d) = Dict.lookup k' d.
Proof.
  intros Hne. induction d as [|[k0 v0] rest IH]; simpl.
  - destruct (String.eqb_spec k k'); [congruence | reflexivity].
  - destruct (String.eqb_spec k0 k) as [->|Hk]; simpl.
    + destruct (String.eqb_spec k k'); [congruence | reflexivity].
    + destruct (String.eqb_spec k0 k'); [reflexivity | exact IH].
Qed.


Lemma lookup_in (k : string) (v : V) (d : list (string * V)) :
  Dict.lookup k d = Some v -> In (k, v) d.
Proof.
  induction d as [|[k' v'] rest IH]; simpl; [discriminate|].
  destruct (String.eqb_spec k' k) as [->|Hne].
  - intros [= ->]. now left.
  - intros H. right. now apply IH.
Qed.

Lemma in_lookup (k : string) (v : V) (d : list (string * V)) :
  In (k, v) d -> Dict.lookup k d <> None.
Proof.
  induction d as [|[k' v'] rest IH]; simpl; [contradiction|].
  intros [[= -> ->] | Hin].
  - now rewrite String.eqb_refl.
  - destruct (String.eqb_spec k' k); [discriminate | now apply IH].
Qed.

End WithValue.

End DictFacts.

(** ** Storing a response *)

Section Store.
Import JS JSFacts DictFacts.

Lemma storeResponse_userResponses (m : AgentMemory) (q r : string) (v : bool)
    (now : string) :
  userResponses (storeResponse m q r v now) =
  Dict.assign q {| value := r; valid := v; timestamp := now |} (userResponses m).
Proof.
  unfold storeResponse. cbn [setUserResponse currentState stateDefinitions].
  destruct (Dict.lookup (currentState m) (stateDefinitions m)) as [sd|];
    [destruct (truthy (expectedInputs sd))|]; reflexivity.
Qed.


Lemma storeResponse_with_hint (m : AgentMemory) (q r : string) (v : bool)
    (now : string) (sd : StateDefinition) :
  Dict.lookup (currentState m) (stateDefinitions m) = Some sd ->
  expectedInputs sd <> "" ->
  let hint := toLowerCase (expectedInputs sd) in
  contextualData (storeResponse m q r v now) =
    Dict.assign (contextKeyFor hint) r (contextualData m) /\
  transitionHistory (storeResponse m q r v now) =
    (transitionHistory m ++
     [ {| from := currentState m; to := currentState m;
          reason := "Form data update: " ++ hint |} ])%list.
Proof.
  intros Hsd Hhint hint. unfold storeResponse.
  cbn [setUserResponse currentState stateDefinitions]. rewrite Hsd.
  destruct (truthy (expectedInputs sd)) eqn:Ht.
  - split; reflexivity.
  - apply truthy_false_iff in Ht. contradiction.
Qed.

Lemma storeResponse_without_hint (m : AgentMemory) (q r : string) (v : bool)
    (now : string) :
  Dict.lookup (currentState m) (stateDefinitions m) = None \/
  (exists sd, Dict.lookup (currentState m) (stateDefinitions m) = Some sd /\
              expectedInputs sd = "") ->
  contextualData (storeResponse m q r v now) = contextualData m /\
  transitionHistory (storeResponse m q r v now) = transitionHistory m.
Proof.
  intros H. unfold storeResponse.
  cbn [setUserResponse currentState stateDefinitions].
  destruct H as [-> | [sd [-> Hhint]]]; [split; reflexivity|].
  rewrite Hhint. split; reflexivity.
Qed.

(** X6: when the current state has a non-empty expected-input hint,
    [storeResponse] files the raw response under the key derived from the
    lower-cased hint -- userName, userCompany and the like for the eight named
    kinds of hint, and otherwise user followed by the hint with its first
    letter in upper case, a sharp s becoming SS -- overwriting what was there
    and leaving every other fact alone, and appends one same-state entry
    "Form data update: <hint>" to the transition history.  (The hint is taken
    to begin with a letter whose capital lies in the Latin-1 range.)  When the
    current state has no definition or no hint, the facts and the history are
    left as they were. *)
Theorem X6_fact_extraction (m : AgentMemory) (q r : string) (v : bool) (now : string) :
  let m' := storeResponse m q r v now in
  (forall sd,
     Dict.lookup (currentState m) (stateDefinitions m) = Some sd ->
     expectedInputs sd <> "" ->
     let hint := toLowerCase (expectedInputs sd) in
     capitalisable hint = true ->
     Dict.lookup (contextKeyFor hint) (contextualData m') = Some r /\
     (forall k, k <> contextKeyFor hint ->
        Dict.lookup k (contextualData m') = Dict.lookup k (contextualData m)) /\
     startsWith (contextKeyFor hint) "user" = true /\
     transitionHistory m' =
       (transitionHistory m ++
        [ {| from := currentState m; to := currentState m;
             reason := "Form data update: " ++ hint |} ])%list) /\
  (Dict.lookup (currentState m) (stateDefinitions m) = None \/
   (exists sd, Dict.lookup (currentState m) (stateDefinitions m) = Some sd /\
               expectedInputs sd = "") ->
   contextualData m' = contextualData m /\
   transitionHistory m' = transitionHistory m).
Proof.
  cbn zeta. split.
  - intros sd Hsd Hhint _.
    destruct (storeResponse_with_hint m q r v now sd Hsd Hhint) as [Hctx Hhist].
    cbn zeta in Hctx, Hhist. rewrite Hctx, Hhist.
    split; [apply lookup_assign_same|]. split; [|split; [|reflexivity]].
    + intros k Hk. now apply lookup_assign_other.
    + unfold contextKeyFor.
      repeat match goal with
             | |- context [if ?b then _ else _] => destruct b; [reflexivity|]
             end.
      match goal with
      | |- startsWith ("user" ++ ?x) _ = true => generalize x
      end.
      intros x. unfold startsWith. cbn. apply prefix_empty.
  - apply storeResponse_without_hint.
Qed.

Lemma contextKeyFor_not_business (hint : string) :
  isBusinessKey (contextKeyFor hint) = false.
Proof.
  unfold contextKeyFor.
  repeat match goal with
         | |- context [if ?b then _ else _] => destruct b; [reflexivity|]
         end.
  reflexivity.
Qed.

Lemma storeResponse_business_keys (m : AgentMemory) (q r : string) (v : bool)
    (now k : string) :
  isBusinessKey k = true ->
  Dict.lookup k (contextualData (storeResponse m q r v now)) =
  Dict.lookup k (contextualData m).
Proof.
  intros Hk.
  destruct (Dict.lookup (currentState m) (stateDefinitions m)) as [sd|] eqn:Hsd.
  - destruct (String.eqb_spec (expectedInputs sd) "") as [He|Hne].
    + destruct (storeResponse_without_hint m q r v now) as [-> _]; eauto.
    + destruct (storeResponse_with_hint m q r v now sd Hsd Hne) as [Hctx _].
      cbn zeta in Hctx. rewrite Hctx. apply lookup_assign_other.
      intros ->. rewrite contextKeyFor_not_business in Hk. discriminate.
  - destruct (storeResponse_without_hint m q r v now) as [-> _]; eauto.
Qed.

End Store.

(** ** The rule-based step *)

Section NextState.
Context `{E : RegExpEngine}.
Import JS JSFacts DictFacts.

Lemma firstTransition_first (input : string) (pre : list Transition)
    (t : Transition) (post : list Transition) :
  (forall t', In t' pre -> matchesCondition input (condition t') = false) ->
  matchesCondition input (condition t) = true ->
  firstTransition input (pre ++ t :: post)%list = Some t.
Proof.
  intros Hpre Ht. induction pre as [|p pre IH]; simpl.
  - now rewrite Ht.
  - rewrite (Hpre p (or_introl eq_refl)). apply IH.
    intros t' Hin. apply Hpre. now right.
Qed.

Lemma firstTransition_some (input : string) (ts : list Transition) (t : Transition) :
  firstTransition input ts = Some t ->
  In t ts /\ matchesCondition input (condition t) = true.
Proof.
  induction ts as [|p ts IH]; simpl; [discriminate|].
  destruct (matchesCondition input (condition p)) eqn:Hp.
  - intros [= ->]. split; [now left | exact Hp].
  - intros H. destruct (IH H). split; [now right | assumption].
Qed.

Lemma firstTransition_none (input : string) (ts : list Transition) :
  firstTransition input ts = None <->
  forall t, In t ts -> matchesCondition input (condition t) = false.
Proof.
  induction ts as [|p ts IH]; simpl.
  - split; [intros _ t [] | reflexivity].
  - destruct (matchesCondition input (condition p)) eqn:Hp.
    + split; [discriminate|]. intros H.
      specialize (H p (or_introl eq_refl)). congruence.
    + rewrite IH. split.
      * intros H t [<- | Hin]; [exact Hp | now apply H].
      * intros H t Hin. apply H. now right.
Qed.

Lemma firstTransition_existsb (input : string) (ts : list Transition) :
  existsb (fun t => matchesCondition input (condition t)) ts =
  match firstTransition input ts with Some _ => true | None => false end.
Proof.
  induction ts as [|p ts IH]; simpl; [reflexivity|].
  destruct (matchesCondition input (condition p)); [reflexivity | exact IH].
Qed.

(** X7: [getNextState] takes the first transition of the current state
    whose condition matches: it returns that transition's target, makes it
    the current state and appends the entry (from, to, condition) to the
    history, touching nothing else.  It returns null exactly when the current
    state has no definition, or no transition list, or no matching
    transition, and then the memory is left as it was. *)
Theorem X7_first_matching_transition (m : AgentMemory) (input : string) :
  (forall sd pre t post,
     Dict.lookup (currentState m) (stateDefinitions m) = Some sd ->
     transitions sd = Some (pre ++ t :: post)%list ->
     (forall t', In t' pre -> matchesCondition input (condition t') = false) ->
     matchesCondition input (condition t) = true ->
     getNextState m input =
     (Some (targetState t),
      setCurrentState
        (pushHistory m {| from := currentState m; to := targetState t;
                          reason := condition t |})
        (targetState t))) /\
  (fst (getNextState m input) = None <->
   Dict.lookup (currentState m) (stateDefinitions m) = None \/
   exists sd, Dict.lookup (currentState m) (stateDefinitions m) = Some sd /\
     (transitions sd = None \/
      exists ts, transitions sd = Some ts /\
        forall t, In t ts -> matchesCondition input (condition t) = false)) /\
  (fst (getNextState m input) = None -> snd (getNextState m input) = m).
Proof.
  split; [|split].
  - intros sd pre t post Hsd Hts Hpre Ht. unfold getNextState.
    now rewrite Hsd, Hts, (firstTransition_first _ _ _ _ Hpre Ht).
  - unfold getNextState.
    destruct (Dict.lookup (currentState m) (stateDefinitions m)) as [sd|].
    + destruct (transitions sd) as [ts|] eqn:Hts.
      * destruct (firstTransition input ts) as [t|] eqn:Hft; cbn [fst].
        -- split; [discriminate|].
           intros [Hn | [sd' [Hsd' Hrest]]]; [discriminate|].
           assert (sd' = sd) by congruence. subst sd'.
           destruct Hrest as [Hn | [ts' [Hts' Hall]]]; [congruence|].
           assert (ts' = ts) by congruence. subst ts'.
           apply firstTransition_none in Hall. congruence.
        -- split; [|reflexivity]. intros _. right. exists sd.
           split; [reflexivity|]. right. exists ts. split; [exact Hts|].
           now apply firstTransition_none.
      * cbn [fst]. split; [|reflexivity]. intros _. right. exists sd.
        split; [reflexivity|]. now left.
    + cbn [fst]. split; [|reflexivity]. intros _. now left.
  - intros Hnone. now rewrite (getNextState_none m input Hnone).
Qed.

(** X8: the escalation policy and the state machine.  For an utterance
    that is not a question (ending in "?" and longer than 10 characters):
    if the rule-based step finds a transition and the hint of the current
    state is not open-ended, [shouldUseLLM] answers false; and if
    [shouldUseLLM] answers false, then the rule-based step finds a transition,
    or some transition condition is "any" once lower-cased and trimmed. *)
Theorem X8_policy_agrees_with_state_machine (m : AgentMemory) (resp : string) :
  isLongQuestion resp = false ->
  (forall sd,
     Dict.lookup (currentState m) (stateDefinitions m) = Some sd ->
     openEndedHint (toLowerCase (expectedInputs sd)) = false ->
     fst (getNextState m resp) <> None ->
     shouldUseLLM m resp = false) /\
  (shouldUseLLM m resp = false ->
   fst (getNextState m resp) <> None \/
   exists sd ts t,
     Dict.lookup (currentState m) (stateDefinitions m) = Some sd /\
     transitions sd = Some ts /\ In t ts /\
     trim (toLowerCase (condition t)) = "any").
Proof.
  intros Hq. unfold isLongQuestion in Hq. split.
  - intros sd Hsd Hhint Hnext. unfold shouldUseLLM. rewrite Hq, Hsd.
    unfold getNextState in Hnext. rewrite Hsd in Hnext.
    destruct (transitions sd) as [ts|]; [|now elim Hnext].
    rewrite Hhint, firstTransition_existsb.
    destruct (firstTransition resp ts); [|now elim Hnext].
    destruct (_ || _); [|reflexivity].
    destruct (existsb _ ts); reflexivity.
  - unfold shouldUseLLM, getNextState. rewrite Hq.
    destruct (Dict.lookup (currentState m) (stateDefinitions m)) as [sd|] eqn:Hsd;
      [|discriminate].
    destruct (transitions sd) as [ts|] eqn:Hts; [|discriminate].
    destruct (openEndedHint _); [discriminate|].
    rewrite firstTransition_existsb.
    destruct (firstTransition resp ts) as [t|].
    + intros _. left. discriminate.
    + destruct (_ || _); [|discriminate].
      destruct (existsb _ ts) eqn:Hany; [|discriminate].
      intros _. right. apply existsb_exists in Hany as [t [Hin Ht]].
      exists sd, ts, t. split; [reflexivity|]. split; [exact Hts|].
      split; [exact Hin|]. now apply String.eqb_eq.
Qed.

End NextState.

(** ** What a turn changes *)

Section TurnFrame.
Context `{E : RegExpEngine}.
Import JS JSFacts DictFacts.

Lemma logsFrom_refl (m : AgentMemory) : logsFrom m m 0.
Proof.
  repeat split. exists []. split; [now rewrite app_nil_r | reflexivity].
Qed.

Lemma logsFrom_weaken (a b : AgentMemory) (n k : nat) :
  logsFrom a b n -> n <= k -> logsFrom a b k.
Proof.
  intros [Hc [Hu [suffix [Hh Hl]]]] Hnk. repeat split; try assumption.
  exists suffix. split; [assumption | lia].
Qed.

Lemma logsFrom_trans (a b c : AgentMemory) (n k : nat) :
  logsFrom a b n -> logsFrom b c k -> logsFrom a c (n + k).
Proof.
  intros [Hc [Hu [s1 [Hh Hl]]]] [Hc' [Hu' [s2 [Hh' Hl']]]].
  split; [congruence|]. split; [congruence|].
  exists (s1 ++ s2)%list. split.
  - now rewrite Hh', Hh, app_assoc.
  - rewrite length_app. lia.
Qed.

Lemma sameConfiguration_refl (m : AgentMemory) : sameConfiguration m m.
Proof. repeat split. Qed.

Lemma sameConfiguration_trans (a b c : AgentMemory) :
  sameConfiguration a b -> sameConfiguration b c -> sameConfiguration a c.
Proof.
  intros [H1 [H2 H3]] [H1' [H2' H3']]. repeat split; congruence.
Qed.

(** The two things the rule-based step can do to a memory. *)
Lemma getNextState_effect (m : AgentMemory) (input : string) :
  getNextState m input = (None, m) \/
  exists sd ts t,
    Dict.lookup (currentState m) (stateDefinitions m) = Some sd /\
    transitions sd = Some ts /\ In t ts /\
    matchesCondition input (condition t) = true /\
    getNextState m input =
    (Some (targetState t),
     setCurrentState
       (pushHistory m {| from := currentState m; to := targetState t;
                         reason := condition t |})
       (targetState t)).
Proof.
  unfold getNextState.
  destruct (Dict.lookup (currentState m) (stateDefinitions m)) as [sd|] eqn:Hsd;
    [|now left].
  destruct (transitions sd) as [ts|] eqn:Hts; [|now left].
  destruct (firstTransition input ts) as [t|] eqn:Hft; [|now left].
  right. destruct (firstTransition_some _ _ _ Hft) as [Hin Hm].
  exists sd, ts, t. repeat split; assumption.
Qed.

Lemma getNextState_logs (m : AgentMemory) (input : string) :
  let m' := snd (getNextState m input) in
  logsFrom m m' 1 /\ sameConfiguration m m' /\
  tokenUsage m' = tokenUsage m /\ usedLLM m' = usedLLM m /\
  currentPrompt m' = currentPrompt m.
Proof.
  cbn zeta.
  destruct (getNextState_effect m input) as [-> | [sd [ts [t [_ [_ [_ [_ ->]]]]]]]];
    cbn [snd].
  - split; [apply (logsFrom_weaken m m 0 1 (logsFrom_refl m)); lia|].
    repeat split.
  - split; [|repeat split].
    split; [reflexivity|]. split; [reflexivity|].
    eexists. split; [reflexivity | simpl; lia].
Qed.

Lemma determineState_snd (svc : KaniService) (resp input : string) :
  snd (determineStateFromLLMResponse svc resp input) =
  setMemory svc (snd (getNextState (memory svc) input)).
Proof.
  unfold determineStateFromLLMResponse.
  destruct (getNextState (memory svc) input) as [[s|] m1]; cbn [snd];
    [destruct (truthy s)|]; reflexivity.
Qed.

Lemma sameService_setMemory (svc : KaniService) (m : AgentMemory) :
  sameService svc (setMemory svc m).
Proof. repeat split. Qed.

(** The memory after the fallback, whatever the model does. *)
Lemma llmFallback_memory (svc : KaniService) (llm : ChatModel) (input : string) :
  let svc' := snd (llmFallback svc llm input) in
  sameService svc svc' /\
  sameConfiguration (memory svc) (memory svc') /\
  logsFrom (memory svc) (memory svc') 1 /\
  usedLLM (memory svc') = true.
Proof.
  cbn zeta. unfold llmFallback. cbn [openai setMemory].
  destruct (openai svc) eqn:Hopen; cbn [negb].
  - destruct (llm _ _ _) as [| |text].
    + cbn [snd]. repeat split. exists []. split; [now rewrite app_nil_r | simpl; lia].
    + cbn [snd]. repeat split. exists []. split; [now rewrite app_nil_r | simpl; lia].
    + set (svc3 := recordUsage _ _ _ _).
      pose proof (determineState_snd svc3 (polishReply text) input) as Hsnd.
      destruct (determineStateFromLLMResponse svc3 (polishReply text) input)
        as [next svc4].
      cbn [snd] in *. subst svc4.
      destruct (getNextState_logs (memory svc3) input) as [Hl [Hc [_ [Hu _]]]].
      cbn zeta in Hl, Hc, Hu. cbn [memory setMemory].
      split; [repeat split|]. split; [exact Hc|]. split; [exact Hl | exact Hu].
  - cbn [snd]. repeat split. exists []. split; [now rewrite app_nil_r | simpl; lia].
Qed.

(** The memory at the end of the deterministic part of the turn. *)
Lemma ruleStage_memory (svc : KaniService) (now input : string) :
  let m := memory svc in
  let m1 := storeResponse m (currentState m) input true now in
  let svc' := match ruleStage svc now input with
              | inl (_, s) => s
              | inr s => s
              end in
  sameService svc svc' /\
  sameConfiguration m (memory svc') /\
  tokenUsage (memory svc') = tokenUsage m /\
  if passesFilters svc input then logsFrom m1 (memory svc') 1
  else logsFrom m (memory svc') 0.
Proof.
  cbn zeta. unfold ruleStage, passesFilters.
  destruct (truthy _) eqn:Hkb; cbn [negb andb].
  - cbn [memory setMemory]. repeat split.
    exists []. split; [now rewrite app_nil_r | reflexivity].
  - destruct (isDisqualified (memory svc) input) as [msg|].
    + repeat split. exists []. split; [now rewrite app_nil_r | reflexivity].
    + set (m1 := storeResponse (memory svc) (currentState (memory svc)) input true now).
      destruct (storeResponse_frame (memory svc) (currentState (memory svc))
                  input true now) as [_ [Hd [Ht [Hr Hk]]]].
      fold m1 in Hd, Ht, Hr, Hk.
      destruct (getNextState_logs m1 input) as [Hl [[Hc1 [Hc2 Hc3]] [Htok _]]].
      cbn zeta in Hl, Hc1, Hc2, Hc3, Htok.
      destruct (getNextState m1 input) as [next m2]. cbn [snd] in *.
      assert (Hcfg : sameConfiguration (memory svc) m2)
        by (repeat split; congruence).
      assert (Htk : tokenUsage m2 = tokenUsage (memory svc)) by congruence.
      destruct (if truthy match next with Some s => s | None => "" end
                then getCurrentStateDefinition m2 else Dict.Absent);
        cbn [memory setMemory]; repeat split; try apply Hcfg; try exact Htk;
        try apply Hl.
Qed.

Lemma sameService_trans (a b c : KaniService) :
  sameService a b -> sameService b c -> sameService a c.
Proof.
  intros [H1 [H2 [H3 [H4 H5]]]] [H1' [H2' [H3' [H4' H5']]]].
  repeat split; congruence.
Qed.

Lemma ruleStage_inr_passes (svc : KaniService) (now input : string) (s : KaniService) :
  ruleStage svc now input = inr s -> passesFilters svc input = true.
Proof.
  unfold ruleStage, passesFilters.
  destruct (truthy _); [discriminate|].
  destruct (isDisqualified (memory svc) input); [discriminate | reflexivity].
Qed.

(** The whole turn. *)
Lemma processUserInput_memory (svc : KaniService) (llm : ChatModel)
    (now input : string) :
  let m := memory svc in
  let m1 := storeResponse m (currentState m) input true now in
  let svc' := snd (processUserInput svc llm now input) in
  sameService svc svc' /\
  sameConfiguration m (memory svc') /\
  if passesFilters svc input then logsFrom m1 (memory svc') 2
  else logsFrom m (memory svc') 0.
Proof.
  cbn zeta. pose proof (ruleStage_memory svc now input) as H. cbn zeta in H.
  unfold processUserInput.
  destruct (ruleStage svc now input) as [[r s] | s] eqn:Hstage.
  - destruct H as [Hs [Hc [_ Hl]]]. cbn [snd].
    split; [exact Hs|]. split; [exact Hc|].
    destruct (passesFilters svc input); [|exact Hl].
    apply (logsFrom_weaken _ _ 1 2 Hl). lia.
  - destruct H as [Hs [Hc [_ Hl]]].
    destruct (llmFallback_memory s llm input) as [Hs' [Hc' [Hl' _]]].
    cbn zeta in Hs', Hc', Hl'.
    split; [exact (sameService_trans _ _ _ Hs Hs')|].
    split; [exact (sameConfiguration_trans _ _ _ Hc Hc')|].
    rewrite (ruleStage_inr_passes _ _ _ _ Hstage) in *.
    exact (logsFrom_trans _ _ _ 1 1 Hl Hl').
Qed.

End TurnFrame.

(** ** Properties of a whole turn *)

Section TurnProperties.
Context `{E : RegExpEngine}.
Import JS JSFacts DictFacts.

(** X9: a turn never rewrites the configuration: the state definitions,
    the disqualification rules and the knowledge base held by the memory, and
    the client flag, business, API key, model name and response delay of the
    service are the same after [processUserInput] as before, whatever the
    utterance and whatever the model does. *)
Theorem X9_turn_keeps_configuration (svc : KaniService) (llm : ChatModel)
    (now input : string) :
  let svc' := snd (processUserInput svc llm now input) in
  sameService svc svc' /\ sameConfiguration (memory svc) (memory svc').
Proof.
  cbn zeta.
  destruct (processUserInput_memory svc llm now input) as [Hs [Hc _]].
  split; assumption.
Qed.

Lemma storeResponse_history (m : AgentMemory) (q r : string) (v : bool) (now : string) :
  exists suffix,
    transitionHistory (storeResponse m q r v now) =
      (transitionHistory m ++ suffix)%list /\
    List.length suffix <= 1.
Proof.
  destruct (Dict.lookup (currentState m) (stateDefinitions m)) as [sd|] eqn:Hsd.
  - destruct (String.eqb_spec (expectedInputs sd) "") as [He|Hne].
    + destruct (storeResponse_without_hint m q r v now) as [_ ->]; [eauto|].
      exists []. split; [now rewrite app_nil_r | simpl; lia].
    + destruct (storeResponse_with_hint m q r v now sd Hsd Hne) as [_ Hh].
      cbn zeta in Hh. rewrite Hh. eexists. split; [reflexivity | simpl; lia].
  - destruct (storeResponse_without_hint m q r v now) as [_ ->]; [eauto|].
    exists []. split; [now rewrite app_nil_r | simpl; lia].
Qed.

(** X10: the transition history is append-only.  A turn keeps every entry
    in place and adds at most three (the form-data entry, the transition
    taken, and a transition taken by the re-run after a model reply); a turn
    answered from the knowledge base or ended by a disqualification rule adds
    none.  So [getTransitionCount] never decreases. *)
Theorem X10_history_is_append_only (svc : KaniService) (llm : ChatModel)
    (now input : string) :
  let before := transitionHistory (memory svc) in
  let after := transitionHistory (memory (snd (processUserInput svc llm now input))) in
  (exists suffix, after = (before ++ suffix)%list /\ List.length suffix <= 3) /\
  List.length before <= List.length after /\
  (passesFilters svc input = false -> after = before).
Proof.
  cbn zeta.
  destruct (processUserInput_memory svc llm now input) as [_ [_ Hl]].
  cbn zeta in Hl.
  assert (Hsuffix : exists suffix,
            transitionHistory (memory (snd (processUserInput svc llm now input))) =
              (transitionHistory (memory svc) ++ suffix)%list /\
            List.length suffix <= 3).
  { destruct (passesFilters svc input).
    - destruct Hl as [_ [_ [s2 [Hh Hlen]]]].
      destruct (storeResponse_history (memory svc) (currentState (memory svc))
                  input true now) as [s1 [Hh1 Hlen1]].
      exists (s1 ++ s2)%list. split.
      + now rewrite Hh, Hh1, app_assoc.
      + rewrite length_app. lia.
    - destruct Hl as [_ [_ [s2 [Hh Hlen]]]].
      exists s2. split; [exact Hh | lia]. }
  split; [exact Hsuffix|]. split.
  - destruct Hsuffix as [s [-> _]]. rewrite length_app. lia.
  - intros Hp. rewrite Hp in Hl. destruct Hl as [_ [_ [s2 [Hh Hlen]]]].
    destruct s2; [now rewrite app_nil_r in Hh | simpl in Hlen; lia].
Qed.

(** X11: the five business-identity facts (businessName, businessType,
    useCase, agentRole, tonePreference) are never overwritten by a turn: every
    key under which a response is filed starts with "user". *)
Theorem X11_business_facts_survive (svc : KaniService) (llm : ChatModel)
    (now input k : string) :
  isBusinessKey k = true ->
  Dict.lookup k (contextualData (memory (snd (processUserInput svc llm now input)))) =
  Dict.lookup k (contextualData (memory svc)).
Proof.
  intros Hk.
  destruct (processUserInput_memory svc llm now input) as [_ [_ Hl]].
  cbn zeta in Hl.
  destruct (passesFilters svc input); destruct Hl as [-> _]; [|reflexivity].
  now apply storeResponse_business_keys.
Qed.


End TurnProperties.

Section TurnOutcomes.
Context `{E : RegExpEngine}.
Import JS JSFacts JSMore DictFacts.

Lemma updateTokenUsage_reads (m m0 : AgentMemory) (a b : float) :
  tokenUsage m = tokenUsage m0 ->
  tokenUsage (updateTokenUsage m a b) = tokenUsage (updateTokenUsage m0 a b).
Proof. intros H. unfold updateTokenUsage. cbn [setTokenUsage tokenUsage]. now rewrite H. Qed.

Lemma llmFallback_tokens (s : KaniService) (llm : ChatModel) (input : string) :
  tokenUsage (memory (snd (llmFallback s llm input))) =
  if openai s then
    match llm (modelName s) (currentPrompt (memory (beforeCall s))) input with
    | Content text =>
        tokenUsage
          (updateTokenUsage (memory s)
             (numberOfNat (ceilDiv4 (String.length (currentPrompt (memory (beforeCall s)))
                                     + String.length input)))
             (numberOfNat (ceilDiv4 (String.length (polishReply text)))))
    | _ => tokenUsage (memory s)
    end
  else tokenUsage (memory s).
Proof.
  unfold llmFallback. cbn [openai setMemory].
  destruct (openai s); cbn [negb]; [|reflexivity].
  change (modelName (beforeCall s)) with (modelName s).
  destruct (llm _ _ _) as [| |text]; [reflexivity | reflexivity |].
  set (svc3 := recordUsage _ _ _ _).
  pose proof (determineState_snd svc3 (polishReply text) input) as Hsnd.
  destruct (determineStateFromLLMResponse svc3 (polishReply text) input)
    as [next svc4].
  cbn [snd] in *. subst svc4. cbn [memory setMemory].
  destruct (getNextState_logs (memory svc3) input) as [_ [_ [Ht _]]].
  cbn zeta in Ht. rewrite Ht. reflexivity.
Qed.

(** X13: token usage moves only when the model replied.  After a turn the
    usage is either the one from before, or the turn reached the model with
    an initialised client, the call returned a choice, and the usage is the
    old one after a single [updateTokenUsage] with the estimates
    ceil((prompt length + utterance length) / 4) and
    ceil(response length / 4).  A failed call, a missing client and every turn
    answered from memory cost nothing. *)
Theorem X13_tokens_move_only_on_a_reply (svc : KaniService) (llm : ChatModel)
    (now input : string) :
  let m' := memory (snd (processUserInput svc llm now input)) in
  tokenUsage m' = tokenUsage (memory svc) \/
  exists svc1 text,
    ruleStage svc now input = inr svc1 /\
    openai svc1 = true /\
    llm (modelName svc1) (currentPrompt (memory (beforeCall svc1))) input
      = Content text /\
    tokenUsage m' =
    tokenUsage
      (updateTokenUsage (memory svc)
         (numberOfNat (ceilDiv4 (String.length (currentPrompt (memory (beforeCall svc1)))
                                 + String.length input)))
         (numberOfNat (ceilDiv4 (String.length (polishReply text))))).
Proof.
  cbn zeta. pose proof (ruleStage_memory svc now input) as H. cbn zeta in H.
  unfold processUserInput.
  destruct (ruleStage svc now input) as [[r s] | s] eqn:Hstage.
  - left. cbn [snd]. apply H.
  - destruct H as [_ [_ [Htok _]]].
    rewrite llmFallback_tokens.
    destruct (openai s) eqn:Hopen; [|now left].
    destruct (llm _ _ _) as [| |text] eqn:Hllm; [now left | now left |].
    right. exists s, text. repeat split; try assumption.
    now apply updateTokenUsage_reads.
Qed.

(** X14: a knowledge-base hit wins over everything else.  When the
    resolver returns a non-empty answer, the turn returns that answer with
    nextState = the current state and disqualified = false; the only change to
    the session is that the used-model flag is cleared.  This holds even if a
    disqualification rule or a transition matches the utterance, and the model
    is not consulted. *)
Theorem X14_knowledge_hit_short_circuits (svc : KaniService) (llm : ChatModel)
    (now input answer : string) :
  findKnowledgeBaseResponse (memory svc) input = Some answer ->
  answer <> "" ->
  processUserInput svc llm now input =
  ({| turnResponse := answer;
      nextState := Some (currentState (memory svc));
      disqualified := false |},
   setMemory svc (setLLMUsed (memory svc) false)).
Proof.
  intros Hkb Hne. unfold processUserInput, ruleStage. rewrite Hkb.
  destruct (truthy answer) eqn:Ht; [reflexivity|].
  apply truthy_false_iff in Ht. contradiction.
Qed.

Lemma passesFilters_true (svc : KaniService) (input : string) :
  passesFilters svc input = true ->
  truthy (match findKnowledgeBaseResponse (memory svc) input with
          | Some k => k
          | None => ""
          end) = false /\
  isDisqualified (memory svc) input = None.
Proof.
  unfold passesFilters. intros H. apply andb_true_iff in H as [H1 H2].
  apply negb_true_iff in H1. split; [exact H1|].
  destruct (isDisqualified (memory svc) input); [discriminate | reflexivity].
Qed.

(** X15: a turn resolved by a transition.  When the utterance gets past
    the knowledge base and the rules, and the first matching transition of the
    current state points at a defined state with a non-empty id, the turn
    returns that state's question with nextState = its id and
    disqualified = false; the session moves to it, the used-model flag is
    cleared, the history gains the entry (from, to, condition) after what
    [storeResponse] recorded, and the token usage is unchanged. *)
Theorem X15_transition_turn (svc : KaniService) (llm : ChatModel)
    (now input : string) (sd : StateDefinition) (pre : list Transition)
    (t : Transition) (post : list Transition) (target : StateDefinition) :
  passesFilters svc input = true ->
  Dict.lookup (currentState (memory svc)) (stateDefinitions (memory svc)) = Some sd ->
  transitions sd = Some (pre ++ t :: post)%list ->
  (forall t', In t' pre -> matchesCondition input (condition t') = false) ->
  matchesCondition input (condition t) = true ->
  targetState t <> "" ->
  Dict.lookup (targetState t) (stateDefinitions (memory svc)) = Some target ->
  let m := memory svc in
  let m1 := storeResponse m (currentState m) input true now in
  let m' := memory (snd (processUserInput svc llm now input)) in
  fst (processUserInput svc llm now input) =
    {| turnResponse := question target;
       nextState := Some (targetState t);
       disqualified := false |} /\
  currentState m' = targetState t /\
  usedLLM m' = false /\
  transitionHistory m' =
    (transitionHistory m1 ++
     [ {| from := currentState m; to := targetState t; reason := condition t |} ])%list /\
  tokenUsage m' = tokenUsage m.
Proof.
  intros Hp Hsd Hts Hpre Ht Hne Htarget. cbn zeta.
  destruct (passesFilters_true svc input Hp) as [Hkb Hdq].
  destruct (storeResponse_frame (memory svc) (currentState (memory svc))
              input true now) as [Hc [Hd [Htok _]]].
  set (m1 := storeResponse (memory svc) (currentState (memory svc)) input true now) in *.
  assert (Hnext : getNextState m1 input =
            (Some (targetState t),
             setCurrentState
               (pushHistory m1 {| from := currentState m1; to := targetState t;
                                  reason := condition t |})
               (targetState t))).
  { unfold getNextState. rewrite Hc, Hd, Hsd, Hts.
    now rewrite (firstTransition_first _ _ _ _ Hpre Ht). }
  unfold processUserInput, ruleStage. rewrite Hkb, Hdq. fold m1. rewrite Hnext.
  apply truthy_of_nonempty in Hne.
  rewrite Hne. unfold getCurrentStateDefinition, Dict.get.
  cbn [currentState stateDefinitions setCurrentState pushHistory].
  rewrite Hd, Htarget. cbn. rewrite Hc. repeat split. exact Htok.
Qed.

End TurnOutcomes.

Section TurnGuards.
Context `{E : RegExpEngine}.
Import JS JSFacts JSMore DictFacts.

Lemma ruleStage_openai (svc : KaniService) (now input : string) (s : KaniService) :
  ruleStage svc now input = inr s -> openai s = openai svc.
Proof.
  intros H. pose proof (ruleStage_memory svc now input) as Hm. cbn zeta in Hm.
  rewrite H in Hm. apply Hm.
Qed.

(** X16: without an API key the model is never consulted.  If the client is
    not initialised, the turn is the same whatever the model would do; a turn
    that no rule resolves returns the fixed sentence about the missing
    configuration with nextState = null and disqualified = false, sets the
    used-model flag and changes nothing else of what the deterministic part
    left. *)
Theorem X16_no_client_no_model_call (svc : KaniService) (llm : ChatModel)
    (now input : string) :
  openai svc = false ->
  (forall llm', processUserInput svc llm' now input = processUserInput svc llm now input) /\
  (forall svc1,
     ruleStage svc now input = inr svc1 ->
     processUserInput svc llm now input =
     ({| turnResponse := notConfigured; nextState := None; disqualified := false |},
      setMemory svc1 (setLLMUsed (memory svc1) true))).
Proof.
  intros Hopen.
  assert (Hfallback : forall l svc1,
            ruleStage svc now input = inr svc1 ->
            llmFallback svc1 l input =
            ({| turnResponse := notConfigured; nextState := None;
                disqualified := false |},
             setMemory svc1 (setLLMUsed (memory svc1) true))).
  { intros l svc1 Hstage. unfold llmFallback. cbn [openai setMemory].
    now rewrite (ruleStage_openai _ _ _ _ Hstage), Hopen. }
  split.
  - intros llm'. unfold processUserInput.
    destruct (ruleStage svc now input) as [r | svc1] eqn:Hstage; [reflexivity|].
    now rewrite !(Hfallback _ svc1 eq_refl).
  - intros svc1 Hstage. unfold processUserInput. rewrite Hstage.
    now apply Hfallback.
Qed.

Lemma llmFallback_flags (s : KaniService) (llm : ChatModel) (input : string) :
  disqualified (fst (llmFallback s llm input)) = false.
Proof.
  unfold llmFallback. destruct (negb _); [reflexivity|].
  destruct (llm _ _ _); try reflexivity.
  destruct (determineStateFromLLMResponse _ _ _). reflexivity.
Qed.

(** X17: the two flags of a turn.  The result is marked disqualified
    exactly when the knowledge base gave no (non-empty) answer and some
    disqualification rule matched.  The used-model flag is set by every turn
    that goes past the rule-based step, even if no client exists or the call
    fails; it is cleared by a turn answered from the knowledge base or by a
    transition, and left as it was by a disqualifying turn. *)
Theorem X17_turn_flags (svc : KaniService) (llm : ChatModel) (now input : string) :
  let r := processUserInput svc llm now input in
  let knowledge := match findKnowledgeBaseResponse (memory svc) input with
                   | Some k => k
                   | None => ""
                   end in
  disqualified (fst r) =
    negb (truthy knowledge) &&
    match isDisqualified (memory svc) input with Some _ => true | None => false end /\
  usedLLM (memory (snd r)) =
    match ruleStage svc now input with
    | inr _ => true
    | inl _ => if disqualified (fst r) then usedLLM (memory svc) else false
    end.
Proof.
  cbn zeta. unfold processUserInput.
  destruct (ruleStage svc now input) as [[r s] | s] eqn:Hstage.
  - unfold ruleStage in Hstage. cbn [fst snd].
    destruct (truthy _); cbn [negb andb].
    + injection Hstage as <- <-. split; reflexivity.
    + destruct (isDisqualified (memory svc) input) as [msg|].
      * injection Hstage as <- <-. split; reflexivity.
      * destruct (getNextState _ input) as [next m2].
        destruct (if truthy _ then getCurrentStateDefinition m2 else Dict.Absent);
          [| |discriminate]; injection Hstage as <- <-; split; reflexivity.
  - destruct (passesFilters_true svc input (ruleStage_inr_passes _ _ _ _ Hstage))
      as [-> ->].
    rewrite llmFallback_flags. split; [reflexivity|].
    apply (llmFallback_memory s llm input).
Qed.

Lemma getNextState_keeps_defined (m : AgentMemory) (input : string) :
  targetsDefined (stateDefinitions m) -> stateDefined m ->
  stateDefined (snd (getNextState m input)).
Proof.
  intros Hwf Hdef.
  destruct (getNextState_effect m input) as [-> | [sd [ts [t [Hsd [Hts [Hin [_ ->]]]]]]]];
    cbn [snd]; [exact Hdef|].
  unfold stateDefined. cbn [currentState stateDefinitions setCurrentState pushHistory].
  exact (Hwf _ _ _ _ Hsd Hts Hin).
Qed.

Lemma processUserInput_keeps_defined (svc : KaniService) (llm : ChatModel)
    (now input : string) :
  targetsDefined (stateDefinitions (memory svc)) ->
  stateDefined (memory svc) ->
  stateDefined (memory (snd (processUserInput svc llm now input))).
Proof.
  intros Hwf Hdef.
  destruct (storeResponse_frame (memory svc) (currentState (memory svc))
              input true now) as [Hc [Hd _]].
  set (m1 := storeResponse (memory svc) (currentState (memory svc)) input true now) in *.
  assert (Hdef1 : stateDefined m1) by (unfold stateDefined; now rewrite Hc, Hd).
  assert (Hwf1 : targetsDefined (stateDefinitions m1)) by now rewrite Hd.
  pose proof (getNextState_keeps_defined m1 input Hwf1 Hdef1) as Hdef2.
  assert (Hwf2 : targetsDefined (stateDefinitions (snd (getNextState m1 input)))).
  { destruct (getNextState_logs m1 input) as [_ [[Hs _] _]]. cbn zeta in Hs.
    now rewrite Hs. }
  unfold processUserInput, ruleStage.
  destruct (truthy _); [exact Hdef|].
  destruct (isDisqualified (memory svc) input); [exact Hdef|].
  fold m1. destruct (getNextState m1 input) as [next m2]. cbn [snd] in *.
  destruct (if truthy _ then getCurrentStateDefinition m2 else Dict.Absent);
    [exact Hdef2 | exact Hdef2 |].
  unfold llmFallback. cbn [openai setMemory memory].
  destruct (negb _); [exact Hdef2|].
  destruct (llm _ _ _) as [| |text]; [exact Hdef2 | exact Hdef2 |].
  set (svc3 := recordUsage _ _ _ _).
  pose proof (determineState_snd svc3 (polishReply text) input) as Hsnd.
  destruct (determineStateFromLLMResponse svc3 (polishReply text) input)
    as [nx svc4].
  cbn [snd] in *. subst svc4. cbn [memory setMemory].
  apply getNextState_keeps_defined; [exact Hwf2 | exact Hdef2].
Qed.

(** X18: in a flow whose transitions all point at defined states, the
    current state of a session always has a definition: if it has one before
    a turn, it has one after, whatever the utterance and the model do. *)
Theorem X18_current_state_stays_defined (svc : KaniService) (llm : ChatModel)
    (now input : string) :
  targetsDefined (stateDefinitions (memory svc)) ->
  stateDefined (memory svc) ->
  stateDefined (memory (snd (processUserInput svc llm now input))).
Proof. apply processUserInput_keeps_defined. Qed.

(** X19: when the model is reached.  In a flow whose transitions all point
    at defined states and in which no state is keyed by the empty id, a turn
    goes to the model exactly when the utterance gets past the knowledge base
    and the rules and no transition of the current state matches it; the
    session then enters the fallback with the response stored and the current
    state unchanged. *)
Theorem X19_escalation_in_a_sound_flow (svc : KaniService) (now input : string) :
  targetsDefined (stateDefinitions (memory svc)) ->
  Dict.lookup "" (stateDefinitions (memory svc)) = None ->
  let m := memory svc in
  let m1 := storeResponse m (currentState m) input true now in
  ((exists svc1, ruleStage svc now input = inr svc1) <->
   passesFilters svc input = true /\ fst (getNextState m input) = None) /\
  (forall svc1, ruleStage svc now input = inr svc1 -> svc1 = setMemory svc m1).
Proof.
  intros Hwf Hempty. cbn zeta.
  destruct (storeResponse_frame (memory svc) (currentState (memory svc))
              input true now) as [Hc [Hd _]].
  set (m1 := storeResponse (memory svc) (currentState (memory svc)) input true now) in *.
  assert (Hreads : fst (getNextState m1 input) = fst (getNextState (memory svc) input))
    by (apply getNextState_reads; assumption).
  assert (Hinr : forall svc1, ruleStage svc now input = inr svc1 ->
            fst (getNextState m1 input) = None).
  { intros svc1 Hstage.
    destruct (ruleStage_escalates svc now input svc1 Hstage) as [_ Hcases].
    fold m1 in Hcases.
    destruct Hcases as [Hnone | [Hblank | [t [Hsome Hmissing]]]]; [exact Hnone | |].
    - exfalso.
      destruct (getNextState_effect m1 input)
        as [Heq | [sd [ts [t [Hsd [Hts [Hin [_ Heq]]]]]]]];
        rewrite Heq in Hblank; cbn [fst] in Hblank; [discriminate|].
      injection Hblank as Hblank. rewrite Hc, Hd in Hsd.
      apply (Hwf _ _ _ _ Hsd Hts Hin). now rewrite Hblank.
    - exfalso.
      destruct (getNextState_effect m1 input)
        as [Heq | [sd [ts [t' [Hsd [Hts [Hin [_ Heq]]]]]]]];
        rewrite Heq in Hsome; cbn [fst] in Hsome; [discriminate|].
      injection Hsome as Hsome. rewrite Hc, Hd in Hsd.
      apply (Hwf _ _ _ _ Hsd Hts Hin). now rewrite Hsome. }
  split; [split|].
  - intros [svc1 Hstage]. split; [now apply (ruleStage_inr_passes _ _ _ _ Hstage)|].
    rewrite <- Hreads. now apply (Hinr svc1).
  - intros [Hp Hnone]. rewrite <- Hreads in Hnone.
    destruct (passesFilters_true svc input Hp) as [Hkb Hdq].
    unfold ruleStage. rewrite Hkb, Hdq. fold m1.
    rewrite (getNextState_none m1 input Hnone).
    change (truthy "") with false. cbn iota. eauto.
  - intros svc1 Hstage. pose proof (Hinr svc1 Hstage) as Hn.
    destruct (ruleStage_escalates svc now input svc1 Hstage) as [Heq _].
    fold m1 in Heq. now rewrite (getNextState_none m1 input Hn) in Heq.
Qed.

End TurnGuards.

(** ** More on the knowledge base *)

Section KnowledgeMore.
Context `{E : RegExpEngine}.
Import JS JSFacts JSMore DictFacts.

Lemma findItem_first (q : string) (pre : list KnowledgeBaseItem)
    (item : KnowledgeBaseItem) (post : list KnowledgeBaseItem) :
  (forall i, In i pre -> itemMatches q i = false) ->
  itemMatches q item = true ->
  findItem q (pre ++ item :: post)%list = Some item.
Proof.
  intros Hpre Hitem. induction pre as [|p pre IH]; simpl.
  - now rewrite Hitem.
  - rewrite (Hpre p (or_introl eq_refl)). apply IH.
    intros i Hin. apply Hpre. now right.
Qed.

Lemma findItem_none (q : string) (items : list KnowledgeBaseItem) :
  findItem q items = None <-> forall i, In i items -> itemMatches q i = false.
Proof.
  induction items as [|p items IH]; simpl.
  - split; [intros _ i [] | reflexivity].
  - destruct (itemMatches q p) eqn:Hp.
    + split; [discriminate|]. intros H.
      specialize (H p (or_introl eq_refl)). congruence.
    + rewrite IH. split.
      * intros H i [<- | Hin]; [exact Hp | now apply H].
      * intros H i Hin. apply H. now right.
Qed.

(** X20: the resolver answers with the first item that matches, its
    placeholders filled in, and with null exactly when no item matches (in
    particular when the knowledge base is empty).  Items after the first match
    are not looked at. *)
Theorem X20_first_matching_item (m : AgentMemory) (query : string) :
  let q := trim (toLowerCase query) in
  (forall pre item post,
     knowledgeBase m = (pre ++ item :: post)%list ->
     (forall i, In i pre -> itemMatches q i = false) ->
     itemMatches q item = true ->
     findKnowledgeBaseResponse m query =
     Some (replaceContextVariables m (response item))) /\
  (findKnowledgeBaseResponse m query = None <->
   forall i, In i (knowledgeBase m) -> itemMatches q i = false).
Proof.
  cbn zeta. split.
  - intros pre item post Hkb Hpre Hitem. unfold findKnowledgeBaseResponse.
    now rewrite Hkb, (findItem_first _ _ _ _ Hpre Hitem).
  - unfold findKnowledgeBaseResponse. rewrite <- findItem_none.
    destruct (findItem _ (knowledgeBase m)); split; congruence.
Qed.

(** X21: a pattern without any of the characters | + * ? ( ) [ ] matches
    a query exactly when one of its white-space separated, lower-cased terms
    is longer than three characters and occurs in the query.  Terms of three
    characters or fewer never count, so a pattern made of short words only
    matches nothing. *)
Theorem X21_only_long_terms_count (q : string) (item : KnowledgeBaseItem) :
  hasRegexMeta (pattern item) = false ->
  (itemMatches q item = true <->
   exists term, In term (splitWs (toLowerCase (pattern item))) /\
     3 < String.length term /\ includes q term = true) /\
  ((forall term, In term (splitWs (toLowerCase (pattern item))) ->
      String.length term <= 3) ->
   itemMatches q item = false).
Proof.
  intros Hmeta.
  assert (Hiff : itemMatches q item = true <->
            exists term, In term (splitWs (toLowerCase (pattern item))) /\
              3 < String.length term /\ includes q term = true).
  { unfold itemMatches. rewrite Hmeta, existsb_exists. split.
    - intros [term [Hin Hb]]. apply andb_true_iff in Hb as [Hi Hl].
      apply Nat.ltb_lt in Hl. eauto.
    - intros [term [Hin [Hl Hi]]]. exists term. split; [exact Hin|].
      apply andb_true_iff. split; [exact Hi | now apply Nat.ltb_lt]. }
  split; [exact Hiff|].
  intros Hshort. apply Bool.not_true_is_false. intros Hm.
  apply Hiff in Hm as [term [Hin [Hl _]]]. specialize (Hshort term Hin). lia.
Qed.

(** X22: the resolver reads the query through its lower-cased, trimmed
    form: letter case and surrounding white space of the query make no
    difference to the answer. *)
Theorem X22_query_is_normalised (m : AgentMemory) (query : string) :
  findKnowledgeBaseResponse m (toLowerCase query) = findKnowledgeBaseResponse m query /\
  findKnowledgeBaseResponse m (trim query) = findKnowledgeBaseResponse m query.
Proof.
  unfold findKnowledgeBaseResponse. split.
  - now rewrite toLowerCase_idem.
  - now rewrite <- (trim_lower query), trim_idem, (trim_lower query).
Qed.

End KnowledgeMore.

(** ** More on the duplication repair *)

Section DuplicationMore.
Import JS JSFacts.

Lemma runs_head (s : string) (d : ascii) (k : nat) (rest : list (ascii * nat)) :
  runs s = (d, k) :: rest -> headIs d s = true.
Proof.
  destruct s as [|c t]; simpl; [discriminate|].
  destruct (runs t) as [|[d' n] r].
  - intros [= <- _ _]. apply Ascii.eqb_refl.
  - destruct (Ascii.eqb_spec c d') as [->|Hne]; intros [= <- _ _];
      apply Ascii.eqb_refl.
Qed.

Lemma runs_repeat (c : ascii) (n : nat) (s : string) :
  headIs c s = false ->
  runs (repeatChar c (S n) ++ s) = (c, S n) :: runs s.
Proof.
  intros Hs. induction n as [|k IH].
  - simpl. destruct (runs s) as [|[d j] r] eqn:Hr; [reflexivity|].
    apply runs_head in Hr.
    destruct (Ascii.eqb_spec c d) as [->|Hne]; [congruence | reflexivity].
  - change (repeatChar c (S (S k)) ++ s) with (String c (repeatChar c (S k) ++ s)).
    cbn [runs]. rewrite IH. now rewrite Ascii.eqb_refl.
Qed.

Lemma runs_expand (l : list (ascii * nat)) :
  maximalRuns l -> runs (expand l) = l.
Proof.
  induction l as [|[c n] rest IH]; [reflexivity|].
  intros [Hn [Hd Hr]]. destruct n as [|k]; [lia|].
  change (expand ((c, S k) :: rest)) with (repeatChar c (S k) ++ expand rest).
  rewrite runs_repeat, (IH Hr); [reflexivity|].
  destruct rest as [|[d j] rest']; [reflexivity|].
  destruct Hr as [Hj _]. now apply headIs_expand.
Qed.

Lemma capRun_idem (r : ascii * nat) : capRun (capRun r) = capRun r.
Proof.
  destruct r as [c n]. unfold capRun.
  destruct (negb (isLineTerminator c)); cbn [andb]; [|reflexivity].
  destruct (3 <=? n) eqn:Hn; [reflexivity | now rewrite Hn].
Qed.

Lemma maximalRuns_cap (l : list (ascii * nat)) :
  maximalRuns l -> maximalRuns (map capRun l).
Proof.
  induction l as [|[c n] rest IH]; [exact id|].
  intros [Hn [Hd Hr]]. cbn [map]. unfold capRun at 1. cbn [maximalRuns].
  split; [destruct (_ && _); lia|]. split; [|now apply IH].
  destruct rest as [|[d j] rest']; [exact I | exact Hd].
Qed.

Lemma length_append (a b : string) :
  String.length (a ++ b) = String.length a + String.length b.
Proof. induction a as [|c a IH]; simpl; [reflexivity | now rewrite IH]. Qed.

Lemma length_repeatChar (c : ascii) (n : nat) : String.length (repeatChar c n) = n.
Proof. induction n as [|k IH]; simpl; [reflexivity | now rewrite IH]. Qed.

Lemma length_expand_cap (l : list (ascii * nat)) :
  String.length (expand (map capRun l)) <= String.length (expand l).
Proof.
  induction l as [|[c n] rest IH]; [reflexivity|].
  cbn [map expand]. unfold capRun at 1.
  rewrite !length_append, !length_repeatChar.
  destruct (negb (isLineTerminator c) && (3 <=? n)) eqn:Hb; [|lia].
  apply andb_true_iff in Hb as [_ Hb]. apply Nat.leb_le in Hb. lia.
Qed.

(** X23: the duplication repair is idempotent and never lengthens a text:
    repairing an already repaired text changes nothing, the result is at most
    as long as the input, and a text without three equal consecutive
    characters is returned as it is. *)
Theorem X23_repair_is_idempotent (s : string) :
  fixDuplication (fixDuplication s) = fixDuplication s /\
  String.length (fixDuplication s) <= String.length s /\
  (testDuplication s = false -> fixDuplication s = s).
Proof.
  split; [|split].
  - rewrite (fixDuplication_runs s), fixDuplication_runs.
    rewrite runs_expand by apply maximalRuns_cap, runs_maximal.
    rewrite map_map. f_equal. apply map_ext, capRun_idem.
  - rewrite fixDuplication_runs. rewrite <- (expand_runs s) at 2.
    apply length_expand_cap.
  - intros Ht. unfold fixDuplication. now rewrite Ht.
Qed.

End DuplicationMore.

(** ** The context handed to the model *)

Section Context.
Import JS JSFacts.

Lemma lastN_length {A : Type} (n : nat) (l : list A) :
  List.length (lastN n l) = Nat.min n (List.length l).
Proof. unfold lastN. rewrite length_skipn. lia. Qed.

Lemma lastN_suffix {A : Type} (n : nat) (l : list A) :
  l = (firstn (List.length l - n) l ++ lastN n l)%list.
Proof. unfold lastN. now rewrite firstn_skipn. Qed.

Lemma lastN_snoc {A : Type} (n : nat) (l : list A) (x : A) :
  lastN (S n) (l ++ [x]) = (lastN n l ++ [x])%list.
Proof.
  unfold lastN. rewrite length_app, skipn_app. cbn [List.length].
  replace (List.length l + 1 - S n) with (List.length l - n) by lia.
  replace (List.length l - n - List.length l) with 0 by lia.
  reflexivity.
Qed.

Lemma lastN_incl {A : Type} (n : nat) (l : list A) (x : A) :
  In x (lastN n l) -> In x l.
Proof.
  intros H. rewrite (lastN_suffix n l). apply in_or_app. now right.
Qed.

Lemma lastN_all {A : Type} (n : nat) (l : list A) :
  List.length l <= n -> lastN n l = l.
Proof.
  intros H. unfold lastN. now replace (List.length l - n) with 0 by lia.
Qed.

Lemma assign_new {V : Type} (k : string) (v : V) (d : list (string * V)) :
  Dict.lookup k d = None -> Dict.assign k v d = (d ++ [(k, v)])%list.
Proof.
  induction d as [|[k' v'] rest IH]; simpl; [reflexivity|].
  destruct (k' =? k)%string; [discriminate|].
  intros H. now rewrite (IH H).
Qed.

(** X24: which answers the model is shown.  The context built for the model
    carries at most seven stored responses and at most five transitions; what
    it carries is stored, and everything stored is carried while there are no
    more than seven responses.  The seven are the last in the order of
    [Object.keys]: an answer just stored under a state id that had none, and
    that is neither an array index nor [__proto__], is the last response
    shown.  Under numeric state ids this fails: with answers stored for the
    states 2 to 8, the answer then given in state 1 is enumerated first and is
    not shown. *)
Theorem X24_context_shows_the_fresh_answer :
  (forall m,
     let ctx := buildMinimalContext m in
     List.length (relevantResponses ctx) <= 7 /\
     List.length (recentTransitions ctx) <= 5 /\
     (forall e, In e (relevantResponses ctx) -> In e (userResponses m)) /\
     (forall e, In e (recentTransitions ctx) -> In e (transitionHistory m)) /\
     (List.length (userResponses m) <= 7 ->
      forall e, In e (userResponses m) -> In e (relevantResponses ctx)) /\
     (List.length (transitionHistory m) <= 5 ->
      recentTransitions ctx = transitionHistory m)) /\
  (forall m q r v now,
     Dict.arrayIndex q = None -> q <> "__proto__" ->
     Dict.lookup q (userResponses m) = None ->
     exists earlier,
       relevantResponses (buildMinimalContext (storeResponse m q r v now)) =
       (earlier ++ [ (q, {| value := r; valid := v; timestamp := now |}) ])%list) /\
  (forall r v now,
     Dict.arrayIndex "1" = Some 1%N /\
     Dict.lookup "1" (userResponses Scenarios.numberedLog) = None /\
     map fst (relevantResponses
                (buildMinimalContext (storeResponse Scenarios.numberedLog "1" r v now)))
       = ["2"; "3"; "4"; "5"; "6"; "7"; "8"]).
Proof.
  split; [|split].
  - intros m. cbn zeta. unfold buildMinimalContext, getRelevantResponses.
    cbn [relevantResponses recentTransitions].
    split; [rewrite lastN_length; lia|]. split; [rewrite lastN_length; lia|].
    split; [|split; [|split]].
    + intros e He. apply EntriesFacts.In_entries. now apply (lastN_incl 7).
    + intros e He. now apply (lastN_incl 5).
    + intros Hlen e He. rewrite lastN_all.
      * now apply EntriesFacts.In_entries.
      * now rewrite EntriesFacts.length_entries.
    + intros Hlen. now apply lastN_all.
  - intros m q r v now Hq _ Hnew.
    unfold buildMinimalContext, getRelevantResponses. cbn [relevantResponses].
    rewrite storeResponse_userResponses, (assign_new _ _ _ Hnew),
      (EntriesFacts.entries_app_named _ _ _ Hq), lastN_snoc.
    eexists. reflexivity.
  - intros r v now. split; [reflexivity|]. split; [reflexivity|].
    unfold buildMinimalContext, getRelevantResponses. cbn [relevantResponses].
    rewrite storeResponse_userResponses. reflexivity.
Qed.

Lemma prefix_append (p post : string) : String.prefix p (p ++ post) = true.
Proof.
  induction p as [|c p IH]; simpl; [apply prefix_empty|].
  destruct (ascii_dec c c); [exact IH | contradiction].
Qed.

Lemma includes_of_prefix (s p : string) : String.prefix p s = true -> includes s p = true.
Proof.
  intros H. destruct s as [|c t].
  - change (includes "" p) with (String.prefix p "" || false). now rewrite H.
  - now rewrite includes_cons, H.
Qed.

Lemma includes_after (a s p : string) : includes s p = true -> includes (a ++ s) p = true.
Proof.
  intros H. induction a as [|c a IH]; [exact H|].
  cbn [append]. rewrite includes_cons, IH. apply orb_true_r.
Qed.

Lemma includes_middle (pre p post : string) : includes (pre ++ p ++ post) p = true.
Proof. apply includes_after, includes_of_prefix, prefix_append. Qed.

Lemma prefix_split (p s : string) :
  String.prefix p s = true -> exists post, s = p ++ post.
Proof.
  revert s. induction p as [|c p IH]; intros s; [now exists s|].
  destruct s as [|d s]; simpl; [discriminate|].
  destruct (ascii_dec c d) as [->|]; [|discriminate].
  intros H. destruct (IH s H) as [post ->]. now exists post.
Qed.

Lemma includes_split (s p : string) :
  includes s p = true -> exists pre post, s = pre ++ p ++ post.
Proof.
  induction s as [|c t IH].
  - change (includes "" p) with (String.prefix p "" || false).
    rewrite orb_false_r. intros H.
    destruct (prefix_split _ _ H) as [post Hpost]. now exists EmptyString, post.
  - rewrite includes_cons. intros H. apply orb_true_iff in H as [H | H].
    + destruct (prefix_split _ _ H) as [post Hpost]. now exists EmptyString, post.
    + destruct (IH H) as [pre [post ->]]. now exists (String c pre), post.
Qed.

Lemma includes_trans (a b c : string) :
  includes a b = true -> includes b c = true -> includes a c = true.
Proof.
  intros Hab Hbc.
  destruct (includes_split _ _ Hab) as [pre [post ->]].
  destruct (includes_split _ _ Hbc) as [pre' [post' ->]].
  replace (pre ++ (pre' ++ c ++ post') ++ post)
    with ((pre ++ pre') ++ c ++ (post' ++ post)).
  - apply includes_middle.
  - now rewrite !append_assoc.
Qed.

Lemma includes_join (sep x : string) (l : list string) :
  In x l -> includes (join sep l) x = true.
Proof.
  unfold join. induction l as [|y l IH]; [intros []|].
  intros [-> | Hin].
  - destruct l as [|z l]; cbn [String.concat].
    + apply includes_of_prefix. rewrite <- (prefix_append x "") at 1.
      f_equal. clear. induction x; simpl; congruence.
    + apply (includes_middle "" x).
  - destruct l as [|z l]; [destruct Hin|].
    cbn [String.concat]. apply includes_after, includes_after. now apply IH.
Qed.

(** X25: what every prompt contains.  Whatever the business and the
    context, the generated system prompt contains the current state id, the
    instruction to preserve the spelling of words, a line "- key: value" for
    every stored fact other than the five business-identity facts, and a line
    for every relevant response with its value in double quotes; when there is
    no such fact it says that no additional user data was collected. *)
Theorem X25_prompt_contents (svc : KaniService) (context : MinimalContext) :
  let prompt := generateSystemPrompt svc context in
  includes prompt ("CURRENT STATE: " ++ ctxCurrentState context) = true /\
  includes prompt "Preserve correct spelling of words" = true /\
  (forall k v,
     In (k, v) (ctxContextualData context) -> isBusinessKey k = false ->
     includes prompt ("- " ++ k ++ ": " ++ v) = true) /\
  (forall id r,
     In (id, r) (relevantResponses context) ->
     includes prompt ("- " ++ id ++ ": " ++ dq ++ value r ++ dq) = true) /\
  ((forall k v, In (k, v) (ctxContextualData context) -> isBusinessKey k = true) ->
   includes prompt "No additional user data collected yet." = true).
Proof.
  cbn zeta. unfold generateSystemPrompt.
  set (entries := filter (fun e : string * string => negb (isBusinessKey (fst e)))
                         (Dict.entries (ctxContextualData context))).
  split; [|split; [|split; [|split]]].
  - apply includes_join. repeat (first [left; reflexivity | right]).
  - eapply includes_trans.
    + apply includes_join.
      do 26 right. left. reflexivity.
    + reflexivity.
  - intros k v Hin Hk.
    assert (Hentry : In (k, v) entries).
    { apply filter_In. split; [now apply EntriesFacts.In_entries|].
      cbn [fst]. now rewrite Hk. }
    eapply includes_trans.
    + apply includes_join. do 10 right. left. reflexivity.
    + destruct entries as [|e es] eqn:He; [destruct Hentry|].
      cbn [List.length Nat.ltb Nat.leb]. rewrite <- He in *.
      apply includes_join.
      apply (in_map (fun e : string * string => "- " ++ fst e ++ ": " ++ snd e)
                    entries (k, v) Hentry).
  - intros id r Hin.
    eapply includes_trans.
    + apply includes_join. do 13 right. left. reflexivity.
    + apply includes_join.
      apply (in_map (fun e : string * UserResponse =>
                       "- " ++ fst e ++ ": " ++ dq ++ value (snd e) ++ dq)
                    (Dict.entries (relevantResponses context)) (id, r)).
      now apply EntriesFacts.In_entries.
  - intros Hall.
    assert (Hnil : entries = []).
    { destruct entries as [|[k v] es] eqn:He; [reflexivity|].
      assert (Hin : In (k, v) entries) by (rewrite He; now left).
      apply filter_In in Hin as [Hin Hk]. cbn [fst] in Hk.
      apply (proj1 (EntriesFacts.In_entries _ _)) in Hin.
      rewrite (Hall k v Hin) in Hk. discriminate. }
    apply includes_join. rewrite Hnil. cbn [List.length Nat.ltb Nat.leb].
    do 10 right. left. reflexivity.
Qed.

End Context.

(** ** Reachable states (utils/stateFlowUtils.ts) *)

Module FlowFacts.
Import FlowUtils DictFacts.

Lemma has_In (set : list string) (k : string) : has set k = true <-> In k set.
Proof.
  unfold has. rewrite existsb_exists. split.
  - intros [x [Hin Hx]]. apply String.eqb_eq in Hx. now subst.
  - intros Hin. exists k. split; [exact Hin | apply String.eqb_refl].
Qed.

Lemma has_false (set : list string) (k : string) : has set k = false <-> ~ In k set.
Proof.
  rewrite <- has_In. destruct (has set k); split; congruence.
Qed.

Lemma filter_length_mono {A : Type} (p q : A -> bool) (l : list A) :
  (forall x, In x l -> q x = true -> p x = true) ->
  List.length (filter q l) <= List.length (filter p l).
Proof.
  induction l as [|a l IH]; intros H; simpl; [lia|].
  assert (IH' : List.length (filter q l) <= List.length (filter p l))
    by (apply IH; intros x Hx; apply H; now right).
  destruct (q a) eqn:Hq.
  - rewrite (H a (or_introl eq_refl) Hq). simpl. lia.
  - destruct (p a); simpl; lia.
Qed.

Lemma filter_length_lt {A : Type} (p q : A -> bool) (l : list A) (a : A) :
  In a l -> p a = true -> q a = false ->
  (forall x, In x l -> q x = true -> p x = true) ->
  List.length (filter q l) < List.length (filter p l).
Proof.
  induction l as [|b l IH]; intros Hin Hp Hq H; [destruct Hin|].
  simpl. destruct Hin as [-> | Hin].
  - rewrite Hp, Hq. simpl.
    assert (List.length (filter q l) <= List.length (filter p l))
      by (apply filter_length_mono; intros x Hx; apply H; now right).
    lia.
  - assert (IH' : List.length (filter q l) < List.length (filter p l))
      by (apply IH; try assumption; intros x Hx; apply H; now right).
    destruct (q b) eqn:Hqb.
    + rewrite (H b (or_introl eq_refl) Hqb). simpl. lia.
    + destruct (p b); simpl; lia.
Qed.

(** How a read through the prototype chain relates to the own
    properties. *)
Lemma get_own {V : Type} (k : string) (d : list (string * V)) (v : V) :
  Dict.get k d = Dict.Own v <-> Dict.lookup k d = Some v.
Proof.
  unfold Dict.get. destruct (Dict.lookup k d) as [v'|].
  - split; congruence.
  - destruct (ObjectPrototype.member k); split; discriminate.
Qed.

Lemma get_not_own {V : Type} (k : string) (d : list (string * V)) :
  Dict.lookup k d = None <-> forall v, Dict.get k d <> Dict.Own v.
Proof.
  split.
  - intros Hnone v Hget. apply get_own in Hget. congruence.
  - intros H. destruct (Dict.lookup k d) as [v|] eqn:Hl; [|reflexivity].
    elim (H v). now apply get_own.
Qed.

Section Traversal.
Variable defs : list (string * StateDefinition).

Lemma unvisited_mono (r r' : list string) :
  incl r r' -> List.length (unvisited defs r') <= List.length (unvisited defs r).
Proof.
  intros Hincl. unfold unvisited. apply filter_length_mono.
  intros x _ Hx. apply negb_true_iff in Hx. apply negb_true_iff.
  apply has_false. apply has_false in Hx. intros Hin. apply Hx. now apply Hincl.
Qed.

Lemma unvisited_add (r : list string) (id : string) (sd : StateDefinition) :
  Dict.lookup id defs = Some sd -> has r id = false ->
  List.length (unvisited defs (r ++ [id])) < List.length (unvisited defs r).
Proof.
  intros Hsd Hhas. unfold unvisited. apply (filter_length_lt _ _ _ id).
  - apply nodup_In.
    apply (in_map fst defs (id, sd)). now apply lookup_in.
  - now rewrite Hhas.
  - apply negb_false_iff. apply has_In. apply in_or_app. right. now left.
  - intros x _ Hx. apply negb_true_iff in Hx. apply negb_true_iff.
    apply has_false. apply has_false in Hx. intros Hin. apply Hx.
    apply in_or_app. now left.
Qed.

Lemma unvisited_bound (r : list string) :
  List.length (unvisited defs r) <= List.length defs.
Proof.
  unfold unvisited.
  transitivity (List.length (nodup string_dec (map fst defs))).
  - apply List.filter_length_le.
  - transitivity (List.length (map fst defs)).
    + apply NoDup_incl_length; [apply NoDup_nodup|].
      intros x Hx. now apply nodup_In in Hx.
    + now rewrite length_map.
Qed.

(** Enough fuel: the recursion never runs out while the fuel exceeds the
    number of unvisited states, and a returned set extends the given one. *)
Lemma traverse_fuel (fuel : nat) :
  forall r id,
    List.length (unvisited defs r) < fuel ->
    traverse fuel defs r id <> OutOfFuel /\
    forall r', traverse fuel defs r id = Returned r' -> incl r r'.
Proof.
  induction fuel as [|f IH]; intros r id Hfuel; [lia|].
  cbn [traverse].
  destruct (has r id) eqn:Hhas.
  { split; [discriminate|]. intros r' [= <-]. apply incl_refl. }
  destruct (Dict.get id defs) as [sd|mb|] eqn:Hget.
  2:{ split; discriminate. }
  2:{ split; [discriminate|]. intros r' [= <-]. apply incl_refl. }
  apply get_own in Hget.
  unfold transitionsOf. destruct (transitions sd) as [ts|]; cbn [bind].
  2:{ split; discriminate. }
  pose proof (unvisited_add r id sd Hget Hhas) as Hlt.
  assert (Hloop : forall ts acc,
            List.length (unvisited defs acc) < f ->
            forEach (fun set t => traverse f defs set (targetState t)) ts acc
              <> OutOfFuel /\
            forall r', forEach (fun set t => traverse f defs set (targetState t)) ts acc
                         = Returned r' -> incl acc r').
  { clear - IH. induction ts as [|t ts IHts]; intros acc Hacc; cbn [forEach].
    - split; [discriminate|]. intros r' [= <-]. apply incl_refl.
    - destruct (IH acc (targetState t) Hacc) as [Hne Hincl].
      destruct (traverse f defs acc (targetState t)) as [r1| |]; cbn [bind].
      + specialize (Hincl r1 eq_refl).
        destruct (IHts r1) as [Hne' Hincl'].
        { pose proof (unvisited_mono acc r1 Hincl). lia. }
        split; [exact Hne'|]. intros r' Hr'.
        eapply incl_tran; [exact Hincl | now apply Hincl'].
      + split; discriminate.
      + now elim Hne. }
  destruct (Hloop ts (r ++ [id])%list) as [Hne Hincl]; [lia|].
  split; [exact Hne|]. intros r' Hr'.
  eapply incl_tran; [|now apply Hincl]. apply incl_appl, incl_refl.
Qed.

(** Where a [TypeError] comes from: the state handed over is no state but a
    member of [Object.prototype], or a state that can be reached from it has
    no transition list or names such a member. *)
Lemma traverse_error (fuel : nat) :
  forall r id, traverse fuel defs r id = TypeError -> throwsFrom defs id.
Proof.
  induction fuel as [|f IH]; intros r id; [discriminate|].
  cbn [traverse].
  destruct (has r id); [discriminate|].
  destruct (Dict.get id defs) as [sd|mb|] eqn:Hget; [| |discriminate].
  2:{ intros _. left. now exists mb. }
  apply get_own in Hget.
  assert (Hhere : Reachable defs id id) by (apply reach_here; congruence).
  unfold transitionsOf. destruct (transitions sd) as [ts|] eqn:Hts; cbn [bind].
  2:{ intros _. right. exists id. split; [exact Hhere|].
      exists sd. split; [exact Hget | now left]. }
  assert (Hloop : forall rest acc,
            (forall t, In t rest -> In t ts) ->
            forEach (fun set t => traverse f defs set (targetState t)) rest acc
              = TypeError ->
            exists t, In t rest /\ throwsFrom defs (targetState t)).
  { clear - IH. induction rest as [|t rest IHrest]; intros acc Hsub; cbn [forEach];
      [discriminate|].
    destruct (traverse f defs acc (targetState t)) as [r1| |] eqn:Ht; cbn [bind].
    - intros Hrest.
      destruct (IHrest r1 (fun t' Ht' => Hsub t' (or_intror Ht')) Hrest)
        as [t' [Hin Hthrows]].
      exists t'. split; [now right | exact Hthrows].
    - intros _. exists t. split; [now left | exact (IH _ _ Ht)].
    - discriminate. }
  intros Hforeach.
  destruct (Hloop ts _ (fun t Ht => Ht) Hforeach) as [t [Hin [[mb Hmb] | [x [Hreach Hx]]]]].
  - right. exists id. split; [exact Hhere|].
    exists sd. split; [exact Hget|]. right. now exists ts, t, mb.
  - right. exists x. split; [|exact Hx].
    exact (reach_next defs id (targetState t) x sd ts t Hget Hts Hin eq_refl Hreach).
Qed.

(** An induction principle for the sets that [traverse] returns. *)
Section Principle.
Variable P : list string -> string -> list string -> Prop.
Variable Q : string -> list string -> list Transition -> list string -> Prop.

Hypothesis P_visited : forall r id, has r id = true -> P r id r.
Hypothesis P_absent : forall r id,
  has r id = false -> Dict.get id defs = Dict.Absent -> P r id r.
Hypothesis P_fresh : forall r id sd ts r',
  Dict.lookup id defs = Some sd -> has r id = false -> transitions sd = Some ts ->
  Q id (r ++ [id])%list ts r' -> P r id r'.
Hypothesis Q_done : forall src acc, Q src acc [] acc.
Hypothesis Q_step : forall src acc t rest r1 r',
  P acc (targetState t) r1 -> Q src r1 rest r' -> Q src acc (t :: rest) r'.

Lemma traverse_returns (fuel : nat) :
  forall r id r', traverse fuel defs r id = Returned r' -> P r id r'.
Proof.
  induction fuel as [|f IH]; intros r id r'; [discriminate|].
  cbn [traverse].
  destruct (has r id) eqn:Hhas.
  { intros [= <-]. now apply P_visited. }
  destruct (Dict.get id defs) as [sd|mb|] eqn:Hget; [|discriminate|].
  2:{ intros [= <-]. now apply P_absent. }
  apply get_own in Hget.
  unfold transitionsOf. destruct (transitions sd) as [ts|] eqn:Hts; cbn [bind];
    [|discriminate].
  intros Hloop. apply (P_fresh r id sd ts r' Hget Hhas Hts).
  revert Hloop. generalize (r ++ [id])%list. clear - IH Q_done Q_step.
  induction ts as [|t ts IHts]; intros acc; cbn [forEach].
  - intros [= <-]. apply Q_done.
  - destruct (traverse f defs acc (targetState t)) as [r1| |] eqn:Ht; cbn [bind];
      try discriminate.
    intros Hrest. apply (Q_step id acc t ts r1 r' (IH _ _ _ Ht)).
    now apply IHts.
Qed.

End Principle.

Lemma Reachable_defined (a c : string) : Reachable defs a c -> Dict.lookup a defs <> None.
Proof. intros H. destruct H as [a Ha | a b c sd ts t Hsd]; congruence. Qed.

Lemma Reachable_target_defined (a c : string) :
  Reachable defs a c -> Dict.lookup c defs <> None.
Proof. intros H. induction H; assumption. Qed.

(** A path can be continued by a transition of its last state. *)
Lemma Reachable_step (a b : string) (sd : StateDefinition) (ts : list Transition)
    (t : Transition) :
  Reachable defs a b ->
  Dict.lookup b defs = Some sd -> transitions sd = Some ts -> In t ts ->
  Dict.lookup (targetState t) defs <> None ->
  Reachable defs a (targetState t).
Proof.
  intros Hreach Hsd Hts Hin Hdef.
  induction Hreach as [a Ha | a b' c sd' ts' t' Hsd' Hts' Hin' Hb' Hreach IH].
  - exact (reach_next defs a (targetState t) (targetState t) sd ts t Hsd Hts Hin
             eq_refl (reach_here defs _ Hdef)).
  - exact (reach_next defs a b' (targetState t) sd' ts' t' Hsd' Hts' Hin' Hb'
             (IH Hsd)).
Qed.

(** A returned set has no repetition if the given one has none. *)
Lemma traverse_nodup (fuel : nat) (r : list string) (id : string) (r' : list string) :
  traverse fuel defs r id = Returned r' -> NoDup r -> NoDup r'.
Proof.
  apply (traverse_returns
           (fun r _ r' => NoDup r -> NoDup r')
           (fun _ acc _ r' => NoDup acc -> NoDup r')); clear.
  - auto.
  - auto.
  - intros r id sd ts r' _ Hhas _ HQ Hr. apply HQ.
    apply NoDup_app; [exact Hr | repeat constructor; intros [] |].
    intros x Hx [<- | []]. now apply has_false in Hhas.
  - auto.
  - auto.
Qed.

(** Everything a traversal adds is reachable from where it started. *)
Lemma traverse_sound (fuel : nat) (r : list string) (id : string) (r' : list string) :
  traverse fuel defs r id = Returned r' ->
  forall x, In x r' -> In x r \/ Reachable defs id x.
Proof.
  apply (traverse_returns
           (fun r id r' => forall x, In x r' -> In x r \/ Reachable defs id x)
           (fun src acc ts r' =>
              (forall t, In t ts ->
                 exists sd all, Dict.lookup src defs = Some sd /\
                   transitions sd = Some all /\ In t all) ->
              forall x, In x r' -> In x acc \/ Reachable defs src x)); clear.
  - auto.
  - auto.
  - intros r id sd ts r' Hsd _ Hts HQ x Hx.
    destruct (HQ (fun t Ht => ex_intro _ sd (ex_intro _ ts (conj Hsd (conj Hts Ht)))) x Hx)
      as [Hin | Hreach]; [|now right].
    apply in_app_or in Hin as [Hin | [<- | []]]; [now left|].
    right. apply reach_here. congruence.
  - auto.
  - intros src acc t rest r1 r' HP HQ Hedges x Hx.
    destruct (HQ (fun t' Ht' => Hedges t' (or_intror Ht')) x Hx) as [Hin | Hreach];
      [|now right].
    destruct (HP x Hin) as [Hacc | Hreach]; [now left|].
    right. destruct (Hedges t (or_introl eq_refl)) as [sd [all [Hsd [Hts Ht]]]].
    exact (reach_next defs src (targetState t) x sd all t Hsd Hts Ht eq_refl Hreach).
Qed.

Lemma closedAt_mono (r r' : list string) (x : string) :
  incl r r' -> closedAt defs r x -> closedAt defs r' x.
Proof.
  intros Hincl [sd [ts [Hsd [Hts Hc]]]]. exists sd, ts.
  split; [exact Hsd|]. split; [exact Hts|].
  intros t Ht. destruct (Hc t Ht) as [Hin | Habsent]; [left; now apply Hincl | now right].
Qed.

(** Every state that a traversal adds has a transition list whose targets
    are in the result or are found nowhere, and the starting state is in the
    result unless it is found nowhere. *)
Lemma traverse_closed (fuel : nat) (r : list string) (id : string) (r' : list string) :
  traverse fuel defs r id = Returned r' ->
  incl r r' /\
  (forall x, In x r' -> ~ In x r -> closedAt defs r' x) /\
  (In id r' \/ Dict.get id defs = Dict.Absent).
Proof.
  apply (traverse_returns
           (fun r id r' =>
              incl r r' /\
              (forall x, In x r' -> ~ In x r -> closedAt defs r' x) /\
              (In id r' \/ Dict.get id defs = Dict.Absent))
           (fun _ acc ts r' =>
              incl acc r' /\
              (forall x, In x r' -> ~ In x acc -> closedAt defs r' x) /\
              (forall t, In t ts ->
                 In (targetState t) r' \/ Dict.get (targetState t) defs = Dict.Absent)));
    clear.
  - intros r id Hhas. split; [apply incl_refl|]. split; [contradiction|].
    left. now apply has_In.
  - intros r id _ Habsent. split; [apply incl_refl|]. split; [contradiction | now right].
  - intros r id sd ts r' Hsd Hhas Hts [Hincl [Hclosed Htargets]].
    assert (Hid : In id r') by (apply Hincl, in_or_app; right; now left).
    split; [eapply incl_tran; [apply incl_appl, incl_refl | exact Hincl]|].
    split; [|now left].
    intros x Hx Hnew. destruct (string_dec x id) as [-> | Hne].
    + now exists sd, ts.
    + apply Hclosed; [exact Hx|].
      intros Hin. apply in_app_or in Hin as [Hin | [Heq | []]]; auto.
  - intros _ acc. split; [apply incl_refl|]. split; [contradiction | intros t []].
  - intros src acc t rest r1 r' [Hi1 [Hc1 Hid1]] [Hi2 [Hc2 Ht2]].
    split; [eapply incl_tran; eassumption|]. split.
    + intros x Hx Hnew. destruct (in_dec string_dec x r1) as [Hin | Hnin].
      * apply (closedAt_mono r1 r' x Hi2). now apply Hc1.
      * now apply Hc2.
    + intros t' [<- | Hin]; [|now apply Ht2].
      destruct Hid1 as [Hin1 | Habsent]; [left; now apply Hi2 | now right].
Qed.

Lemma closed_reaches (set : list string) :
  (forall x, In x set -> closedAt defs set x) ->
  forall a c, Reachable defs a c -> In a set -> In c set.
Proof.
  intros Hclosed a c H. induction H as [a Ha | a b c sd ts t Hsd Hts Ht Hb Hreach IH];
    [auto|].
  intros Ha. apply IH. subst b.
  destruct (Hclosed a Ha) as [sd' [ts' [Hsd' [Hts' Hc]]]].
  assert (sd' = sd) by congruence. subst sd'.
  assert (ts' = ts) by congruence. subst ts'.
  destruct (Hc t Ht) as [Hin | Habsent]; [exact Hin|].
  exfalso. pose proof (Reachable_defined _ _ Hreach) as Hdef.
  destruct (Dict.lookup (targetState t) defs) as [v|] eqn:Hl; [|contradiction].
  apply get_own in Hl. congruence.
Qed.

(** A closed set meets no state at which the traversal throws. *)
Lemma closed_never_throws (set : list string) (x : string) :
  (forall y, In y set -> closedAt defs set y) -> In x set -> ~ throwsAt defs x.
Proof.
  intros Hclosed Hx [sd [Hsd Hthrows]].
  destruct (Hclosed x Hx) as [sd' [ts [Hsd' [Hts Hc]]]].
  assert (sd' = sd) by congruence. subst sd'.
  destruct Hthrows as [Hnone | [ts' [t [mb [Hts' [Ht Hmb]]]]]]; [congruence|].
  assert (ts' = ts) by congruence. subst ts'.
  destruct (Hc t Ht) as [Hin | Habsent]; [|congruence].
  destruct (Hclosed _ Hin) as [sd2 [_ [Hsd2 _]]].
  apply get_own in Hsd2. congruence.
Qed.

(** What a returned set is. *)
Lemma findReachableStates_returned (initial : string) (set : list string) :
  findReachableStates defs initial = Returned set ->
  NoDup set /\
  (forall id, In id set <-> Reachable defs initial id) /\
  ~ throwsFrom defs initial.
Proof.
  unfold findReachableStates. intros Hset.
  destruct (traverse_closed _ _ _ _ Hset) as [_ [Hclosed Hinit]].
  assert (Hall : forall x, In x set -> closedAt defs set x)
    by (intros x Hx; apply Hclosed; [exact Hx | intros []]).
  assert (Hstart : Dict.lookup initial defs <> None -> In initial set).
  { intros Hdef. destruct Hinit as [Hin | Habsent]; [exact Hin|].
    destruct (Dict.lookup initial defs) as [v|] eqn:Hl; [|contradiction].
    apply get_own in Hl. congruence. }
  assert (Hcomplete : forall id, Reachable defs initial id -> In id set).
  { intros id Hreach. apply (closed_reaches set Hall initial id Hreach).
    apply Hstart. now apply (Reachable_defined _ id). }
  split; [apply (traverse_nodup _ _ _ _ Hset); constructor|]. split.
  - intros id. split; [|apply Hcomplete].
    intros Hin. destruct (traverse_sound _ _ _ _ Hset id Hin) as [[] | H]. exact H.
  - intros [[mb Hmb] | [x [Hreach Hx]]].
    + destruct Hinit as [Hin | Habsent]; [|congruence].
      destruct (Hall _ Hin) as [sd [_ [Hsd _]]]. apply get_own in Hsd. congruence.
    + exact (closed_never_throws set x Hall (Hcomplete x Hreach) Hx).
Qed.

Lemma findReachableStates_fuel (initial : string) :
  findReachableStates defs initial <> OutOfFuel.
Proof.
  unfold findReachableStates.
  assert (Hfuel : List.length (unvisited defs []) < S (List.length defs))
    by (pose proof (unvisited_bound []); lia).
  exact (proj1 (traverse_fuel _ [] initial Hfuel)).
Qed.

End Traversal.

(** X26: [findReachableStates] computes the states reachable from the
    initial state, or throws.  The depth-first traversal always finishes
    within the recursion depth of the number of states plus one.  It throws a
    TypeError exactly when the initial id is no state but the name of a member
    of [Object.prototype] (such as constructor), or when some state that a
    chain of transitions between defined states connects to the initial state
    has no transition list or has a transition that names such a member.
    Otherwise it returns a set without repetition that holds exactly the
    defined states so connected to the initial state -- none when the initial
    id is found nowhere. *)
Theorem X26_reachable_states (defs : list (string * StateDefinition)) (initial : string) :
  findReachableStates defs initial <> OutOfFuel /\
  (findReachableStates defs initial = TypeError <-> throwsFrom defs initial) /\
  (forall set,
     findReachableStates defs initial = Returned set ->
     NoDup set /\ (forall id, In id set <-> Reachable defs initial id)) /\
  (Dict.get initial defs = Dict.Absent ->
   findReachableStates defs initial = Returned []).
Proof.
  pose proof (findReachableStates_fuel defs initial) as Hfuel.
  split; [exact Hfuel|]. split; [|split].
  - split.
    + apply traverse_error.
    + intros Hthrows.
      destruct (findReachableStates defs initial) as [set| |] eqn:Hres;
        [|reflexivity | contradiction].
      destruct (findReachableStates_returned defs initial set Hres) as [_ [_ Hno]].
      contradiction.
  - intros set Hset.
    destruct (findReachableStates_returned defs initial set Hset) as [Hnd [Hiff _]].
    now split.
  - intros Habsent. unfold findReachableStates. cbn [traverse has existsb].
    now rewrite Habsent.
Qed.

End FlowFacts.

(** ** The flow validator and the engine *)

Section Validation.
Context `{E : RegExpEngine}.
Import JS JSFacts JSMore DictFacts FlowUtils FlowFacts.

Lemma extends_refl (s : list Issue) : extends s s.
Proof. exists []. now rewrite app_nil_r. Qed.

Lemma extends_trans (a b c : list Issue) : extends a b -> extends b c -> extends a c.
Proof. intros [e ->] [e' ->]. exists (e ++ e')%list. now rewrite app_assoc. Qed.

Lemma extends_app (s e : list Issue) : extends s (s ++ e)%list.
Proof. now exists e. Qed.

Lemma noErrors_extends (s s' : list Issue) : extends s s' -> noErrors s' -> noErrors s.
Proof.
  intros [e ->]. unfold noErrors. rewrite forallb_app.
  intros H. now apply andb_true_iff in H as [H _].
Qed.

(** A loop whose body only appends issues: what each element established
    about the issue list still holds at the end. *)
Lemma forEach_issues {A : Type} (f : list Issue -> A -> Outcome (list Issue))
    (Post : A -> list Issue -> Prop) :
  (forall x s s', Post x s -> extends s s' -> Post x s') ->
  (forall s x s', f s x = Returned s' -> extends s s' /\ Post x s') ->
  forall l s s',
    forEach f l s = Returned s' ->
    extends s s' /\ forall x, In x l -> Post x s'.
Proof.
  intros Hmono Hbody. induction l as [|x l IH]; intros s s'; cbn [forEach].
  - intros [= <-]. split; [apply extends_refl | intros x []].
  - destruct (f s x) as [s1| |] eqn:Hf; cbn [bind]; try discriminate.
    intros Hrest. destruct (Hbody _ _ _ Hf) as [He1 Hp1].
    destruct (IH _ _ Hrest) as [He2 Hp2].
    split; [exact (extends_trans _ _ _ He1 He2)|].
    intros y [<- | Hin]; [exact (Hmono _ _ _ Hp1 He2) | now apply Hp2].
Qed.

(** What a validation without an error issue has checked. *)
Lemma validate_no_errors (isTerminal : string -> bool) (b : Business)
    (issues : list Issue) :
  validateStateFlow isTerminal b = Returned issues ->
  noErrors issues ->
  initialState b <> "" /\
  Dict.lookup (initialState b) (businessStateDefinitions b) <> None /\
  (forall id sd ts t,
     Dict.lookup id (businessStateDefinitions b) = Some sd ->
     transitions sd = Some ts -> In t ts ->
     Dict.get (targetState t) (businessStateDefinitions b) <> Dict.Absent) /\
  targetsDefinedFrom (businessStateDefinitions b) (initialState b).
Proof.
  unfold validateStateFlow.
  set (defs := businessStateDefinitions b).
  set (issues0 := if negb (truthy (initialState b)) then _ else _).
  match goal with
  | |- bind (forEach ?f1 (Dict.entries defs) issues0) _ = _ -> _ => set (stage1 := f1)
  end.
  destruct (forEach stage1 (Dict.entries defs) issues0) as [issues1| |] eqn:H1;
    cbn [bind]; try discriminate.
  match goal with
  | |- bind (forEach ?f2 (Dict.entries defs) issues1) _ = _ -> _ => set (stage2 := f2)
  end.
  destruct (forEach stage2 (Dict.entries defs) issues1) as [issues2| |] eqn:H2;
    cbn [bind]; try discriminate.
  destruct (findReachableStates defs (initialState b)) as [reach| |] eqn:Hreach;
    cbn [bind]; try discriminate.
  match goal with
  | |- forEach ?f3 (Dict.entries defs) issues2 = _ -> _ => set (stage3 := f3)
  end.
  intros H3 Hok.
  (* every stage only appends *)
  assert (E1 : extends issues0 issues1).
  { apply (forEach_issues stage1 (fun _ _ => True)) in H1; [apply H1 | auto |].
    intros s [id state] s'. unfold stage1, transitionsOf.
    destruct (transitions state); cbn [bind]; [|discriminate].
    intros [= <-]. split; [|exact I].
    destruct (_ && _); [apply extends_app | apply extends_refl]. }
  assert (E3 : extends issues2 issues).
  { apply (forEach_issues stage3 (fun _ _ => True)) in H3; [apply H3 | auto |].
    intros s [id state] s'. unfold stage3. intros [= <-]. split; [|exact I].
    destruct (has reach id); [apply extends_refl | apply extends_app]. }
  assert (Hstage2 :
            extends issues1 issues2 /\
            forall e, In e (Dict.entries defs) ->
              noErrors issues2 ->
              forall ts t, transitions (snd e) = Some ts -> In t ts ->
                Dict.get (targetState t) defs <> Dict.Absent).
  { apply (forEach_issues stage2
             (fun e s => noErrors s ->
                forall ts t, transitions (snd e) = Some ts -> In t ts ->
                  Dict.get (targetState t) defs <> Dict.Absent)) in H2; [exact H2 | |].
    - intros e s s' Hpost Hext Hs'. apply Hpost. now apply (noErrors_extends s s').
    - intros s [id state] s'. unfold stage2, transitionsOf. cbn [snd].
      destruct (transitions state) as [ts|]; cbn [bind]; [|discriminate].
      intros Hinner.
      match type of Hinner with
      | forEach ?g ts s = _ =>
          apply (forEach_issues g
                   (fun t s => noErrors s ->
                      Dict.get (targetState t) defs <> Dict.Absent))
            in Hinner
      end.
      + destruct Hinner as [Hext Hpost]. split; [exact Hext|].
        intros Hs' ts' t [= <-] Ht. now apply Hpost.
      + intros t s0 s1 Hpost Hext Hs1. apply Hpost.
        now apply (noErrors_extends s0 s1).
      + intros s0 t s1 [= <-].
        destruct (Dict.get (targetState t) defs) eqn:Hl.
        * split; [apply extends_refl | intros _; discriminate].
        * split; [apply extends_refl | intros _; discriminate].
        * split; [apply extends_app|]. unfold noErrors. rewrite forallb_app.
          cbn. rewrite andb_false_r. discriminate. }
  destruct Hstage2 as [E2 Htargets].
  assert (Hok2 : noErrors issues2) by exact (noErrors_extends _ _ E3 Hok).
  assert (Hok0 : noErrors issues0).
  { apply (noErrors_extends _ issues1 E1), (noErrors_extends _ issues2 E2), Hok2. }
  destruct (findReachableStates_returned defs _ _ Hreach) as [_ [_ Hcalm]].
  assert (Hfound : forall id sd ts t,
            Dict.lookup id defs = Some sd -> transitions sd = Some ts -> In t ts ->
            Dict.get (targetState t) defs <> Dict.Absent).
  { intros id sd ts t Hsd Hts Ht.
    assert (Hentry : In (id, sd) (Dict.entries defs))
      by (apply EntriesFacts.In_entries; now apply lookup_in).
    exact (Htargets (id, sd) Hentry Hok2 ts t Hts Ht). }
  split; [|split; [|split]].
  - intros Hempty. unfold issues0 in Hok0. rewrite Hempty in Hok0. discriminate Hok0.
  - intros Hnone. unfold issues0 in Hok0.
    destruct (negb (truthy (initialState b))); [discriminate Hok0|].
    destruct (Dict.get (initialState b) defs) as [sd|mb|] eqn:Hget.
    + apply get_own in Hget. fold defs in Hnone. congruence.
    + apply Hcalm. left. now exists mb.
    + discriminate Hok0.
  - exact Hfound.
  - intros id sd ts t Hre Hsd Hts Ht.
    destruct (Dict.get (targetState t) defs) as [v|mb|] eqn:Hget.
    + apply get_own in Hget. fold defs. congruence.
    + elim Hcalm. right. exists id. split; [exact Hre|].
      exists sd. split; [exact Hsd|]. right. now exists ts, t, mb.
    + elim (Hfound id sd ts t Hsd Hts Ht Hget).
Qed.

(** A turn keeps the session on the states that can be reached from the
    initial state, when the transitions of these states point at defined
    states. *)
Lemma getNextState_stays_reachable (m : AgentMemory) (input initial : string) :
  targetsDefinedFrom (stateDefinitions m) initial ->
  Reachable (stateDefinitions m) initial (currentState m) ->
  Reachable (stateDefinitions m) initial (currentState (snd (getNextState m input))).
Proof.
  intros Hwf Hre.
  destruct (getNextState_effect m input) as [-> | [sd [ts [t [Hsd [Hts [Hin [_ ->]]]]]]]];
    cbn [snd]; [exact Hre|].
  cbn [currentState setCurrentState].
  apply (Reachable_step _ _ _ sd ts t Hre Hsd Hts Hin).
  exact (Hwf _ _ _ _ Hre Hsd Hts Hin).
Qed.

Lemma processUserInput_stays_reachable (svc : KaniService) (llm : ChatModel)
    (now input initial : string) :
  targetsDefinedFrom (stateDefinitions (memory svc)) initial ->
  Reachable (stateDefinitions (memory svc)) initial (currentState (memory svc)) ->
  Reachable (stateDefinitions (memory svc)) initial
    (currentState (memory (snd (processUserInput svc llm now input)))).
Proof.
  intros Hwf Hre.
  destruct (storeResponse_frame (memory svc) (currentState (memory svc))
              input true now) as [Hc [Hd _]].
  set (m1 := storeResponse (memory svc) (currentState (memory svc)) input true now) in *.
  set (defs := stateDefinitions (memory svc)) in *.
  assert (Hre1 : Reachable (stateDefinitions m1) initial (currentState m1))
    by now rewrite Hc, Hd.
  assert (Hwf1 : targetsDefinedFrom (stateDefinitions m1) initial) by now rewrite Hd.
  pose proof (getNextState_stays_reachable m1 input initial Hwf1 Hre1) as Hre2.
  assert (Hd2 : stateDefinitions (snd (getNextState m1 input)) = defs).
  { destruct (getNextState_logs m1 input) as [_ [[Hs _] _]]. cbn zeta in Hs.
    now rewrite Hs. }
  rewrite Hd in Hre2.
  unfold processUserInput, ruleStage.
  destruct (truthy _); [exact Hre|].
  destruct (isDisqualified (memory svc) input); [exact Hre|].
  fold m1. destruct (getNextState m1 input) as [next m2]. cbn [snd] in *.
  destruct (if truthy _ then getCurrentStateDefinition m2 else Dict.Absent);
    [exact Hre2 | exact Hre2 |].
  unfold llmFallback. cbn [openai setMemory memory].
  destruct (negb _); [exact Hre2|].
  destruct (llm _ _ _) as [| |text]; [exact Hre2 | exact Hre2 |].
  set (svc3 := recordUsage _ _ _ _).
  pose proof (determineState_snd svc3 (polishReply text) input) as Hsnd.
  destruct (determineStateFromLLMResponse svc3 (polishReply text) input)
    as [nx svc4].
  cbn [snd] in *. subst svc4. cbn [memory setMemory].
  assert (Hd3 : stateDefinitions (memory svc3) = defs) by exact Hd2.
  rewrite <- Hd3. apply getNextState_stays_reachable; now rewrite Hd3.
Qed.

Lemma converse_stays_reachable (svc : KaniService) (llm : ChatModel)
    (turns : list (string * string)) (initial : string) :
  targetsDefinedFrom (stateDefinitions (memory svc)) initial ->
  Reachable (stateDefinitions (memory svc)) initial (currentState (memory svc)) ->
  Reachable (stateDefinitions (memory svc)) initial
    (currentState (memory (converse svc llm turns))) /\
  stateDefinitions (memory (converse svc llm turns)) = stateDefinitions (memory svc).
Proof.
  revert svc. induction turns as [|[now input] rest IH]; intros svc Hwf Hre;
    cbn [converse]; [now split|].
  destruct (processUserInput_memory svc llm now input) as [_ [[Hdefs _] _]].
  cbn zeta in Hdefs.
  pose proof (processUserInput_stays_reachable svc llm now input initial Hwf Hre) as Hturn.
  destruct (IH (snd (processUserInput svc llm now input))) as [H1 H2].
  - now rewrite Hdefs.
  - now rewrite Hdefs.
  - rewrite Hdefs in H1, H2. now split.
Qed.

(** X27: a validated flow keeps the session on defined states.  If
    [validateStateFlow] returns and none of its issues has severity error,
    then the initial state is named and is a state, every transition target is
    found (as a state or, for want of one, as a member of [Object.prototype]),
    and every transition of a state that can be reached from the initial state
    points at a state; and a session started on that business is, after every
    turn of every conversation and whatever the model answers, on a state that
    has a definition and can be reached from the initial state. *)
Theorem X27_validated_flow_is_safe (isTerminal : string -> bool) (b : Business)
    (issues : list Issue) :
  validateStateFlow isTerminal b = Returned issues ->
  forallb (fun i => negb (isError i)) issues = true ->
  initialState b <> "" /\
  Dict.lookup (initialState b) (businessStateDefinitions b) <> None /\
  (forall id sd ts t,
     Dict.lookup id (businessStateDefinitions b) = Some sd ->
     transitions sd = Some ts -> In t ts ->
     Dict.get (targetState t) (businessStateDefinitions b) <> Dict.Absent) /\
  targetsDefinedFrom (businessStateDefinitions b) (initialState b) /\
  forall key model delay llm turns,
    let after := memory (converse (newKaniService key b model delay) llm turns) in
    stateDefined after /\
    Reachable (businessStateDefinitions b) (initialState b) (currentState after).
Proof.
  intros Hv Hok.
  destruct (validate_no_errors isTerminal b issues Hv Hok) as [Hne [Hdef [Hfound Hwf]]].
  repeat split; try assumption.
  - destruct (converse_stays_reachable (newKaniService key b model delay) llm turns
                (initialState b)) as [Hre Hdefs].
    + exact Hwf.
    + cbn. unfold orElse. rewrite (truthy_of_nonempty _ Hne). now apply reach_here.
    + unfold stateDefined. rewrite Hdefs.
      exact (Reachable_target_defined _ _ _ Hre).
  - apply (converse_stays_reachable (newKaniService key b model delay) llm turns
             (initialState b)); [exact Hwf|].
    cbn. unfold orElse. rewrite (truthy_of_nonempty _ Hne). now apply reach_here.
Qed.

End Validation.

(** ** Keyword alternatives (services/PromptGeneratorService.ts) *)

Module PromptFacts.
Import PromptGenerator.

Lemma arrayIncludes_In (arr : list string) (x : string) :
  arrayIncludes arr x = true <-> In x arr.
Proof.
  unfold arrayIncludes. rewrite existsb_exists. split.
  - intros [y [Hin Hy]]. apply String.eqb_eq in Hy. now subst.
  - intros Hin. exists x. split; [exact Hin | apply String.eqb_refl].
Qed.

Lemma addAlternative_collected (keywords acc : list string) (k alt : string) :
  In k keywords -> In alt (generateSingleKeywordAlternatives k) ->
  collected keywords acc -> collected keywords (addAlternative keywords acc alt).
Proof.
  intros Hk Halt [Hnd Hall]. unfold addAlternative.
  destruct (arrayIncludes keywords alt) eqn:Hkw; cbn [negb andb]; [now split|].
  destruct (arrayIncludes acc alt) eqn:Hacc; cbn [negb]; [now split|].
  assert (Hnk : ~ In alt keywords)
    by (intros H; apply arrayIncludes_In in H; congruence).
  assert (Hna : ~ In alt acc)
    by (intros H; apply arrayIncludes_In in H; congruence).
  split.
  - apply NoDup_app; [exact Hnd | repeat constructor; intros [] |].
    intros x Hx [<- | []]. contradiction.
  - intros a Ha. apply in_app_or in Ha as [Ha | [<- | []]]; [now apply Hall|].
    split; [exact Hnk | eauto].
Qed.

Lemma addAlternatives_collected (keywords : list string) (k : string)
    (alts acc : list string) :
  In k keywords ->
  (forall alt, In alt alts -> In alt (generateSingleKeywordAlternatives k)) ->
  collected keywords acc ->
  collected keywords (fold_left (addAlternative keywords) alts acc).
Proof.
  intros Hk. revert acc. induction alts as [|alt alts IH]; intros acc Hsub Hacc;
    [exact Hacc|].
  cbn [fold_left]. apply IH.
  - intros a Ha. apply Hsub. now right.
  - apply (addAlternative_collected keywords acc k alt Hk); [|exact Hacc].
    apply Hsub. now left.
Qed.

Lemma loop_collected (keywords ks acc : list string) :
  (forall k, In k ks -> In k keywords) ->
  collected keywords acc ->
  collected keywords (fold_left (addAlternativesOf keywords) ks acc).
Proof.
  revert acc. induction ks as [|k ks IH]; intros acc Hsub Hacc; [exact Hacc|].
  cbn [fold_left]. apply IH.
  - intros k' Hk'. apply Hsub. now right.
  - unfold addAlternativesOf.
    apply (addAlternatives_collected keywords k); [|auto|exact Hacc].
    apply Hsub. now left.
Qed.

(** X28: the alternative phrasings offered for a keyword list are at most
    five, pairwise different, never one of the keywords themselves, and each
    is an alternative of one of the keywords; a keyword is recognised whatever
    its letter case and surrounding white space. *)
Theorem X28_keyword_alternatives (keywords : list string) :
  let phrases := generateKeywordAlternatives keywords in
  List.length phrases <= 5 /\
  NoDup phrases /\
  (forall a, In a phrases ->
     ~ In a keywords /\
     exists k, In k keywords /\ In a (generateSingleKeywordAlternatives k)) /\
  (forall k, generateSingleKeywordAlternatives (JS.toLowerCase k) =
             generateSingleKeywordAlternatives k /\
             generateSingleKeywordAlternatives (JS.trim k) =
             generateSingleKeywordAlternatives k).
Proof.
  cbn zeta. unfold generateKeywordAlternatives.
  assert (Hnil : collected keywords []) by (split; [constructor | intros a []]).
  destruct (loop_collected keywords keywords [] (fun k H => H) Hnil) as [Hnd Hall].
  set (all := fold_left (addAlternativesOf keywords) keywords []) in *.
  split; [rewrite length_firstn; lia|]. split; [|split].
  - rewrite <- (firstn_skipn 5 all) in Hnd. now apply NoDup_app_remove_r in Hnd.
  - intros a Ha. apply Hall. rewrite <- (firstn_skipn 5 all).
    apply in_or_app. now left.
  - intros k. unfold generateSingleKeywordAlternatives. split.
    + now rewrite JSFacts.toLowerCase_idem.
    + now rewrite <- (JSFacts.trim_lower k), JSMore.trim_idem, (JSFacts.trim_lower k).
Qed.

End PromptFacts.

(** ** The further properties at concrete sessions *)

Lemma lookup_cons {V : Type} (k k' : string) (v : V) (rest : list (string * V)) :
  Dict.lookup k ((k', v) :: rest) =
  if (k' =? k)%string then Some v else Dict.lookup k rest.
Proof. reflexivity. Qed.

Lemma shop_targets_defined : targetsDefined Samples.shopStates.
Proof.
  intros id sd ts t Hsd Hts Hin. unfold Samples.shopStates in Hsd.
  rewrite lookup_cons in Hsd. destruct (String.eqb "greeting" id).
  - injection Hsd as <-. injection Hts as <-. destruct Hin as [<- | []]. discriminate.
  - rewrite lookup_cons in Hsd. destruct (String.eqb "done" id); [|discriminate].
    injection Hsd as <-. discriminate Hts.
Qed.

Lemma X6_fact_extraction_witness :
  Dict.lookup (currentState Scenarios.codeDesk) (stateDefinitions Scenarios.codeDesk) =
    Some (Samples.mkState "Code" "What is your code?"
            (Scenarios.sharpS ++ "eta Code") None) /\
  Scenarios.sharpS ++ "eta Code" <> "" /\
  capitalisable (JS.toLowerCase (Scenarios.sharpS ++ "eta Code")) = true /\
  Dict.lookup "userSSeta code"
    (contextualData (storeResponse Scenarios.codeDesk "code" "42" true Samples.clock))
    = Some "42" /\
  Dict.lookup "userCompany" (contextualData Scenarios.deskMemory) = Some "Acme" /\
  transitionHistory Scenarios.deskMemory =
    [ {| from := "company"; to := "company";
         reason := "Form data update: company" |} ].
Proof.
  split; [reflexivity|]. split; [discriminate|]. split; [reflexivity|].
  split.
  - exact (proj1 (proj1 (X6_fact_extraction Scenarios.codeDesk "code" "42" true
                           Samples.clock)
                    (Samples.mkState "Code" "What is your code?"
                       (Scenarios.sharpS ++ "eta Code") None)
                    eq_refl ltac:(discriminate) eq_refl)).
  - destruct (proj1 (X6_fact_extraction (newAgentMemory Samples.frontDesk)
                       "company" "Acme" true Samples.clock)
                (Samples.mkState "Company" "Which company are you with?" "Company" None)
                eq_refl)
      as [Hfact [_ [_ Hhist]]]; [discriminate | reflexivity |].
    split; [exact Hfact | exact Hhist].
Defined.

Lemma X7_first_matching_transition_witness :
  @matchesCondition rejectingEngine "Yes, sure" "contains:yes" = true /\
  @getNextState rejectingEngine (memory Samples.shopService) "Yes, sure" =
    (Some "done",
     setCurrentState
       (pushHistory (memory Samples.shopService)
          {| from := "greeting"; to := "done"; reason := "contains:yes" |})
       "done") /\
  @getNextState rejectingEngine (memory Samples.shopService) "maybe" =
    (None, memory Samples.shopService).
Proof.
  split; [reflexivity|].
  destruct (@X7_first_matching_transition rejectingEngine
              (memory Samples.shopService) "Yes, sure") as [Hfirst _].
  destruct (@X7_first_matching_transition rejectingEngine
              (memory Samples.shopService) "maybe") as [_ [_ Hnone]].
  split.
  - apply (Hfirst (Samples.mkState "Greeting" "Is this a good time to talk?"
                     "Yes/No response"
                     (Some [ {| condition := "contains:yes"; targetState := "done" |} ]))
                  [] {| condition := "contains:yes"; targetState := "done" |} []);
      [reflexivity | reflexivity | intros t' [] | reflexivity].
  - pose proof (Hnone eq_refl) as Hsame. reflexivity.
Defined.

Lemma X8_policy_agrees_with_state_machine_witness :
  isLongQuestion "yes please" = false /\
  fst (@getNextState rejectingEngine (memory Samples.shopService) "yes please") <> None /\
  @shouldUseLLM rejectingEngine (memory Samples.shopService) "yes please" = false.
Proof.
  split; [reflexivity|]. split; [discriminate|].
  apply (proj1 (@X8_policy_agrees_with_state_machine rejectingEngine
                  (memory Samples.shopService) "yes please" eq_refl)
           (Samples.mkState "Greeting" "Is this a good time to talk?" "Yes/No response"
              (Some [ {| condition := "contains:yes"; targetState := "done" |} ])));
    [reflexivity | reflexivity | discriminate].
Defined.

Lemma X11_business_facts_survive_witness :
  isBusinessKey "businessName" = true /\
  Dict.lookup "businessName"
    (contextualData
       (memory (snd (@processUserInput rejectingEngine Samples.shopService
                       Samples.chattyModel Samples.clock "maybe later"))))
    = Some "Acme Shoes".
Proof.
  split; [reflexivity|].
  rewrite (@X11_business_facts_survive rejectingEngine Samples.shopService
             Samples.chattyModel Samples.clock "maybe later" "businessName" eq_refl).
  reflexivity.
Defined.


Lemma X14_knowledge_hit_short_circuits_witness :
  @findKnowledgeBaseResponse rejectingEngine (memory Scenarios.faqService)
    "Where are you located?" = Some "We are in Springfield." /\
  "We are in Springfield." <> "" /\
  @isDisqualified rejectingEngine (memory Scenarios.faqService)
    "Where are you located?" = Some "Goodbye." /\
  @processUserInput rejectingEngine Scenarios.faqService Samples.failingModel
    Samples.clock "Where are you located?" =
  ({| turnResponse := "We are in Springfield.";
      nextState := Some "greeting";
      disqualified := false |},
   setMemory Scenarios.faqService (setLLMUsed (memory Scenarios.faqService) false)).
Proof.
  split; [reflexivity|]. split; [discriminate|]. split; [reflexivity|].
  apply (@X14_knowledge_hit_short_circuits rejectingEngine Scenarios.faqService
           Samples.failingModel Samples.clock "Where are you located?"
           "We are in Springfield."); [reflexivity | discriminate].
Defined.

Lemma X15_transition_turn_witness :
  @passesFilters rejectingEngine Samples.shopService "Yes, sure" = true /\
  @matchesCondition rejectingEngine "Yes, sure" "contains:yes" = true /\
  fst (@processUserInput rejectingEngine Samples.shopService Samples.failingModel
         Samples.clock "Yes, sure")
    = {| turnResponse := "Thank you, goodbye."; nextState := Some "done";
         disqualified := false |} /\
  currentState
    (memory (snd (@processUserInput rejectingEngine Samples.shopService
                    Samples.failingModel Samples.clock "Yes, sure")))
    = "done".
Proof.
  split; [reflexivity|]. split; [reflexivity|].
  destruct (@X15_transition_turn rejectingEngine Samples.shopService
              Samples.failingModel Samples.clock "Yes, sure"
              (Samples.mkState "Greeting" "Is this a good time to talk?"
                 "Yes/No response"
                 (Some [ {| condition := "contains:yes"; targetState := "done" |} ]))
              [] {| condition := "contains:yes"; targetState := "done" |} []
              (Samples.mkState "Goodbye" "Thank you, goodbye." "" None))
    as [Hresult [Hstate _]];
    try reflexivity; [intros t' [] | discriminate |].
  split; [exact Hresult | exact Hstate].
Defined.

Lemma X16_no_client_no_model_call_witness :
  openai Scenarios.keylessService = false /\
  @processUserInput rejectingEngine Scenarios.keylessService Samples.chattyModel
    Samples.clock "maybe later" =
  @processUserInput rejectingEngine Scenarios.keylessService Samples.failingModel
    Samples.clock "maybe later" /\
  turnResponse
    (fst (@processUserInput rejectingEngine Scenarios.keylessService
            Samples.failingModel Samples.clock "maybe later"))
    = notConfigured.
Proof.
  split; [reflexivity|].
  destruct (@X16_no_client_no_model_call rejectingEngine Scenarios.keylessService
              Samples.failingModel Samples.clock "maybe later" eq_refl)
    as [Hsame Hreply].
  split; [apply Hsame|].
  now rewrite (Hreply _ eq_refl).
Defined.

Lemma X18_current_state_stays_defined_witness :
  stateDefined (memory Samples.shopService) /\
  stateDefined
    (memory (snd (@processUserInput rejectingEngine Samples.shopService
                    Samples.chattyModel Samples.clock "Yes, sure"))).
Proof.
  assert (Hdef : stateDefined (memory Samples.shopService)) by discriminate.
  split; [exact Hdef|].
  exact (@X18_current_state_stays_defined rejectingEngine Samples.shopService
           Samples.chattyModel Samples.clock "Yes, sure" shop_targets_defined Hdef).
Defined.

Lemma X19_escalation_in_a_sound_flow_witness :
  Dict.lookup "" (stateDefinitions (memory Samples.shopService)) = None /\
  @passesFilters rejectingEngine Samples.shopService "maybe later" = true /\
  fst (@getNextState rejectingEngine (memory Samples.shopService) "maybe later") = None /\
  exists svc1,
    @ruleStage rejectingEngine Samples.shopService Samples.clock "maybe later"
      = inr svc1.
Proof.
  split; [reflexivity|]. split; [reflexivity|]. split; [reflexivity|].
  apply (proj1 (@X19_escalation_in_a_sound_flow rejectingEngine Samples.shopService
                  Samples.clock "maybe later" shop_targets_defined eq_refl)).
  split; reflexivity.
Defined.

Lemma X20_first_matching_item_witness :
  knowledgeBase Scenarios.deskMemory = ([] ++ [Samples.located])%list /\
  @itemMatches rejectingEngine (JS.trim (JS.toLowerCase "Where is it located?"))
    Samples.located = true /\
  @findKnowledgeBaseResponse rejectingEngine Scenarios.deskMemory "Where is it located?"
    = Some "We are in Acme.".
Proof.
  split; [reflexivity|]. split; [reflexivity|].
  rewrite (proj1 (@X20_first_matching_item rejectingEngine Scenarios.deskMemory
                    "Where is it located?")
             [] Samples.located []);
    [reflexivity | reflexivity | intros i [] | reflexivity].
Defined.

Lemma X21_only_long_terms_count_witness :
  hasRegexMeta (pattern Scenarios.smallTalk) = false /\
  @itemMatches rejectingEngine "how are you" Scenarios.smallTalk = false /\
  hasRegexMeta (pattern Samples.located) = false /\
  @itemMatches rejectingEngine "somewhere else" Samples.located = true.
Proof.
  split; [reflexivity|].
  destruct (@X21_only_long_terms_count rejectingEngine "how are you"
              Scenarios.smallTalk eq_refl) as [_ Hshort].
  destruct (@X21_only_long_terms_count rejectingEngine "somewhere else"
              Samples.located eq_refl) as [Hlong _].
  split.
  - apply Hshort. intros term [<- | [<- | [<- | []]]]; cbn; lia.
  - split; [reflexivity|]. apply Hlong. exists "where".
    split; [now left|]. split; [cbn; lia | reflexivity].
Defined.

Lemma X26_reachable_states_witness :
  FlowUtils.findReachableStates Scenarios.checkedStates "greeting"
    = FlowUtils.Returned ["greeting"; "done"] /\
  Reachable Scenarios.checkedStates "greeting" "done" /\
  FlowUtils.findReachableStates Scenarios.checkedStates "nowhere"
    = FlowUtils.Returned [] /\
  throwsFrom Scenarios.orphanStates "orphan" /\
  FlowUtils.findReachableStates Scenarios.orphanStates "orphan" = FlowUtils.TypeError.
Proof.
  split; [reflexivity|]. split; [|split].
  - apply (proj2 (proj1 (proj2 (proj2 (FlowFacts.X26_reachable_states
                                          Scenarios.checkedStates "greeting")))
                          ["greeting"; "done"] eq_refl)).
    right. now left.
  - apply (proj2 (proj2 (proj2 (FlowFacts.X26_reachable_states
                                   Scenarios.checkedStates "nowhere")))).
    reflexivity.
  - assert (Hthrows : throwsFrom Scenarios.orphanStates "orphan").
    { right. exists "orphan". split; [apply reach_here; discriminate|].
      eexists. split; [reflexivity|]. right.
      exists [ {| condition := "any"; targetState := "constructor" |} ],
             {| condition := "any"; targetState := "constructor" |},
             (ObjectPrototype.Method "Object").
      split; [reflexivity|]. split; [now left | reflexivity]. }
    split; [exact Hthrows|].
    exact (proj2 (proj1 (proj2 (FlowFacts.X26_reachable_states
                                  Scenarios.orphanStates "orphan"))) Hthrows).
Defined.

Lemma X27_validated_flow_is_safe_witness :
  FlowUtils.validateStateFlow Scenarios.doneIsTerminal Scenarios.orphanShop
    = FlowUtils.Returned
        [ {| FlowUtils.severity := FlowUtils.SeverityWarning;
             FlowUtils.issueMessage :=
               "State " ++ dq ++ "Orphan" ++ dq ++
               " (orphan) is not reachable from the initial state" |} ] /\
  Dict.get "constructor" Scenarios.orphanStates
    = Dict.Inherited (ObjectPrototype.Method "Object") /\
  targetsDefinedFrom Scenarios.orphanStates "greeting" /\
  stateDefined
    (memory (@converse rejectingEngine
               (newKaniService "key" Scenarios.orphanShop "gpt-3.5-turbo" 750)
               Samples.chattyModel
               [ (Samples.clock, "maybe later"); (Samples.clock, "Yes, sure") ])).
Proof.
  split; [reflexivity|]. split; [reflexivity|].
  destruct (@X27_validated_flow_is_safe rejectingEngine Scenarios.doneIsTerminal
              Scenarios.orphanShop _ eq_refl eq_refl) as [_ [_ [_ [Hwf Hsafe]]]].
  split; [exact Hwf | apply Hsafe].
Defined.


Lemma X10_history_is_append_only_witness :
  @passesFilters rejectingEngine Samples.shopService "cancel it" = false /\
  transitionHistory
    (memory (snd (@processUserInput rejectingEngine Samples.shopService
                    Samples.chattyModel Samples.clock "cancel it")))
    = transitionHistory (memory Samples.shopService).
Proof.
  split; [reflexivity|].
  apply (proj2 (proj2 (@X10_history_is_append_only rejectingEngine Samples.shopService
                         Samples.chattyModel Samples.clock "cancel it"))).
  reflexivity.
Defined.

Lemma X23_repair_is_idempotent_witness :
  testDuplication "well, address follows" = false /\
  fixDuplication "well, address follows" = "well, address follows" /\
  fixDuplication (fixDuplication "Wellll   done!!!") = "Well  done!!".
Proof.
  split; [reflexivity|].
  destruct (X23_repair_is_idempotent "well, address follows") as [_ [_ Hsame]].
  destruct (X23_repair_is_idempotent "Wellll   done!!!") as [Hidem _].
  split; [now apply Hsame|]. rewrite Hidem. reflexivity.
Defined.

Lemma X25_prompt_contents_witness :
  In ("userCompany", "Acme") (contextualData Scenarios.deskMemory) /\
  isBusinessKey "userCompany" = false /\
  JS.includes
    (generateSystemPrompt (newKaniService "key" Samples.frontDesk "gpt-3.5-turbo" 750)
       (buildMinimalContext Scenarios.deskMemory))
    ("- " ++ "userCompany" ++ ": " ++ "Acme") = true.
Proof.
  assert (Hin : In ("userCompany", "Acme") (contextualData Scenarios.deskMemory))
    by (do 5 right; now left).
  split; [exact Hin|]. split; [reflexivity|].
  exact (proj1 (proj2 (proj2 (X25_prompt_contents
                                (newKaniService "key" Samples.frontDesk
                                   "gpt-3.5-turbo" 750)
                                (buildMinimalContext Scenarios.deskMemory))))
           "userCompany" "Acme" Hin eq_refl).
Defined.

Lemma X28_keyword_alternatives_witness :
  PromptGenerator.generateKeywordAlternatives ["Yes"; " no "; "definitely"; "later"]
    = ["of course"; "absolutely"; "certainly"; "not really"; "not interested"] /\
  ~ In "of course" ["Yes"; " no "; "definitely"; "later"].
Proof.
  split; [reflexivity|].
  apply (proj1 (proj2 (proj2 (PromptFacts.X28_keyword_alternatives
                                ["Yes"; " no "; "definitely"; "later"])))
           "of course").
  now left.
Defined.
